(** * EIP-3009 authorization helpers of the stablecoin-evm examples

    A shallow embedding of the JavaScript example scripts under
    [examples/]: the EIP-712 digest construction, the signature
    re-packing helpers, the amount conversion and the pre-flight checks
    of the execution helpers, together with the properties they satisfy.

    JavaScript strings are lists of [ascii] characters, byte arrays are
    lists of [Byte.byte], numbers and bigints are [Z].  Calls that leave
    the process (clock, chain reads, transaction submission) are recorded
    in an event trace by a small state-and-exception monad. *)

From Stdlib Require Import String Ascii ZArith NArith Lia Bool Arith List.
From Stdlib Require Import DecimalString Permutation.
From Stdlib.Strings Require Import Byte.
Import ListNotations.

Set Implicit Arguments.

(* ================================================================= *)
(** ** JavaScript strings *)

Definition str := list ascii.

(** A string literal of the source. *)
Definition lit (s : string) : str := list_ascii_of_string s.

Definition str_eqb (a b : str) : bool :=
  if list_eq_dec ascii_dec a b then true else false.

(** [s.startsWith(p)] *)
Fixpoint startsWith (p s : str) : bool :=
  match p, s with
  | [], _ => true
  | c :: p', d :: s' => Ascii.eqb c d && startsWith p' s'
  | _ :: _, [] => false
  end.

(** [s.slice(a, b)] and [s.substring(a, b)] for [0 <= a <= b]. *)
Definition slice (a b : nat) (s : str) : str := firstn (b - a) (skipn a s).

(** [s.slice(a)] *)
Definition slice_from (a : nat) (s : str) : str := skipn a s.

(** [s.padStart(n, c)] with a one-character filler. *)
Definition padStart (n : nat) (c : ascii) (s : str) : str :=
  repeat c (n - length s) ++ s.

(** [s.replace(p, "")]: the first occurrence of [p] is removed. *)
Fixpoint remove_first (p s : str) : str :=
  if startsWith p s then skipn (length p) s
  else match s with
       | [] => []
       | c :: s' => c :: remove_first p s'
       end.

(** [s.toLowerCase()] on the ASCII range. *)
Definition lower_ascii (c : ascii) : ascii :=
  let n := nat_of_ascii c in
  if (65 <=? n)%nat && (n <=? 90)%nat then ascii_of_nat (n + 32) else c.

Definition toLowerCase (s : str) : str := map lower_ascii s.

(* ================================================================= *)
(** ** Bytes and hexadecimal text *)

Definition bytes := list byte.

Definition byte_of_N (n : N) : byte :=
  match Byte.of_N (n mod 256) with
  | Some b => b
  | None => x00
  end.

Definition byte_of_Z (z : Z) : byte := byte_of_N (Z.to_N (z mod 256)).

Definition Z_of_byte (b : byte) : Z := Z.of_N (Byte.to_N b).

(** The lower-case digit of a value below sixteen. *)
Definition hexdigit (n : N) : ascii :=
  if (n <? 10)%N then ascii_of_N (48 + n) else ascii_of_N (87 + n).

(** The value of a hexadecimal digit, either case. *)
Definition hexval (c : ascii) : option N :=
  let n := N_of_ascii c in
  if ((48 <=? n) && (n <=? 57))%N then Some (n - 48)%N
  else if ((97 <=? n) && (n <=? 102))%N then Some (n - 87)%N
  else if ((65 <=? n) && (n <=? 70))%N then Some (n - 55)%N
  else None.

Definition is_hexdigit (c : ascii) : bool :=
  match hexval c with Some _ => true | None => false end.

Definition hex_of_byte (b : byte) : str :=
  [hexdigit (Byte.to_N b / 16); hexdigit (Byte.to_N b mod 16)].

(** Hexadecimal digits of a byte array, without prefix. *)
Definition hex_body (bs : bytes) : str := flat_map hex_of_byte bs.

(** [ethers.hexlify] / [bytesToHex]: ["0x"] and two lower-case digits per byte. *)
Definition hexlify (bs : bytes) : str := lit "0x" ++ hex_body bs.

(** Pairs of hexadecimal digits back to bytes; [None] on a character that
    is no digit or on an odd number of digits. *)
Fixpoint unhex_body (s : str) : option bytes :=
  match s with
  | [] => Some []
  | c :: d :: s' =>
      match hexval c, hexval d, unhex_body s' with
      | Some h, Some l, Some bs => Some (byte_of_N (16 * h + l) :: bs)
      | _, _, _ => None
      end
  | _ => None
  end.

(** [isHexStrict]: the prefix ["0x"] followed by hexadecimal digits only. *)
Definition isHexStrict (s : str) : bool :=
  startsWith (lit "0x") s && forallb is_hexdigit (skipn 2 s).

(** [hexToBytes] of a strict hexadecimal string; an odd number of digits
    is completed by a leading zero digit. *)
Definition hexToBytes (s : str) : option bytes :=
  if isHexStrict s then
    let body := skipn 2 s in
    if Nat.even (length body) then unhex_body body
    else unhex_body ("0"%char :: body)
  else None.

(** Bytes of an ASCII string ([utf8ToBytes] on the ASCII range). *)
Definition utf8ToBytes (s : str) : bytes := map byte_of_ascii s.

(* ================================================================= *)
(** ** Keccak-256

    [web3.utils.keccak256] and the hashing inside [ethers] come from
    libraries outside the repository; this is the Keccak-f[1600] sponge
    of rate 136 bytes with the original Keccak padding (0x01 .. 0x80). *)

Module Keccak.
Local Open Scope N_scope.

Definition lane_mask : N := 0xFFFFFFFFFFFFFFFF.

Definition rotl (w n : N) : N :=
  N.lor (N.land (N.shiftl w n) lane_mask) (N.shiftr w (64 - n)).

(** Lane [(x, y)] of a state stored row by row. *)
Definition lane (A : list N) (x y : nat) : N :=
  nth ((x mod 5) + 5 * (y mod 5))%nat A 0.

Definition positions : list nat := seq 0 25.

Definition rotation_offsets : list N :=
  [ 0;  1; 62; 28; 27;
   36; 44;  6; 55; 20;
    3; 10; 43; 25; 39;
   41; 45; 15; 21;  8;
   18;  2; 61; 56; 14].

Definition round_constants : list N :=
  [0x0000000000000001; 0x0000000000008082; 0x800000000000808A;
   0x8000000080008000; 0x000000000000808B; 0x0000000080000001;
   0x8000000080008081; 0x8000000000008009; 0x000000000000008A;
   0x0000000000000088; 0x0000000080008009; 0x000000008000000A;
   0x000000008000808B; 0x800000000000008B; 0x8000000000008089;
   0x8000000000008003; 0x8000000000008002; 0x8000000000000080;
   0x000000000000800A; 0x800000008000000A; 0x8000000080008081;
   0x8000000000008080; 0x0000000080000001; 0x8000000080008008].

Definition parity (A : list N) (x : nat) : N :=
  N.lxor (lane A x 0)
    (N.lxor (lane A x 1) (N.lxor (lane A x 2) (N.lxor (lane A x 3) (lane A x 4)))).

Definition theta (A : list N) : list N :=
  let C := map (parity A) (seq 0 5) in
  let D := map (fun x => N.lxor (nth ((x + 4) mod 5)%nat C 0)
                                (rotl (nth ((x + 1) mod 5)%nat C 0) 1))
               (seq 0 5) in
  map (fun i => N.lxor (nth i A 0) (nth (i mod 5)%nat D 0)) positions.

(** Rotation and transposition: the lane written to [(X, Y)] is read
    from [(X + 3Y, X)]. *)
Definition rho_pi (A : list N) : list N :=
  map (fun i =>
         let X := (i mod 5)%nat in
         let Y := (i / 5)%nat in
         let src := (((X + 3 * Y) mod 5) + 5 * X)%nat in
         rotl (nth src A 0) (nth src rotation_offsets 0))
      positions.

Definition chi (B : list N) : list N :=
  map (fun i =>
         let x := (i mod 5)%nat in
         let y := (i / 5)%nat in
         N.lxor (lane B x y) (N.ldiff (lane B (x + 2) y) (lane B (x + 1) y)))
      positions.

Definition iota (rc : N) (A : list N) : list N :=
  match A with
  | [] => []
  | a :: A' => N.lxor a rc :: A'
  end.

Definition round (A : list N) (rc : N) : list N :=
  iota rc (chi (rho_pi (theta A))).

Definition permute (A : list N) : list N := fold_left round round_constants A.

(** Eight bytes, least significant first, as a lane. *)
Fixpoint lane_of_bytes (bs : bytes) : N :=
  match bs with
  | [] => 0
  | b :: bs' => Byte.to_N b + 256 * lane_of_bytes bs'
  end.

Fixpoint bytes_of_lane (k : nat) (w : N) : bytes :=
  match k with
  | O => []
  | S k' => byte_of_N w :: bytes_of_lane k' (w / 256)
  end.

Fixpoint lanes_of_block (k : nat) (bs : bytes) : list N :=
  match k with
  | O => []
  | S k' => lane_of_bytes (firstn 8 bs) :: lanes_of_block k' (skipn 8 bs)
  end.

Definition rate : nat := 136.

(** Padding to a multiple of the rate: 0x01, zeroes, and 0x80 in the
    last byte (0x81 when a single byte is missing). *)
Definition pad (bs : bytes) : bytes :=
  let missing := (rate - (length bs mod rate))%nat in
  match missing with
  | 1%nat => bs ++ [x81]
  | _ => bs ++ [x01] ++ repeat x00 (missing - 2) ++ [x80]
  end.

Fixpoint absorb (fuel : nat) (A : list N) (bs : bytes) : list N :=
  match fuel with
  | O => A
  | S fuel' =>
      match bs with
      | [] => A
      | _ =>
          let blk := lanes_of_block 17 (firstn rate bs) ++ repeat 0 8 in
          let A' := map (fun p => N.lxor (fst p) (snd p)) (combine A blk) in
          absorb fuel' (permute A') (skipn rate bs)
      end
  end.

Definition keccak256 (bs : bytes) : bytes :=
  let padded := pad bs in
  let A := absorb (length padded) (repeat 0 25) padded in
  flat_map (bytes_of_lane 8) (firstn 4 A).

End Keccak.

Definition keccak256 := Keccak.keccak256.

(** [web3.utils.keccak256] on a string: a strict hexadecimal string
    stands for its bytes, any other string for its UTF-8 bytes; the hash
    comes back as a hexadecimal string. *)
Definition web3_keccak256 (s : str) : str :=
  match hexToBytes s with
  | Some bs => hexlify (keccak256 bs)
  | None => hexlify (keccak256 (utf8ToBytes s))
  end.


(* ================================================================= *)
(** ** ABI encoding of static parameters

    [web3.eth.abi.encodeParameters] restricted to the three static types
    the examples pass: every parameter takes one 32-byte word. *)

Inductive abi_type := T_bytes32 | T_address | T_uint256.

(** The JavaScript values handed to the encoder: a hexadecimal string,
    a byte array ([Uint8Array]) or an integer (number, bigint or its
    decimal string). *)
Inductive js_value :=
| JStr (s : str)
| JBytes (b : bytes)
| JNum (n : Z).

Definition js_bytes (v : js_value) : option bytes :=
  match v with
  | JStr s => hexToBytes s
  | JBytes b => Some b
  | JNum _ => None
  end.

(** [k] bytes of an integer, most significant first. *)
Fixpoint be_bytes (k : nat) (n : Z) : bytes :=
  match k with
  | O => []
  | S k' => be_bytes k' (n / 256) ++ [byte_of_Z n]
  end.

(** The integer held by bytes, most significant first. *)
Definition be_value (bs : bytes) : Z :=
  fold_left (fun acc b => 256 * acc + Z_of_byte b)%Z bs 0%Z.

Definition zero_bytes (k : nat) : bytes := repeat x00 k.

Definition encode_word (t : abi_type) (v : js_value) : option bytes :=
  match t with
  | T_bytes32 =>
      match js_bytes v with
      | Some b => if (length b <=? 32)%nat
                  then Some (b ++ zero_bytes (32 - length b)) else None
      | None => None
      end
  | T_address =>
      match js_bytes v with
      | Some a => if (length a =? 20)%nat
                  then Some (zero_bytes 12 ++ a) else None
      | None => None
      end
  | T_uint256 =>
      match v with
      | JNum n => if ((0 <=? n) && (n <? 2 ^ 256))%Z
                  then Some (be_bytes 32 n) else None
      | _ => None
      end
  end.

Fixpoint encode_words (ts : list abi_type) (vs : list js_value) : option bytes :=
  match ts, vs with
  | [], [] => Some []
  | t :: ts', v :: vs' =>
      match encode_word t v, encode_words ts' vs' with
      | Some w, Some ws => Some (w ++ ws)
      | _, _ => None
      end
  | _, _ => None
  end.

(** The encoder throws ([None]) on a value that does not fit its type or
    on lists of different lengths. *)
Definition encodeParameters (ts : list abi_type) (vs : list js_value) : option str :=
  option_map hexlify (encode_words ts vs).

(* ================================================================= *)
(** ** Signing capability

    ECDSA itself stays opaque: a signing key is the function from the
    32-byte hash handed to it to the signature it returns. *)

Record Signature := mkSignature { sig_r : bytes; sig_s : bytes; sig_v : Z }.

Definition SigningKey := bytes -> Signature.

(** [ethers.getBytes] of a hexadecimal string. *)
Definition getBytes (s : str) : option bytes := hexToBytes s.

(** [ethers.Signature.serialized] / the string returned by
    [signMessage] and [signTypedData]: r, s and one byte of v. *)
Definition serialized (sg : Signature) : str :=
  hexlify (sig_r sg ++ sig_s sg ++ [byte_of_Z (sig_v sg)]).

(* ================================================================= *)
(** ** examples/working-transfer-test.js *)

Definition transfer_type_string : string :=
  "TransferWithAuthorization(address from,address to,uint256 value,uint256 validAfter,uint256 validBefore,bytes32 nonce)".

Definition receive_type_string : string :=
  "ReceiveWithAuthorization(address from,address to,uint256 value,uint256 validAfter,uint256 validBefore,bytes32 nonce)".

Definition transferWithAuthorizationTypeHash : str :=
  web3_keccak256 (lit transfer_type_string).

Definition strip0x (input : str) : str :=
  if startsWith (lit "0x") input then slice_from 2 input else input.

(** [ecSign]: the key signs the bytes of [digest]; the three components
    are copied out. *)
Definition ecSign (digest : str) (privateKey : SigningKey) : option Signature :=
  match getBytes digest with
  | Some d =>
      let signature := privateKey d in
      Some (mkSignature (sig_r signature) (sig_s signature) (sig_v signature))
  | None => None
  end.

(** [(v - 27).toString(16)] needs the textual form of a possibly
    negative number. *)
Fixpoint hex_digits_of (fuel : nat) (n : N) (acc : str) : str :=
  match fuel with
  | O => acc
  | S fuel' =>
      if (n <? 16)%N then hexdigit n :: acc
      else hex_digits_of fuel' (n / 16)%N (hexdigit (n mod 16)%N :: acc)
  end.

(** [n.toString(16)] of an integer. *)
Definition toString16 (n : Z) : str :=
  let digits := hex_digits_of (S (N.to_nat (N.log2 (Z.to_N (Z.abs n)))))
                              (Z.to_N (Z.abs n)) [] in
  if (n <? 0)%Z then "-"%char :: digits else digits.

Definition packSignature (signature : Signature) : str :=
  strip0x (hexlify (sig_r signature)) ++
  strip0x (hexlify (sig_s signature)) ++
  padStart 2 "0"%char (toString16 (sig_v signature - 27)).

Definition signEIP712 (domainSeparator typeHash : str) (types : list abi_type)
    (parameters : list js_value) (privateKey : SigningKey) : option Signature :=
  match encodeParameters (T_bytes32 :: types) (JStr typeHash :: parameters) with
  | Some encoded =>
      let digest :=
        web3_keccak256
          (lit "0x1901" ++ strip0x domainSeparator ++
           strip0x (web3_keccak256 encoded)) in
      ecSign digest privateKey
  | None => None
  end.

Definition signTransferAuthorization (from to : str) (value validAfter validBefore : Z)
    (nonce domainSeparator : str) (privateKey : SigningKey) : option Signature :=
  signEIP712 domainSeparator transferWithAuthorizationTypeHash
    [T_address; T_address; T_uint256; T_uint256; T_uint256; T_bytes32]
    [JStr from; JStr to; JNum value; JNum validAfter; JNum validBefore; JStr nonce]
    privateKey.

(* ================================================================= *)
(** ** Exceptions and numbers *)

(** A JavaScript computation either returns or throws an [Error] with
    a message. *)
Inductive Result (A : Type) :=
| Return (a : A)
| Throw (message : str).

Arguments Throw {A} message.

(** Decimal text of an integer ([String(n)], template interpolation). *)
Definition decimal (n : Z) : str :=
  list_ascii_of_string (NilZero.string_of_int (Z.to_int n)).

Definition is_whitespace (c : ascii) : bool :=
  let n := nat_of_ascii c in
  ((9 <=? n) && (n <=? 13))%nat || (n =? 32)%nat.

Fixpoint skip_whitespace (s : str) : str :=
  match s with
  | c :: s' => if is_whitespace c then skip_whitespace s' else s
  | [] => []
  end.

(** The value of the longest prefix of hexadecimal digits, with the
    number of digits read. *)
Fixpoint read_hex (s : str) (acc : N) (count : nat) : N * nat :=
  match s with
  | c :: s' =>
      match hexval c with
      | Some d => read_hex s' (16 * acc + d)%N (S count)
      | None => (acc, count)
      end
  | [] => (acc, count)
  end.

Definition strip_radix_prefix (s : str) : str :=
  if startsWith (lit "0x") s || startsWith (lit "0X") s then skipn 2 s else s.

(** [parseInt(s, 16)]: leading white space, a sign and a ["0x"] prefix
    are skipped, the longest run of digits is read; [None] is [NaN]. *)
Definition parseInt16 (s : str) : option Z :=
  let s1 := skip_whitespace s in
  let (negative, s2) :=
    match s1 with
    | c :: s' =>
        if Ascii.eqb c "-"%char then (true, s')
        else if Ascii.eqb c "+"%char then (false, s')
        else (false, s1)
    | [] => (false, s1)
    end in
  let (n, count) := read_hex (strip_radix_prefix s2) 0%N O in
  match count with
  | O => None
  | S _ => Some (if negative then - Z.of_N n else Z.of_N n)%Z
  end.

(** [x.toString(16)] of a number that may be [NaN]. *)
Definition number_toString16 (x : option Z) : str :=
  match x with
  | Some n => toString16 n
  | None => lit "NaN"
  end.

(* ================================================================= *)
(** ** examples/final-working-transfer.js *)

Definition formatSignatureForContract (signature : str) : Result str :=
  if negb (startsWith (lit "0x") signature) || negb (length signature =? 132)%nat
  then Throw (lit "Invalid ethers signature format")
  else
    let r := slice 2 66 signature in
    let s := slice 66 130 signature in
    let v := slice 130 132 signature in
    let vValue := parseInt16 v in
    let normalizedV :=
      match vValue with
      | Some n => if (n <? 27)%Z then Some (n + 27)%Z else Some n
      | None => None
      end in
    let packedSignature :=
      lit "0x" ++ r ++ s ++ padStart 2 "0"%char (number_toString16 normalizedV) in
    Return packedSignature.

(* ================================================================= *)
(** ** examples/working-receive-example.js *)

Definition RECEIVE_WITH_AUTHORIZATION_TYPEHASH : str :=
  web3_keccak256 (lit receive_type_string).

Definition TRANSFER_WITH_AUTHORIZATION_TYPEHASH : str :=
  web3_keccak256 (lit transfer_type_string).

Definition formatSignatureForECRecover (signature : str) : Result str :=
  let cleanSig := remove_first (lit "0x") signature in
  if negb (length cleanSig =? 130)%nat
  then Throw (lit "Invalid signature length: " ++ decimal (Z.of_nat (length cleanSig)))
  else
    let r := slice 0 64 cleanSig in
    let s := slice 64 128 cleanSig in
    let v := parseInt16 (slice 128 130 cleanSig) in
    let v :=
      match v with
      | Some n => if (n <? 27)%Z then Some (n + 27)%Z else Some n
      | None => None
      end in
    let packed := r ++ s ++ padStart 2 "0"%char (number_toString16 v) in
    Return (lit "0x" ++ packed).

(** The record built by [createReceiveAuthorization] and
    [createTransferAuthorization], before and after signing. *)
Record DigestAuthorization := mkDigestAuthorization {
  da_from : str;
  da_to : str;
  da_value : Z;
  da_validAfter : Z;
  da_validBefore : Z;
  da_nonce : bytes;
  da_digest : str;
  da_domainSeparator : str;
  da_structHash : str;
  da_signature : option str
}.

(** [ethers.hashMessage] of a byte array: the personal-message prefix
    and the decimal length come before the message. *)
Definition MessagePrefix : str :=
  ascii_of_nat 25 :: lit "Ethereum Signed Message:" ++ [ascii_of_nat 10].

Definition hashMessage (message : bytes) : bytes :=
  keccak256 (utf8ToBytes MessagePrefix ++
             utf8ToBytes (decimal (Z.of_nat (length message))) ++
             message).

(** [wallet.signMessage(bytes)]: the key signs [hashMessage(bytes)]. *)
Definition signMessage (wallet : SigningKey) (message : bytes) : str :=
  serialized (wallet (hashMessage message)).

(* ================================================================= *)
(** ** Amounts: [ethers.parseUnits] and [ethers.formatUnits]

    Both come from the ethers library (version 6, [FixedNumber]); thrown
    errors are identified by the leading text of their message. *)

Definition is_digit (c : ascii) : bool :=
  let n := nat_of_ascii c in ((48 <=? n) && (n <=? 57))%nat.

(** The longest prefix of decimal digits and what follows it. *)
Fixpoint span_digits (s : str) : str * str :=
  match s with
  | c :: s' =>
      if is_digit c then let (d, rest) := span_digits s' in (c :: d, rest)
      else ([], s)
  | [] => ([], [])
  end.

(** The pattern of [FixedNumber.fromString]: an optional minus sign,
    decimal digits, an optional point, decimal digits, and nothing
    else; the groups are the sign, the whole part and the decimal part. *)
Definition match_fixed (s : str) : option (bool * str * str) :=
  let (negative, s1) :=
    match s with
    | c :: s' => if Ascii.eqb c "-"%char then (true, s') else (false, s)
    | [] => (false, s)
    end in
  let (whole, s2) := span_digits s1 in
  let s3 :=
    match s2 with
    | c :: s' => if Ascii.eqb c "."%char then s' else s2
    | [] => s2
    end in
  let (dec, s4) := span_digits s3 in
  match s4 with
  | [] => Some (negative, whole, dec)
  | _ :: _ => None
  end.

Definition digits_value (s : str) : Z :=
  fold_left (fun acc c => 10 * acc + (Z.of_nat (nat_of_ascii c) - 48))%Z s 0%Z.

(** [while (decimal.length < decimals) decimal += "0000"] *)
Fixpoint pad_zeros (fuel decimals : nat) (dec : str) : str :=
  match fuel with
  | O => dec
  | S fuel' =>
      if (length dec <? decimals)%nat
      then pad_zeros fuel' decimals (dec ++ lit "0000")
      else dec
  end.

Definition all_zero (s : str) : bool :=
  forallb (fun c => Ascii.eqb c "0"%char) s.

Definition parseUnits (value : str) (decimals : nat) : Result Z :=
  match match_fixed value with
  | None => Throw (lit "invalid FixedNumber string value")
  | Some (negative, whole0, dec0) =>
      if (length whole0 + length dec0 =? 0)%nat
      then Throw (lit "invalid FixedNumber string value")
      else
        let whole := match whole0 with [] => lit "0" | _ => whole0 end in
        let dec := pad_zeros decimals decimals dec0 in
        if negb (all_zero (skipn decimals dec))
        then Throw (lit "too many decimals for format")
        else
          let dec := firstn decimals dec in
          let magnitude := digits_value (whole ++ dec) in
          let v := (if negative then - magnitude else magnitude)%Z in
          if ((- 2 ^ 511 <=? v) && (v <? 2 ^ 511))%Z
          then Return v
          else Throw (lit "overflow")
  end.

Fixpoint trim_trailing_zeros (fuel : nat) (rev_frac : str) : str :=
  match fuel, rev_frac with
  | S fuel', c :: (_ :: _) as rest =>
      if Ascii.eqb c "0"%char then trim_trailing_zeros fuel' rest else rev_frac
  | _, _ => rev_frac
  end.

(** [ethers.formatUnits(value, decimals)] for [decimals > 0]: a whole
    part, a point and at least one decimal digit. *)
Definition formatUnits (value : Z) (decimals : nat) : str :=
  let magnitude := Z.abs value in
  let scale := (10 ^ Z.of_nat decimals)%Z in
  let whole := decimal (magnitude / scale) in
  let frac0 := decimal (magnitude mod scale) in
  let frac := repeat "0"%char (decimals - length frac0) ++ frac0 in
  let frac := rev (trim_trailing_zeros decimals (rev frac)) in
  (if (value <? 0)%Z then lit "-" else []) ++ whole ++ lit "." ++ frac.

(* ================================================================= *)
(** ** EIP-712 typed data ([ethers.TypedDataEncoder]) for flat structs *)

Record Domain := mkDomain {
  domain_name : str;
  domain_version : str;
  domain_chainId : Z;
  domain_verifyingContract : str
}.

Record Field := mkField { field_name : str; field_type : abi_type }.

Definition type_name (t : abi_type) : str :=
  match t with
  | T_bytes32 => lit "bytes32"
  | T_address => lit "address"
  | T_uint256 => lit "uint256"
  end.

Fixpoint join (sep : str) (parts : list str) : str :=
  match parts with
  | [] => []
  | [p] => p
  | p :: rest => p ++ sep ++ join sep rest
  end.

(** [encodeType]: [Name(type name,type name,...)]. *)
Definition encodeType (name : str) (fields : list Field) : str :=
  name ++ lit "(" ++
  join (lit ",") (map (fun f => type_name (field_type f) ++ lit " " ++ field_name f) fields)
  ++ lit ")".

Definition hashStruct (name : str) (fields : list Field) (values : list js_value)
  : option bytes :=
  match encode_words (map field_type fields) values with
  | Some ws => Some (keccak256 (keccak256 (utf8ToBytes (encodeType name fields)) ++ ws))
  | None => None
  end.

Definition domain_type_string : string :=
  "EIP712Domain(string name,string version,uint256 chainId,address verifyingContract)".

(** The domain separator: the two string fields enter by their hash. *)
Definition hashDomain (d : Domain) : option bytes :=
  match encode_words [T_uint256; T_address]
          [JNum (domain_chainId d); JStr (domain_verifyingContract d)] with
  | Some ws =>
      Some (keccak256 (keccak256 (utf8ToBytes (lit domain_type_string)) ++
                       keccak256 (utf8ToBytes (domain_name d)) ++
                       keccak256 (utf8ToBytes (domain_version d)) ++ ws))
  | None => None
  end.

(** [TypedDataEncoder.hash(domain, types, message)] *)
Definition typedDataHash (d : Domain) (name : str) (fields : list Field)
    (values : list js_value) : option bytes :=
  match hashDomain d, hashStruct name fields values with
  | Some ds, Some sh => Some (keccak256 ([x19; x01] ++ ds ++ sh))
  | _, _ => None
  end.

(** A wallet: its address and its signing key. *)
Record Wallet := mkWallet { wallet_address : str; wallet_key : SigningKey }.

(** [wallet.signTypedData(domain, types, message)]: the key signs the
    typed-data hash itself. *)
Definition signTypedData (w : Wallet) (d : Domain) (name : str)
    (fields : list Field) (values : list js_value) : Result str :=
  match typedDataHash d name fields values with
  | Some h => Return (serialized (wallet_key w h))
  | None => Throw (lit "invalid typed data")
  end.

Definition authorization_fields : list Field :=
  [mkField (lit "from") T_address; mkField (lit "to") T_address;
   mkField (lit "value") T_uint256; mkField (lit "validAfter") T_uint256;
   mkField (lit "validBefore") T_uint256; mkField (lit "nonce") T_bytes32].

(* ================================================================= *)
(** ** The outside world

    Clock, random source, chain reads and transaction submission are
    answered by a [World]; every request is appended to a trace. *)

Record Receipt := mkReceipt { blockNumber : Z; gasUsed : Z }.

Inductive Method := receiveWithAuthorization_method | transferWithAuthorization_method.

(** The arguments of a call of one of the two contract functions. *)
Record ContractCall := mkCall {
  call_method : Method;
  call_from : str;
  call_to : str;
  call_value : Z;
  call_validAfter : Z;
  call_validBefore : Z;
  call_nonce : bytes;
  call_signature : str;
  call_gasLimit : option Z
}.

Record World := mkWorld {
  Date_now_seconds : Z;
  latest_block_timestamp : Z;
  contract_name : str;
  contract_version : str;
  network_chainId : Z;
  DOMAIN_SEPARATOR : str;
  authorizationState : str -> bytes -> bool;
  balanceOf : str -> Z;
  randomBytes32 : bytes;
  estimateGas : ContractCall -> Result Z;
  sendTransaction : ContractCall -> Result str;
  waitForReceipt : str -> Result Receipt
}.

Inductive Event :=
| EvDateNow
| EvGetBlock
| EvName
| EvVersion
| EvGetNetwork
| EvDomainSeparator
| EvRandomBytes
| EvAuthorizationState (authorizer : str) (nonce : bytes)
| EvBalanceOf (account : str)
| EvEstimateGas (c : ContractCall)
| EvSend (c : ContractCall)
| EvWait (hash : str).

Definition Trace := list Event.

Definition M (A : Type) : Type := World -> Trace -> Result A * Trace.

Definition ret {A : Type} (a : A) : M A := fun _ tr => (Return a, tr).

Definition throw {A : Type} (message : str) : M A := fun _ tr => (Throw message, tr).

Definition bind {A B : Type} (c : M A) (k : A -> M B) : M B :=
  fun w tr =>
    match c w tr with
    | (Return a, tr') => k a w tr'
    | (Throw m, tr') => (Throw m, tr')
    end.

(** A request to the world: the event is recorded, the world answers. *)
Definition request {A : Type} (e : Event) (answer : World -> Result A) : M A :=
  fun w tr => (answer w, tr ++ [e]).

Definition ask {A : Type} (e : Event) (answer : World -> A) : M A :=
  request e (fun w => Return (answer w)).

Definition lift {A : Type} (r : Result A) : M A := fun _ tr => (r, tr).

(** [try { c } catch (error) { h error }] *)
Definition try_catch {A : Type} (c : M A) (h : str -> M A) : M A :=
  fun w tr =>
    match c w tr with
    | (Return a, tr') => (Return a, tr')
    | (Throw m, tr') => h m w tr'
    end.

Declare Scope js_scope.
Delimit Scope js_scope with js.
Notation "x <- c ;; k" := (bind c (fun x => k))
  (at level 61, c at next level, right associativity) : js_scope.
Notation "c ;;; k" := (bind c (fun _ => k))
  (at level 61, right associativity) : js_scope.
Notation "'when' b 'do_throw' m ;; k" := (if b then throw m else k)
  (at level 61, b at next level, m at next level, right associativity) : js_scope.

(** Whether a trace holds a submitted transaction. *)
Definition is_send (e : Event) : bool :=
  match e with EvSend _ => true | _ => false end.

Definition submitted (tr : Trace) : bool := existsb is_send tr.

(** [s.includes(p)] *)
Fixpoint includes (p s : str) : bool :=
  startsWith p s ||
  match s with
  | [] => false
  | _ :: s' => includes p s'
  end.

(** The signed authorization passed to the execution helpers. *)
Record Authorization := mkAuthorization {
  auth_from : str;
  auth_to : str;
  auth_value : Z;
  auth_validAfter : Z;
  auth_validBefore : Z;
  auth_nonce : bytes;
  auth_signature : str
}.

Definition call_of (m : Method) (a : Authorization) (gasLimit : option Z) : ContractCall :=
  mkCall m (auth_from a) (auth_to a) (auth_value a) (auth_validAfter a)
         (auth_validBefore a) (auth_nonce a) (auth_signature a) gasLimit.

Definition message_values (from to : str) (value validAfter validBefore : Z)
    (nonce : bytes) : list js_value :=
  [JStr from; JStr to; JNum value; JNum validAfter; JNum validBefore; JBytes nonce].

Definition not_yet_valid : str := lit "Authorization is not yet valid".
Definition has_expired : str := lit "Authorization has expired".
Definition already_used : str := lit "Authorization has already been used".

Local Open Scope js_scope.

(* ================================================================= *)
(** ** examples/run-transfer-example.js *)

Module RunTransferExample.

Record FiatTokenSender := mkSender {
  contractAddress : str;
  senderSigner : Wallet
}.

Definition transferWithAuthorization (this : FiatTokenSender)
    (authorization : Authorization) : M Receipt :=
  let 'mkAuthorization from to value validAfter validBefore nonce signature :=
    authorization in
  currentTime <- ask EvDateNow Date_now_seconds ;;
  when (currentTime <? validAfter)%Z do_throw not_yet_valid ;;
  when (currentTime >? validBefore)%Z do_throw has_expired ;;
  isUsed <- ask (EvAuthorizationState from nonce)
                (fun w => authorizationState w from nonce) ;;
  when isUsed do_throw already_used ;;
  let c := call_of transferWithAuthorization_method authorization None in
  tx <- request (EvSend c) (fun w => sendTransaction w c) ;;
  receipt <- request (EvWait tx) (fun w => waitForReceipt w tx) ;;
  ret receipt.

Definition createTransferAuthorization (holderSigner : Wallet)
    (recipientAddress amount contractAddress : str) : M Authorization :=
  name <- ask EvName contract_name ;;
  chainId <- ask EvGetNetwork network_chainId ;;
  let holderAddress := wallet_address holderSigner in
  let domain := mkDomain name (lit "2") chainId contractAddress in
  nonce <- ask EvRandomBytes randomBytes32 ;;
  let validAfter := 0%Z in
  now <- ask EvDateNow Date_now_seconds ;;
  let validBefore := (now + 24 * 60 * 60)%Z in
  value <- lift (parseUnits amount 6) ;;
  signature <- lift (signTypedData holderSigner domain
                       (lit "TransferWithAuthorization") authorization_fields
                       (message_values holderAddress recipientAddress value
                                       validAfter validBefore nonce)) ;;
  ret (mkAuthorization holderAddress recipientAddress value validAfter
                       validBefore nonce signature).

End RunTransferExample.

(* ================================================================= *)
(** ** examples/run-receive-example.js *)

Module RunReceiveExample.

Record FiatTokenReceiver := mkReceiver {
  contractAddress : str;
  receiverSigner : Wallet
}.

Definition to_mismatch (to receiverAddress : str) : str :=
  lit "Authorization 'to' address " ++ to ++
  lit " does not match receiver " ++ receiverAddress.

Definition receiveWithAuthorization (this : FiatTokenReceiver)
    (authorization : Authorization) : M Receipt :=
  let 'mkAuthorization from to value validAfter validBefore nonce signature :=
    authorization in
  let receiverAddress := wallet_address (receiverSigner this) in
  when negb (str_eqb (toLowerCase to) (toLowerCase receiverAddress))
    do_throw to_mismatch to receiverAddress ;;
  currentTime <- ask EvDateNow Date_now_seconds ;;
  when (currentTime <? validAfter)%Z do_throw not_yet_valid ;;
  when (currentTime >? validBefore)%Z do_throw has_expired ;;
  isUsed <- ask (EvAuthorizationState from nonce)
                (fun w => authorizationState w from nonce) ;;
  when isUsed do_throw already_used ;;
  let c := call_of receiveWithAuthorization_method authorization None in
  tx <- request (EvSend c) (fun w => sendTransaction w c) ;;
  receipt <- request (EvWait tx) (fun w => waitForReceipt w tx) ;;
  ret receipt.

End RunReceiveExample.

(* ================================================================= *)
(** ** The original receive example (ethers version 5)

    Its [FiatTokenReceiver.receiveWithAuthorization] performs the same
    checks in the same order as the runnable version. *)

Module ReceiveExample.

Import RunReceiveExample.

Definition receiveWithAuthorization (this : FiatTokenReceiver)
    (authorization : Authorization) : M Receipt :=
  let 'mkAuthorization from to value validAfter validBefore nonce signature :=
    authorization in
  let receiverAddress := wallet_address (receiverSigner this) in
  when negb (str_eqb (toLowerCase to) (toLowerCase receiverAddress))
    do_throw to_mismatch to receiverAddress ;;
  currentTime <- ask EvDateNow Date_now_seconds ;;
  when (currentTime <? validAfter)%Z do_throw not_yet_valid ;;
  when (currentTime >? validBefore)%Z do_throw has_expired ;;
  isUsed <- ask (EvAuthorizationState from nonce)
                (fun w => authorizationState w from nonce) ;;
  when isUsed do_throw already_used ;;
  let c := call_of receiveWithAuthorization_method authorization None in
  tx <- request (EvSend c) (fun w => sendTransaction w c) ;;
  receipt <- request (EvWait tx) (fun w => waitForReceipt w tx) ;;
  ret receipt.

End ReceiveExample.

(* ================================================================= *)
(** ** The working transfer example with block-time pre-flight checks *)

Module WorkingTransferExample.

Record WorkingFiatTokenSender := mkSender {
  contractAddress : str;
  executorSigner : Wallet
}.

Definition getCurrentBlockTimestamp : M Z := ask EvGetBlock latest_block_timestamp.

Definition transfer_not_yet_valid (currentBlockTime validAfter : Z) : str :=
  lit "Transfer not yet valid. Current: " ++ decimal currentBlockTime ++
  lit ", Valid After: " ++ decimal validAfter.

Definition transfer_expired (currentBlockTime validBefore : Z) : str :=
  lit "Transfer expired. Current: " ++ decimal currentBlockTime ++
  lit ", Valid Before: " ++ decimal validBefore.

Definition insufficient_balance (balance value : Z) : str :=
  lit "Insufficient balance. Has: " ++ formatUnits balance 6 ++
  lit " USDC, Needs: " ++ formatUnits value 6 ++ lit " USDC".

Definition createTransferAuthSignature (this : WorkingFiatTokenSender)
    (holderSigner : Wallet) (recipientAddress amount : str)
    (validAfterSeconds validForHours : Z) : M Authorization :=
  name <- ask EvName contract_name ;;
  version <- ask EvVersion contract_version ;;
  chainId <- ask EvGetNetwork network_chainId ;;
  let holderAddress := wallet_address holderSigner in
  currentBlockTime <- getCurrentBlockTimestamp ;;
  let validAfter := Z.max 0 (currentBlockTime - 60 + validAfterSeconds) in
  let validBefore := (validAfter + validForHours * 3600)%Z in
  let domain := mkDomain name version chainId (contractAddress this) in
  nonce <- ask EvRandomBytes randomBytes32 ;;
  value <- lift (parseUnits amount 6) ;;
  signature <- lift (signTypedData holderSigner domain
                       (lit "TransferWithAuthorization") authorization_fields
                       (message_values holderAddress recipientAddress value
                                       validAfter validBefore nonce)) ;;
  ret (mkAuthorization holderAddress recipientAddress value validAfter
                       validBefore nonce signature).

Definition executeTransferWithAuth (this : WorkingFiatTokenSender)
    (authorization : Authorization) : M Receipt :=
  let 'mkAuthorization from to value validAfter validBefore nonce signature :=
    authorization in
  currentBlockTime <- getCurrentBlockTimestamp ;;
  when (currentBlockTime <? validAfter - 60)%Z
    do_throw transfer_not_yet_valid currentBlockTime validAfter ;;
  when (currentBlockTime >? validBefore)%Z
    do_throw transfer_expired currentBlockTime validBefore ;;
  isUsed <- ask (EvAuthorizationState from nonce)
                (fun w => authorizationState w from nonce) ;;
  when isUsed do_throw already_used ;;
  balance <- ask (EvBalanceOf from) (fun w => balanceOf w from) ;;
  when (balance <? value)%Z do_throw insufficient_balance balance value ;;
  try_catch
    (let c := call_of transferWithAuthorization_method authorization None in
     gasEstimate <- request (EvEstimateGas c) (fun w => estimateGas w c) ;;
     let c' := call_of transferWithAuthorization_method authorization
                       (Some (Z.quot (gasEstimate * 120) 100)) in
     tx <- request (EvSend c') (fun w => sendTransaction w c') ;;
     receipt <- request (EvWait tx) (fun w => waitForReceipt w tx) ;;
     ret receipt)
    (fun error =>
       (if includes (lit "invalid signature") error
        then ask EvDomainSeparator DOMAIN_SEPARATOR ;;; ret tt
        else ret tt) ;;;
       throw error).

End WorkingTransferExample.

(* ================================================================= *)
(** ** The digest-based examples: working-receive-example.js and its
       transfer twin *)

Definition with_signature (a : DigestAuthorization) (signature : str) : DigestAuthorization :=
  mkDigestAuthorization (da_from a) (da_to a) (da_value a) (da_validAfter a)
    (da_validBefore a) (da_nonce a) (da_digest a) (da_domainSeparator a)
    (da_structHash a) (Some signature).

(** The body shared by [createReceiveAuthorization] and
    [createTransferAuthorization]: only the type hash differs. *)
Definition createDigestAuthorization (typehash : str) (from to amount : str)
    (validAfter : Z) (validBefore : option Z) : M DigestAuthorization :=
  validBefore <-
    match validBefore with
    | Some vb => if (vb =? 0)%Z
                 then (now <- ask EvDateNow Date_now_seconds ;; ret (now + 3600)%Z)
                 else ret vb
    | None => now <- ask EvDateNow Date_now_seconds ;; ret (now + 3600)%Z
    end ;;
  nonce <- ask EvRandomBytes randomBytes32 ;;
  value <- lift (parseUnits amount 6) ;;
  domainSeparator <- ask EvDomainSeparator DOMAIN_SEPARATOR ;;
  match encodeParameters
          [T_bytes32; T_address; T_address; T_uint256; T_uint256; T_uint256; T_bytes32]
          [JStr typehash; JStr from; JStr to; JNum value; JNum validAfter;
           JNum validBefore; JBytes nonce] with
  | None => throw (lit "invalid parameter")
  | Some encoded =>
      let structHash := web3_keccak256 encoded in
      let digest :=
        web3_keccak256
          (lit "0x1901" ++
           remove_first (lit "0x") domainSeparator ++
           remove_first (lit "0x") structHash) in
      ret (mkDigestAuthorization from to value validAfter validBefore nonce
             digest domainSeparator structHash None)
  end.

(** [signAuthorization], the same in both classes: the digest bytes go
    through [wallet.signMessage]. *)
Definition signDigestAuthorization (authorization : DigestAuthorization)
    (wallet : Wallet) : Result DigestAuthorization :=
  match getBytes (da_digest authorization) with
  | None => Throw (lit "invalid BytesLike value")
  | Some message =>
      let signature := signMessage (wallet_key wallet) message in
      match formatSignatureForECRecover signature with
      | Return contractSignature => Return (with_signature authorization contractSignature)
      | Throw m => Throw m
      end
  end.

Module WorkingReceiveExample.

Definition createReceiveAuthorization :=
  createDigestAuthorization RECEIVE_WITH_AUTHORIZATION_TYPEHASH.

Definition signAuthorization := signDigestAuthorization.

End WorkingReceiveExample.

Module CorrectTransferSender.

Definition createTransferAuthorization :=
  createDigestAuthorization TRANSFER_WITH_AUTHORIZATION_TYPEHASH.

Definition signAuthorization := signDigestAuthorization.

End CorrectTransferSender.

(* ================================================================= *)
(** ** examples/final-working-transfer.js and working-transfer-test.js:
       creation of a signed authorization *)

Definition createFinalTransferAuthorization (holderSigner : Wallet)
    (recipientAddress amount contractAddress : str) : M Authorization :=
  name <- ask EvName contract_name ;;
  chainId <- ask EvGetNetwork network_chainId ;;
  let holderAddress := wallet_address holderSigner in
  let domain := mkDomain name (lit "2") chainId contractAddress in
  nonce <- ask EvRandomBytes randomBytes32 ;;
  let validAfter := 0%Z in
  now <- ask EvDateNow Date_now_seconds ;;
  let validBefore := (now + 24 * 60 * 60)%Z in
  value <- lift (parseUnits amount 6) ;;
  signature <- lift (signTypedData holderSigner domain
                       (lit "TransferWithAuthorization") authorization_fields
                       (message_values holderAddress recipientAddress value
                                       validAfter validBefore nonce)) ;;
  contractSignature <- lift (formatSignatureForContract signature) ;;
  ret (mkAuthorization holderAddress recipientAddress value validAfter
                       validBefore nonce contractSignature).

Definition createWorkingTransferAuthorization (holderSigner : Wallet)
    (recipientAddress amount : str) : M Authorization :=
  let holderAddress := wallet_address holderSigner in
  domainSeparator <- ask EvDomainSeparator DOMAIN_SEPARATOR ;;
  nonce <- ask EvRandomBytes randomBytes32 ;;
  let validAfter := 0%Z in
  now <- ask EvDateNow Date_now_seconds ;;
  let validBefore := (now + 24 * 60 * 60)%Z in
  value <- lift (parseUnits amount 6) ;;
  match signTransferAuthorization holderAddress recipientAddress value validAfter
          validBefore (hexlify nonce) domainSeparator (wallet_key holderSigner) with
  | None => throw (lit "invalid parameter")
  | Some signature =>
      let packedSignature := lit "0x" ++ packSignature signature in
      ret (mkAuthorization holderAddress recipientAddress value validAfter
                           validBefore nonce packedSignature)
  end.

(* ================================================================= *)
(** ** The authorization sender: signatures for off-chain transport *)

Module AuthorizationSender.

Record Sender := mkSender {
  contractAddress : str;
  signerWallet : Wallet;
  config_NETWORK : str
}.

Record TransportAuthorization := mkTransport {
  t_type : str;
  t_contractAddress : str;
  t_network : str;
  t_chainId : str;
  t_message : Authorization;
  t_validAfterDate : Z;
  t_validBeforeDate : Z
}.

Definition createAuthorization (type primaryType : str) (this : Sender)
    (recipientAddress amount : str) (validHours : Z) : M TransportAuthorization :=
  name <- ask EvName contract_name ;;
  chainId <- ask EvGetNetwork network_chainId ;;
  let signerAddress := wallet_address (signerWallet this) in
  let domain := mkDomain name (lit "2") chainId (contractAddress this) in
  nonce <- ask EvRandomBytes randomBytes32 ;;
  validAfter <- ask EvDateNow Date_now_seconds ;;
  let validBefore := (validAfter + validHours * 60 * 60)%Z in
  value <- lift (parseUnits amount 6) ;;
  signature <- lift (signTypedData (signerWallet this) domain primaryType
                       authorization_fields
                       (message_values signerAddress recipientAddress value
                                       validAfter validBefore nonce)) ;;
  ret (mkTransport type (contractAddress this) (config_NETWORK this)
         (decimal chainId)
         (mkAuthorization signerAddress recipientAddress value validAfter
                          validBefore nonce signature)
         (validAfter * 1000) (validBefore * 1000)).

Definition createReceiveAuthorization :=
  createAuthorization (lit "receiveWithAuthorization") (lit "ReceiveWithAuthorization").

Definition createTransferAuthorization :=
  createAuthorization (lit "transferWithAuthorization") (lit "TransferWithAuthorization").

End AuthorizationSender.

(* ================================================================= *)
(** ** The digest as the specification words it

    Byte-level definitions that follow the specification's description
    of the EIP-712 digest, for comparison with the string-level code. *)

Module Spec.

(** An address left-padded to 32 bytes. *)
Definition abi_address (a : bytes) : bytes := zero_bytes 12 ++ a.

(** An unsigned integer at 32 bytes, most significant first. *)
Definition abi_uint256 (n : Z) : bytes := be_bytes 32 n.

Definition structHash (typeHash from to : bytes) (value validAfter validBefore : Z)
    (nonce : bytes) : bytes :=
  keccak256 (typeHash ++ abi_address from ++ abi_address to ++
             abi_uint256 value ++ abi_uint256 validAfter ++
             abi_uint256 validBefore ++ nonce).

Definition digest (domainSeparator typeHash from to : bytes)
    (value validAfter validBefore : Z) (nonce : bytes) : bytes :=
  keccak256 ([x19; x01] ++ domainSeparator ++
             structHash typeHash from to value validAfter validBefore nonce).

Definition transfer_typeHash : bytes := keccak256 (utf8ToBytes (lit transfer_type_string)).

Definition receive_typeHash : bytes := keccak256 (utf8ToBytes (lit receive_type_string)).

Definition uint256_range (n : Z) : Prop := (0 <= n < 2 ^ 256)%Z.

End Spec.

(* ================================================================= *)
(** ** Published type hashes and deviations of the type string *)

Definition published_transfer_typehash : str :=
  lit "0x7c7c6cdb67a18743f49ec6fa9b35f50d52ed05cbed4cc592e13b44501c1a2267".

Definition published_receive_typehash : str :=
  lit "0xd099cc98ef71107a616c4f0f941f04c322d8e254fe26b3c6668db87aae413de8".

(** [s] with the character [c] added before position [i]. *)
Definition insert_at (i : nat) (c : ascii) (s : str) : str :=
  firstn i s ++ c :: skipn i s.

Section Orderings.
Context {A : Type}.

(** All ways of placing [x] into [l]. *)
Fixpoint insert_all (x : A) (l : list A) : list (list A) :=
  match l with
  | [] => [[x]]
  | y :: l' => (x :: l) :: map (cons y) (insert_all x l')
  end.

(** All orderings of a list. *)
Fixpoint orderings (l : list A) : list (list A) :=
  match l with
  | [] => [[]]
  | x :: l' => flat_map (insert_all x) (orderings l')
  end.
End Orderings.

Definition abi_type_eqb (a b : abi_type) : bool :=
  match a, b with
  | T_bytes32, T_bytes32 | T_address, T_address | T_uint256, T_uint256 => true
  | _, _ => false
  end.

Definition field_eqb (f g : Field) : bool :=
  str_eqb (field_name f) (field_name g) && abi_type_eqb (field_type f) (field_type g).

Fixpoint fields_eqb (l m : list Field) : bool :=
  match l, m with
  | [], [] => true
  | f :: l', g :: m' => field_eqb f g && fields_eqb l' m'
  | _, _ => false
  end.

(** The type string with its fields in another order hashes to
    something else than the published constant. *)
Definition reordering_detected (fields : list Field) : bool :=
  fields_eqb fields authorization_fields ||
  negb (str_eqb (web3_keccak256 (encodeType (lit "TransferWithAuthorization") fields))
                published_transfer_typehash).

Definition whitespace_chars : list ascii :=
  map ascii_of_nat [9; 10; 11; 12; 13; 32].

Definition whitespace_detected (c : ascii) (i : nat) : bool :=
  negb (str_eqb (web3_keccak256 (insert_at i c (lit transfer_type_string)))
                published_transfer_typehash).

(* ================================================================= *)
(** ** Signature texts and their recovery byte *)

(** A raw signature as the signing library prints it: ["0x"] and 130
    hexadecimal digits. *)
Definition valid_signature_text (sig : str) : Prop :=
  startsWith (lit "0x") sig = true /\
  length sig = 132 /\
  forallb is_hexdigit (skipn 2 sig) = true.

(** What both formatters write for the two digits of [v]. *)
Definition normalized_v_text (vtext : str) : str :=
  padStart 2 "0"%char
    (number_toString16
       match parseInt16 vtext with
       | Some n => if (n <? 27)%Z then Some (n + 27)%Z else Some n
       | None => None
       end).

(** The recovery byte after normalization. *)
Definition normalize_byte (b : byte) : byte :=
  byte_of_Z (if (Z_of_byte b <? 27)%Z then Z_of_byte b + 27 else Z_of_byte b).

Definition hex_chars : list ascii :=
  list_ascii_of_string "0123456789abcdefABCDEF".

(** For two digits [c d]: the normalized text has two digits and is
    left unchanged by a second normalization. *)
Definition v_text_stable (c d : ascii) : bool :=
  let out := normalized_v_text [c; d] in
  (length out =? 2)%nat && forallb is_hexdigit out &&
  str_eqb (normalized_v_text out) out.

(* ================================================================= *)
(** ** Concrete inputs

    The accounts are those of the local test configuration; the key
    below returns the hash it is handed as [r], so that a run shows
    what was signed. *)

Definition payer_address : str := lit "0xf39Fd6e51aad88F6F4ce6aB8827279cffFb92266".
Definition receiver_address : str := lit "0x70997970C51812dc3A010C7d01b50e0d17dc79C8".
Definition gas_station_address : str := lit "0x3C44CdDdB6a900fa2b585dd299e03d12FA4293BC".
Definition usdc_address : str := lit "0x1c7D4B196Cb0C7B01d743Fbc6116a902379C7238".

Definition echo_key : SigningKey := fun h => mkSignature h (repeat x22 32) 27.

Definition payer_wallet : Wallet := mkWallet payer_address echo_key.
Definition receiver_wallet : Wallet := mkWallet receiver_address echo_key.
Definition gas_station_wallet : Wallet := mkWallet gas_station_address echo_key.

Definition example_receipt : Receipt := mkReceipt 100 60000.

Definition example_world : World :=
  mkWorld 1500 1500 (lit "USDC") (lit "2") 11155111
    (hexlify (repeat x33 32))
    (fun _ _ => false) (fun _ => 1000000000%Z) (repeat x44 32)
    (fun _ => Return 50000%Z) (fun _ => Return (hexlify (repeat x55 32)))
    (fun _ => Return example_receipt).

(** The same world with every nonce reported used. *)
Definition used_world : World :=
  mkWorld 1500 1500 (lit "USDC") (lit "2") 11155111
    (hexlify (repeat x33 32))
    (fun _ _ => true) (fun _ => 1000000000%Z) (repeat x44 32)
    (fun _ => Return 50000%Z) (fun _ => Return (hexlify (repeat x55 32)))
    (fun _ => Return example_receipt).

(** An authorization valid from 1000 to 2000. *)
Definition example_authorization (to : str) : Authorization :=
  mkAuthorization payer_address to 50000000 1000 2000 (repeat x44 32)
    (hexlify (repeat x11 32 ++ repeat x22 32 ++ [x1b])).

(** The same authorization, valid from 2000 to 3000 only. *)
Definition pending_authorization (to : str) : Authorization :=
  mkAuthorization payer_address to 50000000 2000 3000 (repeat x44 32)
    (hexlify (repeat x11 32 ++ repeat x22 32 ++ [x1b])).

Definition example_signature : Signature :=
  mkSignature (repeat x11 32) (repeat x22 32) 27.

Definition example_digest : bytes := repeat x66 32.

Definition example_digest_authorization : DigestAuthorization :=
  mkDigestAuthorization payer_address receiver_address 3000000 0 2000
    (repeat x44 32) (hexlify example_digest) (hexlify (repeat x33 32))
    (hexlify (repeat x77 32)) None.

(* ================================================================= *)
(** ** Classification of a run of an execution helper

    The helpers have no classification value of their own: they submit
    the contract call or throw one of four errors.  [classify] reads the
    specification's five classes off a run that started with an empty
    trace. *)

Inductive Classification :=
| PENDING
| EXECUTABLE
| EXPIRED
| CONSUMED
| UNAUTHORIZED_SUBMITTER.

Definition classify (run : Result Receipt * Trace) : option Classification :=
  if submitted (snd run) then Some EXECUTABLE
  else
    match fst run with
    | Throw m =>
        if str_eqb m not_yet_valid then Some PENDING
        else if str_eqb m has_expired then Some EXPIRED
        else if str_eqb m already_used then Some CONSUMED
        else if startsWith (lit "Authorization 'to' address ") m
             then Some UNAUTHORIZED_SUBMITTER
        else None
    | Return _ => None
    end.

(** Whether a run threw. *)
Definition threw {A : Type} (run : Result A * Trace) : Prop :=
  exists m, fst run = Throw m.

(** Case-insensitive equality of two address texts, as the receive
    helper tests it. *)
Definition same_address (a b : str) : Prop := toLowerCase a = toLowerCase b.

Definition is_estimate (e : Event) : bool :=
  match e with EvEstimateGas _ => true | _ => false end.

(** The tail of both helpers: the contract call is sent and awaited. *)
Definition send_and_wait (c : ContractCall) : M Receipt :=
  bind (request (EvSend c) (fun w => sendTransaction w c))
       (fun tx => bind (request (EvWait tx) (fun w => waitForReceipt w tx)) ret).

(** The class of a run that has passed (or has no) recipient check:
    the clock against the window, then the nonce state. *)
Definition window_class (a : Authorization) (w : World) : Classification :=
  if (Date_now_seconds w <? auth_validAfter a)%Z then PENDING
  else if (Date_now_seconds w >? auth_validBefore a)%Z then EXPIRED
  else if authorizationState w (auth_from a) (auth_nonce a) then CONSUMED
  else EXECUTABLE.

(** The receiver's address in lower case: the same account, another
    spelling. *)
Definition receiver_address_lower : str := toLowerCase receiver_address.

Definition example_receiver : RunReceiveExample.FiatTokenReceiver :=
  RunReceiveExample.mkReceiver usdc_address receiver_wallet.

Definition example_sender : RunTransferExample.FiatTokenSender :=
  RunTransferExample.mkSender usdc_address gas_station_wallet.

Definition example_executor : WorkingTransferExample.WorkingFiatTokenSender :=
  WorkingTransferExample.mkSender usdc_address gas_station_wallet.

(** The bytes of the example accounts. *)
Definition bytes_of_hex (s : str) : bytes :=
  match hexToBytes s with
  | Some b => b
  | None => []
  end.

Definition payer_bytes : bytes := bytes_of_hex payer_address.
Definition receiver_bytes : bytes := bytes_of_hex receiver_address.

(** The field list with [from] and [to] exchanged. *)
Definition swapped_fields : list Field :=
  [mkField (lit "to") T_address; mkField (lit "from") T_address;
   mkField (lit "value") T_uint256; mkField (lit "validAfter") T_uint256;
   mkField (lit "validBefore") T_uint256; mkField (lit "nonce") T_bytes32].

(** The base units denoted by a whole part and at most six decimal
    digits, as arithmetic on their values. *)
Definition base_units (whole frac : str) : Z :=
  (digits_value whole * 10 ^ 6 +
   digits_value frac * 10 ^ (6 - Z.of_nat (length frac)))%Z.

Definition all_digits (s : str) : bool := forallb is_digit s.

(* ================================================================= *)
(** ** Further functions of the examples *)

From Stdlib Require DecimalFacts DecimalPos.

(** [getBalance(address)] of every sender and receiver class: the
    balance read from the contract, printed at six decimals. *)
Definition getBalance (address : str) : M str :=
  balance <- ask (EvBalanceOf address) (fun w => balanceOf w address) ;;
  ret (formatUnits balance 6).

(** examples/run-transfer-example.js: an authorization that becomes
    valid at [executeAfter] and stays valid for 24 hours. *)
Definition createScheduledTransferAuthorization (holderSigner : Wallet)
    (recipientAddress amount contractAddress : str) (executeAfter : Z)
  : M Authorization :=
  name <- ask EvName contract_name ;;
  chainId <- ask EvGetNetwork network_chainId ;;
  let holderAddress := wallet_address holderSigner in
  let domain := mkDomain name (lit "2") chainId contractAddress in
  nonce <- ask EvRandomBytes randomBytes32 ;;
  let validAfter := executeAfter in
  let validBefore := (executeAfter + 24 * 60 * 60)%Z in
  value <- lift (parseUnits amount 6) ;;
  signature <- lift (signTypedData holderSigner domain
                       (lit "TransferWithAuthorization") authorization_fields
                       (message_values holderAddress recipientAddress value
                                       validAfter validBefore nonce)) ;;
  ret (mkAuthorization holderAddress recipientAddress value validAfter
                       validBefore nonce signature).

(** examples/run-receive-example.js: the payer's authorization for a
    pull payment, signed as [ReceiveWithAuthorization]. *)
Definition createPaymentAuthorization (payerSigner : Wallet)
    (receiverAddress amount contractAddress : str) : M Authorization :=
  name <- ask EvName contract_name ;;
  chainId <- ask EvGetNetwork network_chainId ;;
  let payerAddress := wallet_address payerSigner in
  let domain := mkDomain name (lit "2") chainId contractAddress in
  nonce <- ask EvRandomBytes randomBytes32 ;;
  let validAfter := 0%Z in
  now <- ask EvDateNow Date_now_seconds ;;
  let validBefore := (now + 24 * 60 * 60)%Z in
  value <- lift (parseUnits amount 6) ;;
  signature <- lift (signTypedData payerSigner domain
                       (lit "ReceiveWithAuthorization") authorization_fields
                       (message_values payerAddress receiverAddress value
                                       validAfter validBefore nonce)) ;;
  ret (mkAuthorization payerAddress receiverAddress value validAfter
                       validBefore nonce signature).

(** examples/fixed-transfer-example.js: the window ends 24 hours after
    the latest block, not after the local clock. *)
Definition createFixedTransferAuthorization (holderSigner : Wallet)
    (recipientAddress amount contractAddress : str) : M Authorization :=
  name <- ask EvName contract_name ;;
  chainId <- ask EvGetNetwork network_chainId ;;
  let holderAddress := wallet_address holderSigner in
  blockTimestamp <- ask EvGetBlock latest_block_timestamp ;;
  let domain := mkDomain name (lit "2") chainId contractAddress in
  nonce <- ask EvRandomBytes randomBytes32 ;;
  let validAfter := 0%Z in
  let validBefore := (blockTimestamp + 24 * 60 * 60)%Z in
  value <- lift (parseUnits amount 6) ;;
  signature <- lift (signTypedData holderSigner domain
                       (lit "TransferWithAuthorization") authorization_fields
                       (message_values holderAddress recipientAddress value
                                       validAfter validBefore nonce)) ;;
  ret (mkAuthorization holderAddress recipientAddress value validAfter
                       validBefore nonce signature).

(** [executeReceive] and [executeTransfer] of the digest-based examples:
    the contract call goes out at once, with a fixed gas limit; a failure
    is logged and thrown again.  An authorization without signature
    cannot be encoded as a call. *)
Definition executeDigestAuthorization (m : Method)
    (authorization : DigestAuthorization) : M Receipt :=
  try_catch
    (match da_signature authorization with
     | None => throw (lit "invalid BytesLike value")
     | Some signature =>
         let c := mkCall m (da_from authorization) (da_to authorization)
                    (da_value authorization) (da_validAfter authorization)
                    (da_validBefore authorization) (da_nonce authorization)
                    signature (Some 100000%Z) in
         tx <- request (EvSend c) (fun w => sendTransaction w c) ;;
         receipt <- request (EvWait tx) (fun w => waitForReceipt w tx) ;;
         ret receipt
     end)
    (fun error => throw error).

Definition executeReceive := executeDigestAuthorization receiveWithAuthorization_method.

Definition executeTransfer := executeDigestAuthorization transferWithAuthorization_method.

(** The domain separator of the example world's token on the example
    chain. *)
Definition example_domain : Domain :=
  mkDomain (lit "USDC") (lit "2") 11155111 usdc_address.

Definition example_domain_separator : bytes :=
  match hashDomain example_domain with
  | Some ds => ds
  | None => []
  end.

(** A signature text of the right length whose last two characters are
    no hexadecimal digits. *)
Definition malformed_v_signature : str :=
  lit "0x" ++ hex_body (repeat x11 32) ++ hex_body (repeat x22 32) ++ lit "zz".

(** What a typed-data creator needs in order to return: a domain that
    hashes to [ds], two 20-byte addresses and a 32-byte nonce from the
    random source. *)
Record creation_ready (w : World) (holder recipient contractAddress : str)
    (ds fb tb : bytes) : Prop := {
  ready_domain :
    hashDomain (mkDomain (contract_name w) (lit "2") (network_chainId w) contractAddress)
    = Some ds;
  ready_holder : hexToBytes holder = Some fb;
  ready_holder_length : length fb = 20;
  ready_recipient : hexToBytes recipient = Some tb;
  ready_recipient_length : length tb = 20;
  ready_nonce : length (randomBytes32 w) = 32
}.

(** The type hash that [signTypedData] derives from a primary type and
    the six fields of the examples' types object. *)
Definition typed_typeHash (name : str) : bytes :=
  keccak256 (utf8ToBytes (encodeType name authorization_fields)).

(** The requests of a creator that reads the token name, the network,
    the random source and the clock. *)
Definition creation_requests : Trace := [EvName; EvGetNetwork; EvRandomBytes; EvDateNow].

(** The three requests that [executeTransferWithAuth] makes before it
    turns to the contract call. *)
Definition preflight_requests (a : Authorization) : Trace :=
  [EvGetBlock; EvAuthorizationState (auth_from a) (auth_nonce a);
   EvBalanceOf (auth_from a)].

(** Its pre-flight conditions: the block time is at most 60 seconds
    before the window and not after it, the nonce is unused and the
    balance covers the value. *)
Definition preflight_passes (a : Authorization) (w : World) : Prop :=
  (auth_validAfter a - 60 <= latest_block_timestamp w <= auth_validBefore a)%Z /\
  authorizationState w (auth_from a) (auth_nonce a) = false /\
  (auth_value a <= balanceOf w (auth_from a))%Z.

(** A world in which the gas estimate of every call fails. *)
Definition failing_estimate_world (message : str) : World :=
  mkWorld 1500 1500 (lit "USDC") (lit "2") 11155111
    (hexlify (repeat x33 32))
    (fun _ _ => false) (fun _ => 1000000000%Z) (repeat x44 32)
    (fun _ => Throw message) (fun _ => Return (hexlify (repeat x55 32)))
    (fun _ => Return example_receipt).

(** A world in which the payer holds less than the example value. *)
Definition poor_world : World :=
  mkWorld 1500 1500 (lit "USDC") (lit "2") 11155111
    (hexlify (repeat x33 32))
    (fun _ _ => false) (fun _ => 1000000%Z) (repeat x44 32)
    (fun _ => Return 50000%Z) (fun _ => Return (hexlify (repeat x55 32)))
    (fun _ => Return example_receipt).

(** The extra request of the error handler of [executeTransferWithAuth]:
    the domain separator is read when the message mentions an invalid
    signature. *)
Definition diagnosis_requests (error : str) : Trace :=
  if includes (lit "invalid signature") error then [EvDomainSeparator] else [].

(** An authorization whose window, 100 to 1000, has passed in the
    example worlds. *)
Definition expired_authorization (to : str) : Authorization :=
  mkAuthorization payer_address to 50000000 100 1000 (repeat x44 32)
    (hexlify (repeat x11 32 ++ repeat x22 32 ++ [x1b])).

(** The requests of a clock-based helper up to the contract call. *)
Definition check_requests (a : Authorization) : Trace :=
  [EvDateNow; EvAuthorizationState (auth_from a) (auth_nonce a)].

(** A world in which every submission is reverted with [message]. *)
Definition reverting_world (message : str) : World :=
  mkWorld 1500 1500 (lit "USDC") (lit "2") 11155111
    (hexlify (repeat x33 32))
    (fun _ _ => false) (fun _ => 1000000000%Z) (repeat x44 32)
    (fun _ => Return 50000%Z) (fun _ => Throw message)
    (fun _ => Return example_receipt).

(** The characters of a decimal amount: digits, the point and the minus
    sign. *)
Definition amount_char (c : ascii) : bool :=
  is_digit c || Ascii.eqb c "."%char || Ascii.eqb c "-"%char.

Definition invalid_amount : str := lit "invalid FixedNumber string value".

Definition too_many_decimals : str := lit "too many decimals for format".

(** The sender of the example token for the payer, on the example
    network. *)
Definition example_authorization_sender : AuthorizationSender.Sender :=
  AuthorizationSender.mkSender usdc_address payer_wallet (lit "sepolia").

(* ================================================================= *)
(** * Properties *)

(** ** Hexadecimal text *)

Lemma unhex_hex_of_byte (b : byte) (s : str) :
  unhex_body (hex_of_byte b ++ s) =
  match unhex_body s with Some bs => Some (b :: bs) | None => None end.
Proof.
  destruct b; cbn [hex_of_byte app]; cbv [unhex_body]; fold unhex_body; reflexivity.
Qed.

Lemma unhex_hex_body (bs : bytes) : unhex_body (hex_body bs) = Some bs.
Proof.
  induction bs as [|b bs IH]; [reflexivity|].
  change (hex_body (b :: bs)) with (hex_of_byte b ++ hex_body bs).
  now rewrite unhex_hex_of_byte, IH.
Qed.

Lemma hex_body_app (a b : bytes) : hex_body (a ++ b) = hex_body a ++ hex_body b.
Proof. unfold hex_body. apply flat_map_app. Qed.

Lemma hex_body_length (bs : bytes) : length (hex_body bs) = 2 * length bs.
Proof.
  induction bs as [|b bs IH]; [reflexivity|].
  change (hex_body (b :: bs)) with (hex_of_byte b ++ hex_body bs).
  rewrite length_app, IH. cbn [hex_of_byte length]. lia.
Qed.

Lemma hex_of_byte_digits (b : byte) : forallb is_hexdigit (hex_of_byte b) = true.
Proof. destruct b; reflexivity. Qed.

Lemma hex_body_digits (bs : bytes) : forallb is_hexdigit (hex_body bs) = true.
Proof.
  induction bs as [|b bs IH]; [reflexivity|].
  change (hex_body (b :: bs)) with (hex_of_byte b ++ hex_body bs).
  now rewrite forallb_app, hex_of_byte_digits, IH.
Qed.

Lemma even_double (n : nat) : Nat.even (2 * n) = true.
Proof. rewrite Nat.even_mul. reflexivity. Qed.

Lemma hexToBytes_hexlify (bs : bytes) : hexToBytes (hexlify bs) = Some bs.
Proof.
  unfold hexToBytes, isHexStrict, hexlify.
  change (lit "0x" ++ hex_body bs) with ("0"%char :: "x"%char :: hex_body bs).
  cbn [skipn]. change (startsWith (lit "0x") ("0"%char :: "x"%char :: hex_body bs)) with true.
  cbn [andb]. rewrite hex_body_digits, hex_body_length, even_double.
  apply unhex_hex_body.
Qed.

Lemma strip0x_hexlify (bs : bytes) : strip0x (hexlify bs) = hex_body bs.
Proof. reflexivity. Qed.

Lemma remove_first_hexlify (bs : bytes) :
  remove_first (lit "0x") (hexlify bs) = hex_body bs.
Proof.
  unfold hexlify.
  change (lit "0x" ++ hex_body bs) with ("0"%char :: "x"%char :: hex_body bs).
  reflexivity.
Qed.

Lemma web3_keccak256_hexlify (bs : bytes) :
  web3_keccak256 (hexlify bs) = hexlify (keccak256 bs).
Proof. unfold web3_keccak256. now rewrite hexToBytes_hexlify. Qed.

(** The string handed to the outer hash is the hexadecimal text of
    [0x19 0x01], the domain separator and the struct hash. *)
Lemma prefixed_hex (a b : bytes) :
  lit "0x1901" ++ hex_body a ++ hex_body b = hexlify ([x19; x01] ++ a ++ b).
Proof.
  unfold hexlify. rewrite !hex_body_app. reflexivity.
Qed.

Example keccak256_empty :
  hexlify (keccak256 []) =
  lit "0xc5d2460186f7233c927e7db2dcc703c0e500b653ca82273b7bfad8045d85a470".
Proof. vm_compute. reflexivity. Qed.

Lemma web3_keccak256_text (s : str) :
  startsWith (lit "0x") s = false ->
  web3_keccak256 s = hexlify (keccak256 (utf8ToBytes s)).
Proof.
  intros H. unfold web3_keccak256, hexToBytes, isHexStrict. now rewrite H.
Qed.

(** ** The hash has 32 bytes *)

Lemma round_length (A : list N) (rc : N) : length (Keccak.round A rc) = 25.
Proof. reflexivity. Qed.

Lemma permute_length (A : list N) : length (Keccak.permute A) = 25.
Proof.
  unfold Keccak.permute, Keccak.round_constants.
  cbn [fold_left]. apply round_length.
Qed.

Lemma absorb_length (fuel : nat) :
  forall (A : list N) (bs : bytes),
    length A = 25 -> length (Keccak.absorb fuel A bs) = 25.
Proof.
  induction fuel as [|fuel IH]; intros A bs HA; cbn [Keccak.absorb]; [exact HA|].
  destruct bs as [|b bs]; [exact HA|].
  apply IH, permute_length.
Qed.

Lemma bytes_of_lane_length (k : nat) : forall w, length (Keccak.bytes_of_lane k w) = k.
Proof. induction k as [|k IH]; intros w; cbn; [reflexivity|now rewrite IH]. Qed.

Lemma keccak256_length (bs : bytes) : length (keccak256 bs) = 32.
Proof.
  unfold keccak256, Keccak.keccak256.
  pose proof (absorb_length (length (Keccak.pad bs)) (repeat 0%N 25) (Keccak.pad bs) eq_refl) as H.
  destruct (Keccak.absorb _ _ _) as [|a0 [|a1 [|a2 [|a3 A]]]]; try discriminate H.
  cbn [firstn flat_map]. rewrite !length_app, !bytes_of_lane_length. reflexivity.
Qed.

(** ** Big-endian words *)

Lemma be_bytes_length (k : nat) : forall n, length (be_bytes k n) = k.
Proof.
  induction k as [|k IH]; intros n; cbn [be_bytes]; [reflexivity|].
  rewrite length_app, IH. cbn. lia.
Qed.

Lemma Z_of_byte_of_Z (z : Z) : Z_of_byte (byte_of_Z z) = (z mod 256)%Z.
Proof.
  unfold Z_of_byte, byte_of_Z, byte_of_N.
  assert (Hr : (0 <= z mod 256 < 256)%Z) by (apply Z.mod_pos_bound; lia).
  set (m := Z.to_N (z mod 256)).
  assert (Hm : (m < 256)%N) by (subst m; lia).
  rewrite (N.mod_small m 256 Hm).
  destruct (Byte.of_N m) as [b|] eqn:E.
  - apply Byte.to_of_N in E. rewrite E. subst m. lia.
  - apply Byte.of_N_None_iff in E. lia.
Qed.

Lemma be_value_app (a b : bytes) :
  be_value (a ++ b) =
  fold_left (fun acc c => 256 * acc + Z_of_byte c)%Z b (be_value a).
Proof. unfold be_value. apply fold_left_app. Qed.

(** Reading back the [k] bytes of [n] gives [n] modulo [256 ^ k]: the
    encoding of an integer in range is exact. *)
Lemma be_value_be_bytes (k : nat) :
  forall n, be_value (be_bytes k n) = (n mod 256 ^ Z.of_nat k)%Z.
Proof.
  induction k as [|k IH]; intros n.
  - cbn. now rewrite Z.mod_1_r.
  - cbn [be_bytes]. rewrite be_value_app, IH. cbn [fold_left].
    rewrite Z_of_byte_of_Z.
    replace (Z.of_nat (S k)) with (Z.of_nat k + 1)%Z by lia.
    rewrite Z.pow_add_r, Z.pow_1_r by lia.
    rewrite (Z.mul_comm (256 ^ Z.of_nat k) 256).
    rewrite Z.rem_mul_r by lia. lia.
Qed.

Lemma abi_uint256_exact (n : Z) :
  Spec.uint256_range n ->
  length (Spec.abi_uint256 n) = 32 /\ be_value (Spec.abi_uint256 n) = n.
Proof.
  intros H. unfold Spec.abi_uint256. split; [apply be_bytes_length|].
  rewrite be_value_be_bytes. apply Z.mod_small.
  unfold Spec.uint256_range in H. change (256 ^ Z.of_nat 32)%Z with (2 ^ 256)%Z. exact H.
Qed.

(** ** The digest that gets signed *)

Lemma encode_bytes32 (v : js_value) (b : bytes) :
  js_bytes v = Some b -> length b = 32 -> encode_word T_bytes32 v = Some b.
Proof.
  intros Hv Hl. unfold encode_word. rewrite Hv, Hl. cbn. now rewrite app_nil_r.
Qed.

Lemma encode_address (v : js_value) (a : bytes) :
  js_bytes v = Some a -> length a = 20 ->
  encode_word T_address v = Some (Spec.abi_address a).
Proof. intros Hv Hl. unfold encode_word. now rewrite Hv, Hl. Qed.

Lemma encode_uint256 (n : Z) :
  Spec.uint256_range n -> encode_word T_uint256 (JNum n) = Some (Spec.abi_uint256 n).
Proof.
  intros [H0 H1]. unfold encode_word.
  apply Z.leb_le in H0. apply Z.ltb_lt in H1. now rewrite H0, H1.
Qed.

Lemma encode_authorization_words
    (th fb tb nb : bytes) (from to : str) (nonce : js_value)
    (value validAfter validBefore : Z) :
  length th = 32 ->
  hexToBytes from = Some fb -> length fb = 20 ->
  hexToBytes to = Some tb -> length tb = 20 ->
  js_bytes nonce = Some nb -> length nb = 32 ->
  Spec.uint256_range value -> Spec.uint256_range validAfter ->
  Spec.uint256_range validBefore ->
  encode_words
    [T_bytes32; T_address; T_address; T_uint256; T_uint256; T_uint256; T_bytes32]
    [JStr (hexlify th); JStr from; JStr to; JNum value; JNum validAfter;
     JNum validBefore; nonce] =
  Some (th ++ Spec.abi_address fb ++ Spec.abi_address tb ++
        Spec.abi_uint256 value ++ Spec.abi_uint256 validAfter ++
        Spec.abi_uint256 validBefore ++ nb).
Proof.
  intros Hth Hf Hfl Ht Htl Hn Hnl Hv Hva Hvb.
  cbn [encode_words].
  rewrite (@encode_bytes32 (JStr (hexlify th)) th (hexToBytes_hexlify th) Hth).
  rewrite (@encode_address (JStr from) fb Hf Hfl).
  rewrite (@encode_address (JStr to) tb Ht Htl).
  rewrite !encode_uint256 by assumption.
  rewrite (@encode_bytes32 nonce nb Hn Hnl).
  now rewrite app_nil_r.
Qed.

Lemma transfer_typehash_text :
  transferWithAuthorizationTypeHash = hexlify Spec.transfer_typeHash.
Proof. apply web3_keccak256_text. reflexivity. Qed.

Lemma receive_typehash_text :
  RECEIVE_WITH_AUTHORIZATION_TYPEHASH = hexlify Spec.receive_typeHash.
Proof. apply web3_keccak256_text. reflexivity. Qed.

Lemma ecSign_hexlify (d : bytes) (key : SigningKey) :
  ecSign (hexlify d) key = Some (key d).
Proof.
  unfold ecSign, getBytes. rewrite hexToBytes_hexlify. now destruct (key d).
Qed.

Lemma signTransferAuthorization_digest
    (privateKey : SigningKey) (ds fb tb nb : bytes) (from to : str)
    (value validAfter validBefore : Z) :
  hexToBytes from = Some fb -> length fb = 20 ->
  hexToBytes to = Some tb -> length tb = 20 ->
  length nb = 32 ->
  Spec.uint256_range value -> Spec.uint256_range validAfter ->
  Spec.uint256_range validBefore ->
  signTransferAuthorization from to value validAfter validBefore
    (hexlify nb) (hexlify ds) privateKey =
  Some (privateKey
          (Spec.digest ds Spec.transfer_typeHash fb tb value validAfter validBefore nb)).
Proof.
  intros Hf Hfl Ht Htl Hnl Hv Hva Hvb.
  unfold signTransferAuthorization, signEIP712, encodeParameters.
  rewrite transfer_typehash_text.
  rewrite (@encode_authorization_words Spec.transfer_typeHash fb tb nb from to
             (JStr (hexlify nb)) value validAfter validBefore); try assumption.
  - cbn [option_map].
    rewrite web3_keccak256_hexlify, !strip0x_hexlify, prefixed_hex,
      web3_keccak256_hexlify.
    apply ecSign_hexlify.
  - apply keccak256_length.
  - apply hexToBytes_hexlify.
Qed.

Lemma createDigestAuthorization_digest
    (th ds fb tb : bytes) (from to amount : str)
    (value validAfter validBefore : Z) (w : World) (tr : Trace) :
  length th = 32 ->
  hexToBytes from = Some fb -> length fb = 20 ->
  hexToBytes to = Some tb -> length tb = 20 ->
  length (randomBytes32 w) = 32 ->
  parseUnits amount 6 = Return value ->
  Spec.uint256_range value -> Spec.uint256_range validAfter ->
  Spec.uint256_range validBefore -> validBefore <> 0%Z ->
  DOMAIN_SEPARATOR w = hexlify ds ->
  exists a tr',
    createDigestAuthorization (hexlify th) from to amount validAfter
      (Some validBefore) w tr = (Return a, tr') /\
    da_structHash a =
      hexlify (Spec.structHash th fb tb value validAfter validBefore (randomBytes32 w)) /\
    da_digest a =
      hexlify (Spec.digest ds th fb tb value validAfter validBefore (randomBytes32 w)).
Proof.
  intros Hth Hf Hfl Ht Htl Hnl Hp Hv Hva Hvb Hnz Hds.
  unfold createDigestAuthorization, bind, ask, request, lift, ret.
  apply Z.eqb_neq in Hnz. rewrite Hnz, Hp, Hds.
  unfold encodeParameters.
  rewrite (@encode_authorization_words th fb tb (randomBytes32 w) from to
             (JBytes (randomBytes32 w)) value validAfter validBefore);
    try assumption; try reflexivity.
  cbn [option_map].
  rewrite web3_keccak256_hexlify, !remove_first_hexlify, prefixed_hex,
    web3_keccak256_hexlify.
  eexists _, _. split; [reflexivity|]. split; reflexivity.
Qed.


(** ** The type hashes *)

Lemma transfer_typehash_value :
  TRANSFER_WITH_AUTHORIZATION_TYPEHASH = published_transfer_typehash.
Proof. vm_compute. reflexivity. Qed.

Lemma receive_typehash_value :
  RECEIVE_WITH_AUTHORIZATION_TYPEHASH = published_receive_typehash.
Proof. vm_compute. reflexivity. Qed.

Lemma encodeType_transfer :
  encodeType (lit "TransferWithAuthorization") authorization_fields =
  lit transfer_type_string.
Proof. reflexivity. Qed.

Lemma encodeType_receive :
  encodeType (lit "ReceiveWithAuthorization") authorization_fields =
  lit receive_type_string.
Proof. reflexivity. Qed.

Lemma str_eqb_true (a b : str) : str_eqb a b = true <-> a = b.
Proof. unfold str_eqb. destruct (list_eq_dec ascii_dec a b); split; congruence. Qed.

Lemma str_eqb_false (a b : str) : str_eqb a b = false <-> a <> b.
Proof. unfold str_eqb. destruct (list_eq_dec ascii_dec a b); split; congruence. Qed.

Lemma field_eqb_eq (f g : Field) : field_eqb f g = true -> f = g.
Proof.
  destruct f as [n t], g as [m u]. unfold field_eqb. cbn.
  intros H. apply andb_true_iff in H as [Hn Ht].
  apply str_eqb_true in Hn. subst m.
  destruct t, u; try discriminate Ht; reflexivity.
Qed.

Lemma fields_eqb_eq (l : list Field) : forall m, fields_eqb l m = true -> l = m.
Proof.
  induction l as [|f l IH]; intros [|g m] H; try discriminate H; [reflexivity|].
  cbn in H. apply andb_true_iff in H as [Hf Hl].
  apply field_eqb_eq in Hf. apply IH in Hl. congruence.
Qed.

Section OrderingsComplete.
Context {A : Type}.

Lemma insert_all_spec (x : A) (l1 l2 : list A) :
  In (l1 ++ x :: l2) (insert_all x (l1 ++ l2)).
Proof.
  induction l1 as [|y l1 IH]; cbn.
  - destruct l2; cbn; auto.
  - right. apply in_map. exact IH.
Qed.

(** Every permutation of a list is among its orderings. *)
Lemma orderings_complete (l : list A) :
  forall l', Permutation l l' -> In l' (orderings l).
Proof.
  induction l as [|x l IH]; intros l' HP.
  - apply Permutation_nil in HP. subst. now left.
  - assert (Hin : In x l') by (eapply Permutation_in; [exact HP|now left]).
    apply in_split in Hin as (l1 & l2 & ->).
    apply Permutation_cons_app_inv in HP.
    cbn [orderings]. apply in_flat_map.
    exists (l1 ++ l2). split; [now apply IH|apply insert_all_spec].
Qed.
End OrderingsComplete.

Lemma insert_at_beyond (c : ascii) (s : str) (i : nat) :
  length s <= i -> insert_at i c s = insert_at (length s) c s.
Proof.
  intros H. unfold insert_at.
  now rewrite (firstn_all2 s H), (skipn_all2 s H), firstn_all, skipn_all.
Qed.

Lemma all_reorderings_detected :
  forallb reordering_detected (orderings authorization_fields) = true.
Proof. vm_cast_no_check (eq_refl true). Qed.

Lemma all_whitespace_detected :
  forallb (fun c => forallb (whitespace_detected c)
                            (seq 0 (S (length (lit transfer_type_string)))))
          whitespace_chars = true.
Proof. vm_cast_no_check (eq_refl true). Qed.

Lemma whitespace_chars_complete (c : ascii) :
  is_whitespace c = true -> In c whitespace_chars.
Proof.
  destruct c as [[] [] [] [] [] [] [] []]; cbn; intros H;
    try discriminate H; tauto.
Qed.

Lemma detected_neq (h : str) :
  negb (str_eqb h published_transfer_typehash) = true ->
  h <> published_transfer_typehash.
Proof. intros H. now apply negb_true_iff, str_eqb_false in H. Qed.

Lemma reordering_detected_neq (fields : list Field) :
  reordering_detected fields = true ->
  fields <> authorization_fields ->
  web3_keccak256 (encodeType (lit "TransferWithAuthorization") fields) <>
  published_transfer_typehash.
Proof.
  unfold reordering_detected. intros H Hne.
  apply orb_true_iff in H as [Heq|Hd].
  - apply fields_eqb_eq in Heq. contradiction.
  - now apply detected_neq.
Qed.

Lemma reordered_fields_change_hash (fields : list Field) :
  Permutation authorization_fields fields ->
  fields <> authorization_fields ->
  web3_keccak256 (encodeType (lit "TransferWithAuthorization") fields) <>
  published_transfer_typehash.
Proof.
  intros HP. apply reordering_detected_neq.
  pose proof all_reorderings_detected as Hall.
  rewrite forallb_forall in Hall.
  apply Hall, orderings_complete, HP.
Qed.

Lemma whitespace_detected_neq (c : ascii) (i : nat) :
  whitespace_detected c i = true ->
  web3_keccak256 (insert_at i c (lit transfer_type_string)) <>
  published_transfer_typehash.
Proof. unfold whitespace_detected. apply detected_neq. Qed.

Lemma whitespace_detected_everywhere (c : ascii) (i : nat) :
  is_whitespace c = true -> i <= length (lit transfer_type_string) ->
  whitespace_detected c i = true.
Proof.
  intros Hc Hi.
  pose proof all_whitespace_detected as Hall.
  rewrite forallb_forall in Hall.
  specialize (Hall c (whitespace_chars_complete c Hc)).
  rewrite forallb_forall in Hall.
  apply Hall, in_seq. lia.
Qed.

Lemma added_whitespace_changes_hash (c : ascii) (i : nat) :
  is_whitespace c = true ->
  web3_keccak256 (insert_at i c (lit transfer_type_string)) <>
  published_transfer_typehash.
Proof.
  intros Hc.
  destruct (Nat.le_gt_cases (length (lit transfer_type_string)) i) as [Hbig|Hsmall].
  - rewrite (insert_at_beyond c (lit transfer_type_string) Hbig).
    apply whitespace_detected_neq, whitespace_detected_everywhere; [exact Hc|].
    apply Nat.le_refl.
  - apply whitespace_detected_neq, whitespace_detected_everywhere; [exact Hc|].
    apply Nat.lt_le_incl, Hsmall.
Qed.

(** C4. The TRANSFER type hash, keccak256 of the literal type string,
    equals the published constant of [TransferWithAuthorization]; the
    type string with its six fields in any other order, or with a
    white-space character added at any position, hashes to a different
    value. *)
Theorem transfer_typehash_is_published_constant :
  TRANSFER_WITH_AUTHORIZATION_TYPEHASH = published_transfer_typehash /\
  transferWithAuthorizationTypeHash = published_transfer_typehash /\
  (forall fields : list Field,
      Permutation authorization_fields fields ->
      fields <> authorization_fields ->
      web3_keccak256 (encodeType (lit "TransferWithAuthorization") fields) <>
      published_transfer_typehash) /\
  (forall (c : ascii) (i : nat),
      is_whitespace c = true ->
      web3_keccak256 (insert_at i c (lit transfer_type_string)) <>
      published_transfer_typehash).
Proof.
  split; [exact transfer_typehash_value|].
  split; [exact transfer_typehash_value|].
  split; [exact reordered_fields_change_hash|exact added_whitespace_changes_hash].
Qed.

(** ** Signature normalization *)

Lemma firstn_app_exact {A : Type} (n : nat) (a b : list A) :
  length a = n -> firstn n (a ++ b) = a.
Proof.
  intros <-. rewrite firstn_app, Nat.sub_diag, firstn_all. cbn. apply app_nil_r.
Qed.

Lemma skipn_app_exact {A : Type} (n : nat) (a b : list A) :
  length a = n -> skipn n (a ++ b) = b.
Proof.
  intros <-. rewrite skipn_app, Nat.sub_diag, skipn_all. reflexivity.
Qed.

Lemma signature_slices (r s vv : str) :
  length r = 64 -> length s = 64 -> length vv = 2 ->
  let sig := lit "0x" ++ r ++ s ++ vv in
  length sig = 132 /\ slice 2 66 sig = r /\ slice 66 130 sig = s /\
  slice 130 132 sig = vv.
Proof.
  intros Hr Hs Hv sig. subst sig. unfold slice.
  change (lit "0x" ++ r ++ s ++ vv) with ("0"%char :: "x"%char :: r ++ s ++ vv).
  repeat split.
  - cbn [length]. rewrite !length_app. lia.
  - cbn [skipn Nat.sub]. now apply firstn_app_exact.
  - change (skipn 66 ("0"%char :: "x"%char :: r ++ s ++ vv))
      with (skipn 64 (r ++ s ++ vv)).
    rewrite (skipn_app_exact r (s ++ vv) Hr).
    now apply firstn_app_exact.
  - change (skipn 130 ("0"%char :: "x"%char :: r ++ s ++ vv))
      with (skipn (64 + 64) (r ++ s ++ vv)).
    rewrite <- skipn_skipn.
    rewrite (skipn_app_exact r (s ++ vv) Hr), (skipn_app_exact s vv Hs).
    apply firstn_all2. rewrite Hv. cbn. lia.
Qed.

Lemma formatSignatureForContract_text (r s vv : str) :
  length r = 64 -> length s = 64 -> length vv = 2 ->
  formatSignatureForContract (lit "0x" ++ r ++ s ++ vv) =
  Return (lit "0x" ++ r ++ s ++ normalized_v_text vv).
Proof.
  intros Hr Hs Hv.
  destruct (signature_slices r s vv Hr Hs Hv) as (Hl & H1 & H2 & H3).
  unfold formatSignatureForContract.
  rewrite Hl, H1, H2, H3. reflexivity.
Qed.

Lemma formatSignatureForECRecover_text (r s vv : str) :
  length r = 64 -> length s = 64 -> length vv = 2 ->
  formatSignatureForECRecover (lit "0x" ++ r ++ s ++ vv) =
  Return (lit "0x" ++ r ++ s ++ normalized_v_text vv).
Proof.
  intros Hr Hs Hv. unfold formatSignatureForECRecover.
  change (remove_first (lit "0x") (lit "0x" ++ r ++ s ++ vv)) with (r ++ s ++ vv).
  assert (Hl : length (r ++ s ++ vv) = 130) by (rewrite !length_app; lia).
  rewrite Hl. cbn [Nat.eqb negb]. unfold slice.
  change (64 - 0) with 64. change (128 - 64) with 64. change (130 - 128) with 2.
  change (skipn 0 (r ++ s ++ vv)) with (r ++ s ++ vv).
  rewrite (firstn_app_exact r (s ++ vv) Hr).
  rewrite (skipn_app_exact r (s ++ vv) Hr), (firstn_app_exact s vv Hs).
  change 128 with (64 + 64). rewrite <- skipn_skipn.
  rewrite (skipn_app_exact r (s ++ vv) Hr), (skipn_app_exact s vv Hs).
  rewrite (firstn_all2 vv) by (rewrite Hv; lia).
  reflexivity.
Qed.

Lemma normalized_v_text_byte (b : byte) :
  normalized_v_text (hex_of_byte b) = hex_of_byte (normalize_byte b).
Proof. destruct b; vm_compute; reflexivity. Qed.

Lemma normalize_byte_idempotent (b : byte) :
  normalize_byte (normalize_byte b) = normalize_byte b.
Proof. destruct b; vm_compute; reflexivity. Qed.

Lemma hexlify_signature (r s : bytes) (b : byte) :
  hexlify (r ++ s ++ [b]) = lit "0x" ++ hex_body r ++ hex_body s ++ hex_of_byte b.
Proof.
  unfold hexlify. rewrite !hex_body_app. cbn [hex_body flat_map].
  now rewrite app_nil_r.
Qed.

Lemma hex_of_byte_length (b : byte) : length (hex_of_byte b) = 2.
Proof. reflexivity. Qed.

(** On the text of 65 bytes both formatters rewrite the last byte only. *)
Lemma formatSignatureForContract_bytes (r s : bytes) (b : byte) :
  length r = 32 -> length s = 32 ->
  formatSignatureForContract (hexlify (r ++ s ++ [b])) =
  Return (hexlify (r ++ s ++ [normalize_byte b])).
Proof.
  intros Hr Hs. rewrite !hexlify_signature.
  rewrite formatSignatureForContract_text;
    rewrite ?hex_body_length, ?Hr, ?Hs; try reflexivity.
  now rewrite normalized_v_text_byte.
Qed.

Lemma formatSignatureForECRecover_bytes (r s : bytes) (b : byte) :
  length r = 32 -> length s = 32 ->
  formatSignatureForECRecover (hexlify (r ++ s ++ [b])) =
  Return (hexlify (r ++ s ++ [normalize_byte b])).
Proof.
  intros Hr Hs. rewrite !hexlify_signature.
  rewrite formatSignatureForECRecover_text;
    rewrite ?hex_body_length, ?Hr, ?Hs; try reflexivity.
  now rewrite normalized_v_text_byte.
Qed.

Lemma signature_bytes_split (sig : bytes) :
  length sig = 65 ->
  exists r s, sig = r ++ s ++ [nth 64 sig x00] /\ length r = 32 /\ length s = 32.
Proof.
  intros Hl.
  exists (firstn 32 sig), (firstn 32 (skipn 32 sig)).
  assert (Hlast : skipn 32 (skipn 32 sig) = [nth 64 sig x00]).
  { rewrite skipn_skipn. change (32 + 32) with 64.
    assert (Hlen : length (skipn 64 sig) = 1) by (rewrite length_skipn; lia).
    rewrite <- (firstn_skipn 64 sig) at 2.
    rewrite app_nth2 by (rewrite length_firstn; lia).
    rewrite length_firstn, Nat.min_l, Nat.sub_diag by lia.
    destruct (skipn 64 sig) as [|x [|y l]]; try discriminate Hlen. reflexivity. }
  split; [|split].
  - rewrite <- Hlast, firstn_skipn, firstn_skipn. reflexivity.
  - rewrite length_firstn. lia.
  - rewrite length_firstn, length_skipn. lia.
Qed.

Lemma is_hexdigit_in (c : ascii) : is_hexdigit c = true -> In c hex_chars.
Proof.
  destruct c as [[] [] [] [] [] [] [] []]; cbn; intros H;
    try discriminate H; tauto.
Qed.

Lemma all_v_text_stable :
  forallb (fun c => forallb (v_text_stable c) hex_chars) hex_chars = true.
Proof. vm_compute. reflexivity. Qed.

Lemma v_text_stable_hex (c d : ascii) :
  is_hexdigit c = true -> is_hexdigit d = true ->
  length (normalized_v_text [c; d]) = 2 /\
  normalized_v_text (normalized_v_text [c; d]) = normalized_v_text [c; d].
Proof.
  intros Hc Hd.
  pose proof all_v_text_stable as Hall.
  rewrite forallb_forall in Hall.
  specialize (Hall c (is_hexdigit_in c Hc)).
  rewrite forallb_forall in Hall.
  specialize (Hall d (is_hexdigit_in d Hd)).
  unfold v_text_stable in Hall.
  apply andb_true_iff in Hall as [Hall Hs].
  apply andb_true_iff in Hall as [Hl _].
  apply Nat.eqb_eq in Hl. apply str_eqb_true in Hs. now split.
Qed.

Lemma signature_text_split (sig : str) :
  valid_signature_text sig ->
  exists r s c d,
    sig = lit "0x" ++ r ++ s ++ [c; d] /\ length r = 64 /\ length s = 64 /\
    is_hexdigit c = true /\ is_hexdigit d = true.
Proof.
  intros (Hp & Hl & Hh).
  destruct sig as [|a [|b body]];
    [discriminate Hp
    |cbn in Hp; rewrite andb_false_r in Hp; discriminate Hp
    |].
  change (lit "0x") with ["0"%char; "x"%char] in Hp. cbn [startsWith] in Hp.
  apply andb_true_iff in Hp as [Ha Hb].
  apply andb_true_iff in Hb as [Hb _].
  apply Ascii.eqb_eq in Ha, Hb. subst a b.
  cbn [skipn] in Hh. cbn [length] in Hl.
  assert (Hbody : length body = 130) by lia.
  assert (Hrest : length (skipn 64 (skipn 64 body)) = 2)
    by (rewrite !length_skipn; lia).
  destruct (skipn 64 (skipn 64 body)) as [|c [|d [|e l]]] eqn:E;
    try discriminate Hrest.
  exists (firstn 64 body), (firstn 64 (skipn 64 body)), c, d.
  assert (Hsplit : body = firstn 64 body ++ firstn 64 (skipn 64 body) ++ [c; d])
    by (rewrite <- E, firstn_skipn, firstn_skipn; reflexivity).
  split; [|split; [|split]].
  - change (lit "0x" ++ ?x) with ("0"%char :: "x"%char :: x). now rewrite <- Hsplit.
  - rewrite length_firstn. lia.
  - rewrite length_firstn, length_skipn. lia.
  - rewrite Hsplit, !forallb_app in Hh.
    apply andb_true_iff in Hh as [_ Hh]. apply andb_true_iff in Hh as [_ Hh].
    cbn in Hh. apply andb_true_iff in Hh as [Hc Hd].
    apply andb_true_iff in Hd as [Hd _]. now split.
Qed.

(** C9. For every 65-byte signature whose last byte is already 27 or
    28, both formatters return their input unchanged; for every valid
    signature text, normalizing the result once more changes nothing. *)
Theorem normalization_idempotent :
  (forall sig : bytes,
      length sig = 65 ->
      nth 64 sig x00 = x1b \/ nth 64 sig x00 = x1c ->
      formatSignatureForContract (hexlify sig) = Return (hexlify sig) /\
      formatSignatureForECRecover (hexlify sig) = Return (hexlify sig)) /\
  (forall sig : str,
      valid_signature_text sig ->
      exists out,
        formatSignatureForContract sig = Return out /\
        formatSignatureForContract out = Return out /\
        formatSignatureForECRecover sig = Return out /\
        formatSignatureForECRecover out = Return out).
Proof.
  split.
  - intros sig Hl Hv.
    destruct (signature_bytes_split sig Hl) as (r & s & Hsig & Hr & Hs).
    set (v := nth 64 sig x00) in *.
    assert (Hn : normalize_byte v = v) by (destruct Hv as [-> | ->]; reflexivity).
    rewrite Hsig.
    rewrite formatSignatureForContract_bytes, formatSignatureForECRecover_bytes
      by assumption.
    now rewrite Hn.
  - intros sig Hvalid.
    destruct (signature_text_split Hvalid) as (r & s & c & d & -> & Hr & Hs & Hc & Hd).
    destruct (v_text_stable_hex c d Hc Hd) as [Hlen Hstable].
    exists (lit "0x" ++ r ++ s ++ normalized_v_text [c; d]).
    rewrite !formatSignatureForContract_text, !formatSignatureForECRecover_text
      by (assumption || reflexivity).
    now rewrite Hstable.
Qed.

(** The formatters bring a recovery byte of either convention to 27 or
    28 and emit 65 bytes. *)
Lemma formatters_emit_27_or_28 (r s : bytes) (v : byte) :
  length r = 32 -> length s = 32 ->
  In v [x00; x01; x1b; x1c] ->
  exists v', (v' = x1b \/ v' = x1c) /\
    length (r ++ s ++ [v']) = 65 /\
    formatSignatureForContract (hexlify (r ++ s ++ [v])) =
      Return (hexlify (r ++ s ++ [v'])) /\
    formatSignatureForECRecover (hexlify (r ++ s ++ [v])) =
      Return (hexlify (r ++ s ++ [v'])).
Proof.
  intros Hr Hs Hv. exists (normalize_byte v).
  rewrite formatSignatureForContract_bytes, formatSignatureForECRecover_bytes
    by assumption.
  rewrite !length_app, Hr, Hs.
  cbn in Hv. destruct Hv as [<- | [<- | [<- | [<- | []]]]]; cbn; tauto.
Qed.

Lemma toString16_small :
  toString16 0 = lit "0" /\ toString16 1 = lit "1".
Proof. split; reflexivity. Qed.

(** C3. [packSignature] writes r, s and then [v - 27]: for every
    signature whose [v] is 27 or 28 the 65 packed bytes end in 0 or 1,
    never in 27 or 28. *)
Theorem packSignature_ends_in_recovery_id (signature : Signature) :
  sig_v signature = 27%Z \/ sig_v signature = 28%Z ->
  exists b : byte,
    lit "0x" ++ packSignature signature =
      hexlify (sig_r signature ++ sig_s signature ++ [b]) /\
    (b = x00 \/ b = x01) /\ b <> x1b /\ b <> x1c.
Proof.
  intros Hv. unfold packSignature. rewrite !strip0x_hexlify.
  destruct Hv as [Hv | Hv]; rewrite Hv;
    [exists x00 | exists x01];
    (split; [rewrite hexlify_signature; reflexivity
            |split; [tauto | split; discriminate]]).
Qed.

Lemma packSignature_ends_in_recovery_id_witness :
  (sig_v example_signature = 27%Z \/ sig_v example_signature = 28%Z) /\
  exists b : byte,
    lit "0x" ++ packSignature example_signature =
      hexlify (sig_r example_signature ++ sig_s example_signature ++ [b]) /\
    (b = x00 \/ b = x01) /\ b <> x1b /\ b <> x1c.
Proof.
  split; [left; reflexivity|].
  apply (packSignature_ends_in_recovery_id example_signature). left. reflexivity.
Defined.

(** At the signature (r, s, 27) the packed text ends in the digits 00. *)
Lemma packSignature_example :
  lit "0x" ++ packSignature example_signature =
  hexlify (repeat x11 32 ++ repeat x22 32 ++ [x00]).
Proof. reflexivity. Qed.

(** ** What the digest-based examples sign *)

Lemma serialized_signature (sg : Signature) :
  serialized sg = hexlify (sig_r sg ++ sig_s sg ++ [byte_of_Z (sig_v sg)]).
Proof. reflexivity. Qed.

(** [signAuthorization] hands [hashMessage digest] to the key: the
    signature it attaches is the key's signature of the personal-message
    hash of the digest. *)
Lemma signAuthorization_signs_hashMessage
    (authorization : DigestAuthorization) (wallet : Wallet) (d : bytes) :
  getBytes (da_digest authorization) = Some d ->
  let sg := wallet_key wallet (hashMessage d) in
  length (sig_r sg) = 32 -> length (sig_s sg) = 32 ->
  signDigestAuthorization authorization wallet =
  Return (with_signature authorization
            (hexlify (sig_r sg ++ sig_s sg ++ [normalize_byte (byte_of_Z (sig_v sg))]))).
Proof.
  intros Hd sg Hr Hs. unfold signDigestAuthorization, signMessage.
  rewrite Hd, serialized_signature. fold sg.
  now rewrite formatSignatureForECRecover_bytes.
Qed.

(** C2. At the example digest the hash that [signAuthorization] hands
    to the signing key is the personal-message hash of the digest and
    differs from the digest: with a key that returns what it is handed
    as [r], the attached signature carries [hashMessage digest], in the
    receive example and in its transfer twin alike. *)
Theorem signAuthorization_signs_prefixed_digest :
  getBytes (da_digest example_digest_authorization) = Some example_digest /\
  hashMessage example_digest <> example_digest /\
  hashMessage example_digest =
    keccak256 (utf8ToBytes MessagePrefix ++ utf8ToBytes (lit "32") ++ example_digest) /\
  WorkingReceiveExample.signAuthorization example_digest_authorization payer_wallet =
    Return (with_signature example_digest_authorization
              (hexlify (hashMessage example_digest ++ repeat x22 32 ++ [x1b]))) /\
  CorrectTransferSender.signAuthorization example_digest_authorization payer_wallet =
    Return (with_signature example_digest_authorization
              (hexlify (hashMessage example_digest ++ repeat x22 32 ++ [x1b]))).
Proof.
  assert (Hd : getBytes (da_digest example_digest_authorization) = Some example_digest)
    by apply hexToBytes_hexlify.
  assert (Hs : signDigestAuthorization example_digest_authorization payer_wallet =
    Return (with_signature example_digest_authorization
              (hexlify (hashMessage example_digest ++ repeat x22 32 ++ [x1b])))).
  { rewrite (signAuthorization_signs_hashMessage example_digest_authorization
               payer_wallet Hd); [reflexivity | apply keccak256_length | reflexivity]. }
  split; [exact Hd|]. split; [|split; [reflexivity|split; exact Hs]].
  intros H. apply (f_equal (fun l => nth 0 l x00)) in H.
  vm_compute in H. discriminate H.
Qed.

(** ** Amount conversion *)

Lemma bind_lift_return {A B : Type} (r : Result A) (a : A) (k : A -> M B)
    (w : World) (tr : Trace) :
  r = Return a -> bind (lift r) k w tr = k a w tr.
Proof. intros ->. reflexivity. Qed.

Lemma bind_lift_throw {A B : Type} (r : Result A) (m : str) (k : A -> M B)
    (w : World) (tr : Trace) :
  r = Throw m -> bind (lift r) k w tr = (Throw m, tr).
Proof. intros ->. reflexivity. Qed.

(** The [value] of a created authorization is [parseUnits] of the
    amount at six decimals, whenever creation returns. *)
Lemma createTransferAuthorization_value
    (holderSigner : Wallet) (recipientAddress amount contractAddress : str)
    (w : World) (tr tr' : Trace) (a : Authorization) :
  RunTransferExample.createTransferAuthorization holderSigner recipientAddress
    amount contractAddress w tr = (Return a, tr') ->
  parseUnits amount 6 = Return (auth_value a).
Proof.
  unfold RunTransferExample.createTransferAuthorization, bind, ask, request, lift, ret.
  destruct (parseUnits amount 6) as [v|m]; [|discriminate].
  destruct (signTypedData _ _ _ _ _) as [sg|m]; [|discriminate].
  intros H. injection H as <- _. reflexivity.
Qed.

Lemma createReceiveAuthorization_value
    (this : AuthorizationSender.Sender) (recipientAddress amount : str)
    (validHours : Z) (w : World) (tr tr' : Trace)
    (t : AuthorizationSender.TransportAuthorization) :
  AuthorizationSender.createReceiveAuthorization this recipientAddress amount
    validHours w tr = (Return t, tr') ->
  parseUnits amount 6 = Return (auth_value (AuthorizationSender.t_message t)).
Proof.
  unfold AuthorizationSender.createReceiveAuthorization,
    AuthorizationSender.createAuthorization, bind, ask, request, lift, ret.
  destruct (parseUnits amount 6) as [v|m]; [|discriminate].
  destruct (signTypedData _ _ _ _ _) as [sg|m]; [|discriminate].
  intros H. injection H as <- _. reflexivity.
Qed.

(** The amount "0" is accepted: creation returns an authorization of
    value zero. *)
Lemma zero_amount_is_accepted :
  parseUnits (lit "0") 6 = Return 0%Z /\
  exists a tr,
    RunTransferExample.createTransferAuthorization payer_wallet receiver_address
      (lit "0") usdc_address example_world [] = (Return a, tr) /\
    auth_value a = 0%Z.
Proof.
  split; [reflexivity|].
  eexists _, _. split; [vm_compute; reflexivity|reflexivity].
Qed.


(** ** The receive helper: recipient check *)

Lemma to_mismatch_distinct (to receiverAddress : str) :
  RunReceiveExample.to_mismatch to receiverAddress <> not_yet_valid /\
  RunReceiveExample.to_mismatch to receiverAddress <> has_expired /\
  RunReceiveExample.to_mismatch to receiverAddress <> already_used.
Proof.
  repeat split; intros H;
    apply (f_equal (fun l => nth 14 l " "%char)) in H; discriminate H.
Qed.

Lemma to_mismatch_prefix (to receiverAddress : str) :
  startsWith (lit "Authorization 'to' address ")
    (RunReceiveExample.to_mismatch to receiverAddress) = true.
Proof. reflexivity. Qed.

Lemma receive_mismatch_throws
    (this : RunReceiveExample.FiatTokenReceiver) (a : Authorization)
    (w : World) (tr : Trace) :
  ~ same_address (auth_to a) (wallet_address (RunReceiveExample.receiverSigner this)) ->
  RunReceiveExample.receiveWithAuthorization this a w tr =
    (Throw (RunReceiveExample.to_mismatch (auth_to a)
              (wallet_address (RunReceiveExample.receiverSigner this))), tr) /\
  ReceiveExample.receiveWithAuthorization this a w tr =
    (Throw (RunReceiveExample.to_mismatch (auth_to a)
              (wallet_address (RunReceiveExample.receiverSigner this))), tr).
Proof.
  intros Hne. unfold same_address in Hne. apply str_eqb_false in Hne.
  destruct a as [from to value validAfter validBefore nonce signature].
  cbn [auth_to] in *.
  unfold RunReceiveExample.receiveWithAuthorization,
    ReceiveExample.receiveWithAuthorization, throw.
  rewrite Hne. split; reflexivity.
Qed.

(** C10. In the receive helper the recipient check comes first: for
    every authorization whose [to] differs from the receiver's address
    under lower-casing, the run throws the recipient-mismatch error
    whatever the clock and the nonce state are, and no request leaves
    the process. *)
Theorem recipient_check_precedes_time_and_nonce
    (this : RunReceiveExample.FiatTokenReceiver) (a : Authorization)
    (w : World) (tr : Trace) :
  ~ same_address (auth_to a) (wallet_address (RunReceiveExample.receiverSigner this)) ->
  RunReceiveExample.receiveWithAuthorization this a w tr =
    (Throw (RunReceiveExample.to_mismatch (auth_to a)
              (wallet_address (RunReceiveExample.receiverSigner this))), tr) /\
  ReceiveExample.receiveWithAuthorization this a w tr =
    (Throw (RunReceiveExample.to_mismatch (auth_to a)
              (wallet_address (RunReceiveExample.receiverSigner this))), tr).
Proof.
  intros Hne. unfold same_address in Hne. apply str_eqb_false in Hne.
  destruct a as [from to value validAfter validBefore nonce signature].
  cbn [auth_to] in *.
  split.
  - unfold RunReceiveExample.receiveWithAuthorization.
    rewrite Hne. reflexivity.
  - unfold ReceiveExample.receiveWithAuthorization.
    rewrite Hne. reflexivity.
Qed.

Lemma recipient_check_precedes_time_and_nonce_witness :
  ~ same_address (auth_to (pending_authorization payer_address))
      (wallet_address (RunReceiveExample.receiverSigner
                         (RunReceiveExample.mkReceiver usdc_address receiver_wallet))) /\
  let this := RunReceiveExample.mkReceiver usdc_address receiver_wallet in
  let a := pending_authorization payer_address in
  RunReceiveExample.receiveWithAuthorization this a used_world [] =
    (Throw (RunReceiveExample.to_mismatch (auth_to a)
              (wallet_address (RunReceiveExample.receiverSigner this))), []) /\
  ReceiveExample.receiveWithAuthorization this a used_world [] =
    (Throw (RunReceiveExample.to_mismatch (auth_to a)
              (wallet_address (RunReceiveExample.receiverSigner this))), []).
Proof.
  assert (H : ~ same_address (auth_to (pending_authorization payer_address))
      (wallet_address (RunReceiveExample.receiverSigner
                         (RunReceiveExample.mkReceiver usdc_address receiver_wallet)))).
  { unfold same_address. intros H.
    apply (f_equal (fun l => nth 2 l " "%char)) in H. vm_compute in H. discriminate H. }
  split; [exact H|].
  exact (recipient_check_precedes_time_and_nonce
           (RunReceiveExample.mkReceiver usdc_address receiver_wallet)
           (pending_authorization payer_address) used_world [] H).
Defined.

(** ** Runs of the execution helpers *)

Lemma submitted_app (tr tr' : Trace) :
  submitted (tr ++ tr') = submitted tr || submitted tr'.
Proof. unfold submitted. apply existsb_app. Qed.

Lemma send_and_wait_submits (c : ContractCall) (w : World) (tr : Trace) :
  submitted (snd (send_and_wait c w tr)) = true.
Proof.
  unfold send_and_wait, bind, request, ret.
  destruct (sendTransaction w c) as [tx|m]; cbn [snd].
  - destruct (waitForReceipt w tx); cbn [snd];
      rewrite !submitted_app; cbn; now rewrite !orb_true_r.
  - rewrite submitted_app. cbn. now rewrite orb_true_r.
Qed.

(** The run of the transfer helper, check by check. *)
Lemma transfer_run (this : RunTransferExample.FiatTokenSender)
    (a : Authorization) (w : World) (tr : Trace) :
  RunTransferExample.transferWithAuthorization this a w tr =
  if (Date_now_seconds w <? auth_validAfter a)%Z
  then (Throw not_yet_valid, tr ++ [EvDateNow])
  else if (Date_now_seconds w >? auth_validBefore a)%Z
  then (Throw has_expired, tr ++ [EvDateNow])
  else if authorizationState w (auth_from a) (auth_nonce a)
  then (Throw already_used,
        (tr ++ [EvDateNow]) ++ [EvAuthorizationState (auth_from a) (auth_nonce a)])
  else send_and_wait (call_of transferWithAuthorization_method a None) w
         ((tr ++ [EvDateNow]) ++ [EvAuthorizationState (auth_from a) (auth_nonce a)]).
Proof.
  destruct a as [from to value validAfter validBefore nonce signature].
  unfold RunTransferExample.transferWithAuthorization, send_and_wait,
    bind, ask, request, throw. cbn [auth_validAfter auth_validBefore auth_from auth_nonce].
  destruct (Date_now_seconds w <? validAfter)%Z; [reflexivity|].
  destruct (Date_now_seconds w >? validBefore)%Z; [reflexivity|].
  destruct (authorizationState w from nonce); reflexivity.
Qed.

(** The run of the receive helper once the recipient check has passed. *)
Lemma receive_run (this : RunReceiveExample.FiatTokenReceiver)
    (a : Authorization) (w : World) (tr : Trace) :
  same_address (auth_to a) (wallet_address (RunReceiveExample.receiverSigner this)) ->
  RunReceiveExample.receiveWithAuthorization this a w tr =
  if (Date_now_seconds w <? auth_validAfter a)%Z
  then (Throw not_yet_valid, tr ++ [EvDateNow])
  else if (Date_now_seconds w >? auth_validBefore a)%Z
  then (Throw has_expired, tr ++ [EvDateNow])
  else if authorizationState w (auth_from a) (auth_nonce a)
  then (Throw already_used,
        (tr ++ [EvDateNow]) ++ [EvAuthorizationState (auth_from a) (auth_nonce a)])
  else send_and_wait (call_of receiveWithAuthorization_method a None) w
         ((tr ++ [EvDateNow]) ++ [EvAuthorizationState (auth_from a) (auth_nonce a)]).
Proof.
  intros Hsame. unfold same_address in Hsame. apply str_eqb_true in Hsame.
  destruct a as [from to value validAfter validBefore nonce signature].
  cbn [auth_to auth_validAfter auth_validBefore auth_from auth_nonce] in *.
  unfold RunReceiveExample.receiveWithAuthorization, send_and_wait,
    bind, ask, request, throw.
  rewrite Hsame. cbn [negb].
  destruct (Date_now_seconds w <? validAfter)%Z; [reflexivity|].
  destruct (Date_now_seconds w >? validBefore)%Z; [reflexivity|].
  destruct (authorizationState w from nonce); reflexivity.
Qed.

Lemma receive_original_same (this : RunReceiveExample.FiatTokenReceiver)
    (a : Authorization) :
  ReceiveExample.receiveWithAuthorization this a =
  RunReceiveExample.receiveWithAuthorization this a.
Proof. reflexivity. Qed.

Lemma classify_submitted (run : Result Receipt * Trace) :
  submitted (snd run) = true -> classify run = Some EXECUTABLE.
Proof. unfold classify. now intros ->. Qed.

Lemma same_address_dec (a b : str) : {same_address a b} + {~ same_address a b}.
Proof. unfold same_address. apply list_eq_dec, ascii_dec. Qed.

(** ** Classification of the pre-flight outcome *)

Ltac solve_class :=
  repeat match goal with
         | |- _ /\ _ => split
         | |- _ <-> _ => split
         | |- _ -> _ => intro
         | H : _ /\ _ |- _ => destruct H
         end;
  try reflexivity; try discriminate; try lia; try congruence.

Section Classes.
Variables (a : Authorization) (w : World).

Let now := Date_now_seconds w.
Let used := authorizationState w (auth_from a) (auth_nonce a).

Lemma window_class_spec :
  ((window_class a w) = PENDING <-> (now < auth_validAfter a)%Z) /\
  ((window_class a w) = EXPIRED <->
     (auth_validAfter a <= now)%Z /\ (now > auth_validBefore a)%Z) /\
  ((window_class a w) = CONSUMED <->
     (auth_validAfter a <= now <= auth_validBefore a)%Z /\ used = true) /\
  ((window_class a w) = EXECUTABLE <->
     (auth_validAfter a <= now <= auth_validBefore a)%Z /\ used = false).
Proof.
  unfold window_class. fold now used.
  destruct (Z.ltb_spec now (auth_validAfter a)); [solve_class|].
  destruct (Z.gtb_spec now (auth_validBefore a)); [solve_class|].
  destruct used; solve_class.
Qed.

Lemma transfer_classified (this : RunTransferExample.FiatTokenSender) :
  let run := RunTransferExample.transferWithAuthorization this a w [] in
  classify run = Some (window_class a w) /\
  ((window_class a w) <> EXECUTABLE -> threw run /\ submitted (snd run) = false).
Proof.
  cbv zeta. rewrite transfer_run. unfold window_class. fold now used.
  destruct (now <? auth_validAfter a)%Z;
    [split; [reflexivity|intros _; split; [eexists|]; reflexivity]|].
  destruct (now >? auth_validBefore a)%Z;
    [split; [reflexivity|intros _; split; [eexists|]; reflexivity]|].
  destruct used;
    [split; [reflexivity|intros _; split; [eexists|]; reflexivity]|].
  split; [|intros H; now contradiction H].
  apply classify_submitted, send_and_wait_submits.
Qed.

Lemma receive_classified (this : RunReceiveExample.FiatTokenReceiver) :
  let run := RunReceiveExample.receiveWithAuthorization this a w [] in
  let receiver := wallet_address (RunReceiveExample.receiverSigner this) in
  (~ same_address (auth_to a) receiver ->
     classify run = Some UNAUTHORIZED_SUBMITTER /\
     threw run /\ submitted (snd run) = false) /\
  (same_address (auth_to a) receiver ->
     classify run = Some (window_class a w) /\
     ((window_class a w) <> EXECUTABLE -> threw run /\ submitted (snd run) = false)).
Proof.
  cbv zeta. split.
  - intros Hne.
    destruct (receive_mismatch_throws this a w [] Hne) as [-> _].
    split; [reflexivity|split; [eexists|]; reflexivity].
  - intros Hsame. rewrite (receive_run this a w [] Hsame).
    unfold window_class. fold now used.
    destruct (now <? auth_validAfter a)%Z;
      [split; [reflexivity|intros _; split; [eexists|]; reflexivity]|].
    destruct (now >? auth_validBefore a)%Z;
      [split; [reflexivity|intros _; split; [eexists|]; reflexivity]|].
    destruct used;
      [split; [reflexivity|intros _; split; [eexists|]; reflexivity]|].
    split; [|intros H; now contradiction H].
    apply classify_submitted, send_and_wait_submits.
Qed.
End Classes.

Lemma window_class_not_unauthorized (a : Authorization) (w : World) :
  window_class a w <> UNAUTHORIZED_SUBMITTER.
Proof.
  unfold window_class.
  destruct (Date_now_seconds w <? auth_validAfter a)%Z; [discriminate|].
  destruct (Date_now_seconds w >? auth_validBefore a)%Z; [discriminate|].
  destruct (authorizationState w (auth_from a) (auth_nonce a)); discriminate.
Qed.

(** A not yet valid authorization makes the transfer helper throw. *)
Lemma pending_authorization_throws :
  let this := RunTransferExample.mkSender usdc_address gas_station_wallet in
  let a := pending_authorization receiver_address in
  (Date_now_seconds example_world < auth_validAfter a)%Z /\
  RunTransferExample.transferWithAuthorization this a example_world [] =
    (Throw not_yet_valid, [EvDateNow]) /\
  ~ (exists r tr,
        RunTransferExample.transferWithAuthorization this a example_world [] =
        (Return r, tr)).
Proof.
  cbv zeta. split; [reflexivity|]. split; [reflexivity|].
  intros (r & tr & H). discriminate H.
Qed.

(** C5. A run of either helper from an empty trace falls in exactly
    one of the five classes, decided by the recipient check (receive
    only), the clock against the window and the nonce state; every class
    but EXECUTABLE is reported by a thrown error, with nothing
    submitted. *)
Theorem helper_outcome_has_one_class (a : Authorization) (w : World) :
  (forall this : RunTransferExample.FiatTokenSender,
      let run := RunTransferExample.transferWithAuthorization this a w [] in
      classify run = Some (window_class a w) /\
      (window_class a w <> EXECUTABLE -> threw run /\ submitted (snd run) = false)) /\
  (forall this : RunReceiveExample.FiatTokenReceiver,
      let run := RunReceiveExample.receiveWithAuthorization this a w [] in
      let receiver := wallet_address (RunReceiveExample.receiverSigner this) in
      exists c,
        classify run = Some c /\
        (c = UNAUTHORIZED_SUBMITTER <-> ~ same_address (auth_to a) receiver) /\
        (c <> UNAUTHORIZED_SUBMITTER -> c = window_class a w) /\
        (c <> EXECUTABLE -> threw run /\ submitted (snd run) = false)) /\
  (window_class a w = PENDING <-> (Date_now_seconds w < auth_validAfter a)%Z) /\
  (window_class a w = EXPIRED <->
     (auth_validAfter a <= Date_now_seconds w)%Z /\
     (Date_now_seconds w > auth_validBefore a)%Z) /\
  (window_class a w = CONSUMED <->
     (auth_validAfter a <= Date_now_seconds w <= auth_validBefore a)%Z /\
     authorizationState w (auth_from a) (auth_nonce a) = true) /\
  (window_class a w = EXECUTABLE <->
     (auth_validAfter a <= Date_now_seconds w <= auth_validBefore a)%Z /\
     authorizationState w (auth_from a) (auth_nonce a) = false) /\
  window_class a w <> UNAUTHORIZED_SUBMITTER.
Proof.
  split; [intros this; apply transfer_classified|].
  split.
  - intros this. cbv zeta.
    destruct (receive_classified a w this) as [Hne Hsame]. cbv zeta in Hne, Hsame.
    pose proof (window_class_not_unauthorized a w) as Hw.
    destruct (same_address_dec (auth_to a)
                (wallet_address (RunReceiveExample.receiverSigner this))) as [Hs|Hs].
    + destruct (Hsame Hs) as [Hc Hthrow].
      exists (window_class a w). split; [exact Hc|].
      split; [split; [intros H; contradiction|intros H; contradiction]|].
      split; [reflexivity|exact Hthrow].
    + destruct (Hne Hs) as (Hc & Ht & Hsub).
      exists UNAUTHORIZED_SUBMITTER. split; [exact Hc|].
      split; [split; [intros _; exact Hs|reflexivity]|].
      split; [intros H; now contradiction H|intros _; now split].
  - pose proof (window_class_spec a w) as (H1 & H2 & H3 & H4).
    repeat (split; [assumption|]).
    apply window_class_not_unauthorized.
Qed.

(** C6. In the receive helper, a submitter whose address differs from
    [to] under lower-casing gets the recipient-mismatch error, classified
    UNAUTHORIZED_SUBMITTER and different from the errors of the other
    classes; a submitter equal to [to] up to letter case never gets it,
    and inside the window with an unused nonce the call is submitted. *)
Theorem receive_submitter_must_be_recipient
    (this : RunReceiveExample.FiatTokenReceiver) (a : Authorization) (w : World) :
  let receiver := wallet_address (RunReceiveExample.receiverSigner this) in
  let run := RunReceiveExample.receiveWithAuthorization this a w [] in
  ReceiveExample.receiveWithAuthorization this a w [] = run /\
  (~ same_address (auth_to a) receiver ->
     run = (Throw (RunReceiveExample.to_mismatch (auth_to a) receiver), []) /\
     classify run = Some UNAUTHORIZED_SUBMITTER /\
     RunReceiveExample.to_mismatch (auth_to a) receiver <> not_yet_valid /\
     RunReceiveExample.to_mismatch (auth_to a) receiver <> has_expired /\
     RunReceiveExample.to_mismatch (auth_to a) receiver <> already_used /\
     submitted (snd run) = false) /\
  (same_address (auth_to a) receiver ->
     classify run <> Some UNAUTHORIZED_SUBMITTER /\
     ((auth_validAfter a <= Date_now_seconds w <= auth_validBefore a)%Z ->
      authorizationState w (auth_from a) (auth_nonce a) = false ->
      classify run = Some EXECUTABLE /\ submitted (snd run) = true)).
Proof.
  cbv zeta. split; [reflexivity|]. split.
  - intros Hne.
    destruct (receive_mismatch_throws this a w [] Hne) as [Hrun _].
    destruct (to_mismatch_distinct (auth_to a)
                (wallet_address (RunReceiveExample.receiverSigner this)))
      as (H1 & H2 & H3).
    rewrite Hrun. repeat split; assumption || reflexivity.
  - intros Hsame.
    destruct (receive_classified a w this) as [_ Hc]. cbv zeta in Hc.
    destruct (Hc Hsame) as [Hclass _].
    split.
    + rewrite Hclass. intros H. injection H as H.
      now apply (window_class_not_unauthorized a w).
    + intros Hwin Hunused.
      assert (Hex : window_class a w = EXECUTABLE)
        by (apply (window_class_spec a w); now split).
      rewrite Hex in Hclass. split; [exact Hclass|].
      rewrite (receive_run this a w [] Hsame).
      destruct (Z.ltb_spec (Date_now_seconds w) (auth_validAfter a)); [lia|].
      destruct (Z.gtb_spec (Date_now_seconds w) (auth_validBefore a)); [lia|].
      rewrite Hunused. apply send_and_wait_submits.
Qed.

Lemma receive_submitter_must_be_recipient_witness :
  (~ same_address (auth_to (example_authorization payer_address))
       (wallet_address (RunReceiveExample.receiverSigner example_receiver)) /\
   classify (RunReceiveExample.receiveWithAuthorization example_receiver
               (example_authorization payer_address) example_world []) =
   Some UNAUTHORIZED_SUBMITTER) /\
  (same_address (auth_to (example_authorization receiver_address_lower))
       (wallet_address (RunReceiveExample.receiverSigner example_receiver)) /\
   auth_to (example_authorization receiver_address_lower) <>
     wallet_address (RunReceiveExample.receiverSigner example_receiver) /\
   classify (RunReceiveExample.receiveWithAuthorization example_receiver
               (example_authorization receiver_address_lower) example_world []) =
   Some EXECUTABLE).
Proof.
  assert (Hne : ~ same_address (auth_to (example_authorization payer_address))
       (wallet_address (RunReceiveExample.receiverSigner example_receiver))).
  { unfold same_address. intros H.
    apply (f_equal (fun l => nth 2 l " "%char)) in H. vm_compute in H. discriminate H. }
  assert (Hsame : same_address (auth_to (example_authorization receiver_address_lower))
       (wallet_address (RunReceiveExample.receiverSigner example_receiver)))
    by (vm_compute; reflexivity).
  split.
  - split; [exact Hne|].
    apply (receive_submitter_must_be_recipient example_receiver
             (example_authorization payer_address) example_world). exact Hne.
  - split; [exact Hsame|]. split.
    + intros H. apply (f_equal (fun l => nth 10 l " "%char)) in H.
      vm_compute in H. discriminate H.
    + apply (receive_submitter_must_be_recipient example_receiver
               (example_authorization receiver_address_lower) example_world).
      * exact Hsame.
      * cbn. lia.
      * reflexivity.
Defined.

(** ** Pre-flight failures submit nothing *)

(** C8. When a pre-flight check fails (the block time is more than 60
    seconds before [validAfter] in [executeTransferWithAuth], the clock
    is before [validAfter] in [transferWithAuthorization], the time is
    after [validBefore], or the nonce is reported used), the helper
    throws and the requests it made contain no submission (and no gas
    estimate of the call). *)
Theorem failed_preflight_submits_nothing
    (a : Authorization) (w : World) (tr : Trace) :
  (forall this : WorkingTransferExample.WorkingFiatTokenSender,
      (latest_block_timestamp w < auth_validAfter a - 60)%Z \/
      (latest_block_timestamp w > auth_validBefore a)%Z \/
      authorizationState w (auth_from a) (auth_nonce a) = true ->
      exists m tr',
        WorkingTransferExample.executeTransferWithAuth this a w tr =
          (Throw m, tr ++ tr') /\
        submitted tr' = false /\ existsb is_estimate tr' = false) /\
  (forall this : RunTransferExample.FiatTokenSender,
      (Date_now_seconds w < auth_validAfter a)%Z \/
      (Date_now_seconds w > auth_validBefore a)%Z \/
      authorizationState w (auth_from a) (auth_nonce a) = true ->
      exists m tr',
        RunTransferExample.transferWithAuthorization this a w tr =
          (Throw m, tr ++ tr') /\
        submitted tr' = false).
Proof.
  destruct a as [from to value validAfter validBefore nonce signature].
  cbn [auth_validAfter auth_validBefore auth_from auth_nonce].
  split; intros this H.
  - unfold WorkingTransferExample.executeTransferWithAuth,
      WorkingTransferExample.getCurrentBlockTimestamp, bind, ask, request, throw.
    destruct (Z.ltb_spec (latest_block_timestamp w) (validAfter - 60)).
    { eexists _, [EvGetBlock]. repeat split; reflexivity. }
    destruct (Z.gtb_spec (latest_block_timestamp w) validBefore).
    { eexists _, [EvGetBlock]. repeat split; reflexivity. }
    destruct H as [H | [H | H]]; [lia | lia |].
    rewrite H.
    eexists _, [EvGetBlock; EvAuthorizationState from nonce].
    rewrite <- app_assoc. repeat split; reflexivity.
  - unfold RunTransferExample.transferWithAuthorization, bind, ask, request, throw.
    destruct (Z.ltb_spec (Date_now_seconds w) validAfter).
    { eexists _, [EvDateNow]. split; reflexivity. }
    destruct (Z.gtb_spec (Date_now_seconds w) validBefore).
    { eexists _, [EvDateNow]. split; reflexivity. }
    destruct H as [H | [H | H]]; [lia | lia |].
    rewrite H.
    eexists _, [EvDateNow; EvAuthorizationState from nonce].
    rewrite <- app_assoc. split; reflexivity.
Qed.

Lemma failed_preflight_submits_nothing_witness :
  ((latest_block_timestamp used_world <
      auth_validAfter (example_authorization receiver_address) - 60)%Z \/
   (latest_block_timestamp used_world >
      auth_validBefore (example_authorization receiver_address))%Z \/
   authorizationState used_world
     (auth_from (example_authorization receiver_address))
     (auth_nonce (example_authorization receiver_address)) = true) /\
  exists m tr',
    WorkingTransferExample.executeTransferWithAuth example_executor
      (example_authorization receiver_address) used_world [] = (Throw m, [] ++ tr') /\
    submitted tr' = false /\ existsb is_estimate tr' = false.
Proof.
  assert (H : (latest_block_timestamp used_world <
      auth_validAfter (example_authorization receiver_address) - 60)%Z \/
   (latest_block_timestamp used_world >
      auth_validBefore (example_authorization receiver_address))%Z \/
   authorizationState used_world
     (auth_from (example_authorization receiver_address))
     (auth_nonce (example_authorization receiver_address)) = true)
    by (right; right; reflexivity).
  split; [exact H|].
  exact (proj1 (failed_preflight_submits_nothing
                  (example_authorization receiver_address) used_world [])
               example_executor H).
Defined.

(** ** Instances *)

Lemma hashMessage_vector :
  hexlify (hashMessage example_digest) =
  lit "0x462e75a254cf1dbcadae1a8849bcf724c6d2e3e6d2a1d84c4281d73ae6f8ced6".
Proof. vm_compute. reflexivity. Qed.


(** ** Typed-data signing signs the digest itself *)

Lemma hashStruct_authorization
    (name : str) (fb tb nb : bytes) (from to : str)
    (value validAfter validBefore : Z) :
  hexToBytes from = Some fb -> length fb = 20 ->
  hexToBytes to = Some tb -> length tb = 20 ->
  length nb = 32 ->
  Spec.uint256_range value -> Spec.uint256_range validAfter ->
  Spec.uint256_range validBefore ->
  hashStruct name authorization_fields
    (message_values from to value validAfter validBefore nb) =
  Some (Spec.structHash (keccak256 (utf8ToBytes (encodeType name authorization_fields)))
          fb tb value validAfter validBefore nb).
Proof.
  intros Hf Hfl Ht Htl Hnl Hv Hva Hvb.
  unfold hashStruct, message_values. cbn [map authorization_fields field_type encode_words].
  rewrite (@encode_address (JStr from) fb Hf Hfl).
  rewrite (@encode_address (JStr to) tb Ht Htl).
  rewrite !encode_uint256 by assumption.
  rewrite (@encode_bytes32 (JBytes nb) nb eq_refl Hnl).
  now rewrite app_nil_r.
Qed.

(** [signTypedData] on a transfer message hands the key the EIP-712
    digest over the domain separator of the domain, with no prefix: the
    path taken by [createFinalTransferAuthorization] and the
    [create...Authorization] functions of the runnable examples. *)
Lemma typed_data_signs_raw_digest
    (wallet : Wallet) (d : Domain) (ds fb tb nb : bytes) (from to : str)
    (value validAfter validBefore : Z) :
  hashDomain d = Some ds ->
  hexToBytes from = Some fb -> length fb = 20 ->
  hexToBytes to = Some tb -> length tb = 20 ->
  length nb = 32 ->
  Spec.uint256_range value -> Spec.uint256_range validAfter ->
  Spec.uint256_range validBefore ->
  signTypedData wallet d (lit "TransferWithAuthorization") authorization_fields
    (message_values from to value validAfter validBefore nb) =
  Return (serialized
            (wallet_key wallet
               (Spec.digest ds Spec.transfer_typeHash fb tb value validAfter
                  validBefore nb))).
Proof.
  intros Hd Hf Hfl Ht Htl Hnl Hv Hva Hvb.
  unfold signTypedData, typedDataHash.
  rewrite Hd.
  rewrite (@hashStruct_authorization (lit "TransferWithAuthorization")
             fb tb nb from to value validAfter validBefore
             Hf Hfl Ht Htl Hnl Hv Hva Hvb).
  rewrite encodeType_transfer. reflexivity.
Qed.

(** ** Exactness of the conversion in general *)

Lemma is_digit_value (c : ascii) :
  is_digit c = true -> (0 <= Z.of_nat (nat_of_ascii c) - 48 <= 9)%Z.
Proof.
  unfold is_digit. intros H. apply andb_true_iff in H as [H1 H2].
  apply Nat.leb_le in H1, H2. lia.
Qed.

Lemma is_digit_not_sign (c : ascii) :
  is_digit c = true -> Ascii.eqb c "-"%char = false /\ Ascii.eqb c "."%char = false.
Proof.
  destruct c as [[] [] [] [] [] [] [] []]; cbn; intros H;
    try discriminate H; split; reflexivity.
Qed.

Lemma digits_value_step (s : str) (acc : Z) :
  fold_left (fun a c => 10 * a + (Z.of_nat (nat_of_ascii c) - 48))%Z s acc =
  (acc * 10 ^ Z.of_nat (length s) + digits_value s)%Z.
Proof.
  unfold digits_value. revert acc.
  induction s as [|c s IH]; intros acc.
  - cbn. lia.
  - cbn [fold_left length]. rewrite IH, (IH (10 * 0 + _)%Z).
    rewrite Nat2Z.inj_succ, Z.pow_succ_r by lia. ring.
Qed.

Lemma digits_value_app (a b : str) :
  digits_value (a ++ b) =
  (digits_value a * 10 ^ Z.of_nat (length b) + digits_value b)%Z.
Proof.
  unfold digits_value at 1. rewrite fold_left_app.
  fold (digits_value a). apply digits_value_step.
Qed.

Lemma digits_value_zeros (k : nat) : digits_value (repeat "0"%char k) = 0%Z.
Proof.
  induction k as [|k IH]; [reflexivity|].
  change (repeat "0"%char (S k)) with (["0"%char] ++ repeat "0"%char k).
  rewrite digits_value_app, IH. reflexivity.
Qed.

Lemma digits_value_nonneg (s : str) :
  all_digits s = true -> (0 <= digits_value s)%Z.
Proof.
  induction s as [|c s IH] using rev_ind; intros H; [cbn; lia|].
  unfold all_digits in *. rewrite forallb_app in H.
  apply andb_true_iff in H as [Hs Hc]. cbn in Hc.
  apply andb_true_iff in Hc as [Hc _].
  rewrite digits_value_app. cbn [length].
  pose proof (@is_digit_value c Hc). specialize (IH Hs).
  change (digits_value [c]) with (10 * 0 + (Z.of_nat (nat_of_ascii c) - 48))%Z.
  lia.
Qed.

Lemma digits_value_bound (s : str) :
  all_digits s = true -> (digits_value s < 10 ^ Z.of_nat (length s))%Z.
Proof.
  induction s as [|c s IH] using rev_ind; intros H; [cbn; lia|].
  unfold all_digits in *. rewrite forallb_app in H.
  apply andb_true_iff in H as [Hs Hc]. cbn in Hc.
  apply andb_true_iff in Hc as [Hc _].
  rewrite digits_value_app, length_app. cbn [length].
  pose proof (@is_digit_value c Hc). specialize (IH Hs).
  change (digits_value [c]) with (10 * 0 + (Z.of_nat (nat_of_ascii c) - 48))%Z.
  replace (Z.of_nat (length s + 1)) with (Z.succ (Z.of_nat (length s))) by lia.
  rewrite Z.pow_succ_r by lia. lia.
Qed.

Lemma span_digits_all (a rest : str) :
  all_digits a = true ->
  match rest with [] => True | c :: _ => is_digit c = false end ->
  span_digits (a ++ rest) = (a, rest).
Proof.
  unfold all_digits. induction a as [|c a IH]; intros Ha Hrest.
  - destruct rest as [|c rest]; [reflexivity|]. cbn. now rewrite Hrest.
  - cbn in Ha. apply andb_true_iff in Ha as [Hc Ha].
    cbn [app span_digits]. rewrite Hc, (IH Ha Hrest). reflexivity.
Qed.

(** Up to six decimal digits are completed by zeroes to exactly six. *)
Lemma pad_zeros_six (frac : str) :
  length frac <= 6 ->
  all_zero (skipn 6 (pad_zeros 6 6 frac)) = true /\
  firstn 6 (pad_zeros 6 6 frac) = frac ++ repeat "0"%char (6 - length frac).
Proof.
  intros H.
  destruct frac as [|c1 [|c2 [|c3 [|c4 [|c5 [|c6 [|c7 frac]]]]]]];
    cbn in H; try lia; split; reflexivity.
Qed.

Lemma match_fixed_decimal (whole frac : str) :
  all_digits whole = true -> all_digits frac = true -> whole <> [] ->
  match_fixed (whole ++ "."%char :: frac) = Some (false, whole, frac).
Proof.
  intros Hw Hf Hne. unfold match_fixed.
  destruct whole as [|c whole]; [contradiction|].
  assert (Hc : is_digit c = true).
  { unfold all_digits in Hw. cbn in Hw. now apply andb_true_iff in Hw as [Hc _]. }
  destruct (@is_digit_not_sign c Hc) as [Hs _].
  cbn [app]. rewrite Hs.
  change (c :: whole ++ "."%char :: frac) with ((c :: whole) ++ "."%char :: frac).
  rewrite (@span_digits_all (c :: whole) ("."%char :: frac) Hw eq_refl).
  change (Ascii.eqb "." ".")%char with true. cbv iota.
  pose proof (@span_digits_all frac [] Hf I) as Hspan.
  rewrite app_nil_r in Hspan. now rewrite Hspan.
Qed.

(** A whole part, a point and at most six decimal digits convert to
    whole * 10^6 + decimals * 10^(6 - number of decimals), exactly. *)
Lemma parseUnits_exact (whole frac : str) :
  all_digits whole = true -> all_digits frac = true -> whole <> [] ->
  length frac <= 6 -> length whole <= 100 ->
  parseUnits (whole ++ "."%char :: frac) 6 = Return (base_units whole frac).
Proof.
  intros Hw Hf Hne Hlf Hlw. unfold parseUnits.
  rewrite (@match_fixed_decimal whole frac Hw Hf Hne).
  destruct (@pad_zeros_six frac Hlf) as [Hz Hfirst].
  destruct whole as [|c whole]; [contradiction|].
  cbn [length Nat.add Nat.eqb]. rewrite Hz, Hfirst. cbn [negb].
  set (w := c :: whole) in *.
  assert (Hval : digits_value (w ++ frac ++ repeat "0"%char (6 - length frac)) =
                 base_units w frac).
  { rewrite !digits_value_app, digits_value_zeros, !length_app, repeat_length.
    unfold base_units.
    replace (Z.of_nat (length frac + (6 - length frac))) with 6%Z by lia.
    replace (Z.of_nat (6 - length frac)) with (6 - Z.of_nat (length frac))%Z by lia.
    ring. }
  rewrite Hval.
  assert (Hrange : (0 <= base_units w frac < 2 ^ 511)%Z).
  { unfold base_units.
    pose proof (@digits_value_nonneg w Hw). pose proof (@digits_value_nonneg frac Hf).
    pose proof (@digits_value_bound w Hw) as Hbw.
    pose proof (@digits_value_bound frac Hf) as Hbf.
    assert (H100 : (10 ^ Z.of_nat (length w) <= 10 ^ 100)%Z)
      by (apply Z.pow_le_mono_r; lia).
    assert (Hp : (0 < 10 ^ (6 - Z.of_nat (length frac)))%Z)
      by (apply Z.pow_pos_nonneg; lia).
    assert (Hf6 : (digits_value frac * 10 ^ (6 - Z.of_nat (length frac)) < 10 ^ 6)%Z).
    { replace (10 ^ 6)%Z
        with (10 ^ Z.of_nat (length frac) * 10 ^ (6 - Z.of_nat (length frac)))%Z
        by (rewrite <- Z.pow_add_r by lia; f_equal; lia).
      apply Z.mul_lt_mono_pos_r; assumption. }
    assert (H511 : (10 ^ 100 * 10 ^ 6 + 10 ^ 6 < 2 ^ 511)%Z) by reflexivity.
    split; [nia|]. nia. }
  destruct Hrange as [H0 H1].
  assert (Hlo : (- 2 ^ 511 <=? base_units w frac)%Z = true) by (apply Z.leb_le; lia).
  assert (Hhi : (base_units w frac <? 2 ^ 511)%Z = true) by (apply Z.ltb_lt; lia).
  rewrite Hlo, Hhi. reflexivity.
Qed.

(** C7. Conversion at six decimals is exact integer arithmetic: "50"
    gives 50000000 base units, "0.000001" gives 1, and "0" gives 0
    without any error; a whole part with at most six decimals gives
    whole * 10^6 + decimals * 10^(6 - their number); the authorization
    builders take the converted value as it is. *)
Theorem amount_conversion_is_exact :
  parseUnits (lit "50") 6 = Return 50000000%Z /\
  parseUnits (lit "0.000001") 6 = Return 1%Z /\
  parseUnits (lit "0") 6 = Return 0%Z /\
  (forall whole frac : str,
      all_digits whole = true -> all_digits frac = true -> whole <> [] ->
      length frac <= 6 -> length whole <= 100 ->
      parseUnits (whole ++ "."%char :: frac) 6 = Return (base_units whole frac)) /\
  (forall holderSigner recipientAddress amount contractAddress w tr a tr',
      RunTransferExample.createTransferAuthorization holderSigner recipientAddress
        amount contractAddress w tr = (Return a, tr') ->
      parseUnits amount 6 = Return (auth_value a)) /\
  (forall this recipientAddress amount validHours w tr t tr',
      AuthorizationSender.createReceiveAuthorization this recipientAddress amount
        validHours w tr = (Return t, tr') ->
      parseUnits amount 6 = Return (auth_value (AuthorizationSender.t_message t))).
Proof.
  split; [reflexivity|]. split; [reflexivity|]. split; [reflexivity|].
  split; [exact parseUnits_exact|].
  split.
  - intros. eapply createTransferAuthorization_value; eassumption.
  - intros. eapply createReceiveAuthorization_value; eassumption.
Qed.

Lemma amount_conversion_is_exact_witness :
  (all_digits (lit "12") = true /\ all_digits (lit "345") = true /\
   lit "12" <> [] /\ length (lit "345") <= 6 /\ length (lit "12") <= 100 /\
   parseUnits (lit "12.345") 6 = Return 12345000%Z) /\
  exists a tr,
    RunTransferExample.createTransferAuthorization payer_wallet receiver_address
      (lit "50") usdc_address example_world [] = (Return a, tr) /\
    parseUnits (lit "50") 6 = Return (auth_value a).
Proof.
  destruct amount_conversion_is_exact as (_ & _ & _ & Hexact & Hcreate & _).
  assert (H1 : all_digits (lit "12") = true) by reflexivity.
  assert (H2 : all_digits (lit "345") = true) by reflexivity.
  assert (H3 : lit "12" <> []) by discriminate.
  assert (H4 : length (lit "345") <= 6) by (cbn; lia).
  assert (H5 : length (lit "12") <= 100) by (cbn; lia).
  split.
  - repeat (split; [assumption|]).
    exact (Hexact (lit "12") (lit "345") H1 H2 H3 H4 H5).
  - destruct (RunTransferExample.createTransferAuthorization payer_wallet
                receiver_address (lit "50") usdc_address example_world [])
      as [[a|m] tr] eqn:E.
    + exists a, tr. split; [reflexivity|].
      exact (Hcreate _ _ _ _ _ _ _ _ E).
    + vm_compute in E. discriminate E.
Defined.

Lemma normalization_idempotent_witness :
  (length (repeat x11 32 ++ repeat x22 32 ++ [x1c]) = 65 /\
   (nth 64 (repeat x11 32 ++ repeat x22 32 ++ [x1c]) x00 = x1b \/
    nth 64 (repeat x11 32 ++ repeat x22 32 ++ [x1c]) x00 = x1c) /\
   formatSignatureForContract (hexlify (repeat x11 32 ++ repeat x22 32 ++ [x1c])) =
     Return (hexlify (repeat x11 32 ++ repeat x22 32 ++ [x1c]))) /\
  (valid_signature_text (hexlify (repeat x11 32 ++ repeat x22 32 ++ [x01])) /\
   exists out,
     formatSignatureForContract (hexlify (repeat x11 32 ++ repeat x22 32 ++ [x01])) =
       Return out /\
     formatSignatureForContract out = Return out).
Proof.
  destruct normalization_idempotent as [Hfixed Htwice].
  assert (Hl : length (repeat x11 32 ++ repeat x22 32 ++ [x1c]) = 65) by reflexivity.
  assert (Hv : nth 64 (repeat x11 32 ++ repeat x22 32 ++ [x1c]) x00 = x1b \/
               nth 64 (repeat x11 32 ++ repeat x22 32 ++ [x1c]) x00 = x1c)
    by (right; reflexivity).
  assert (Hvalid : valid_signature_text
                     (hexlify (repeat x11 32 ++ repeat x22 32 ++ [x01])))
    by (repeat split; reflexivity).
  split.
  - split; [exact Hl|]. split; [exact Hv|].
    exact (proj1 (Hfixed _ Hl Hv)).
  - split; [exact Hvalid|].
    destruct (Htwice _ Hvalid) as (out & H1 & H2 & _).
    exists out. split; assumption.
Defined.

Lemma transfer_typehash_is_published_constant_witness :
  (Permutation authorization_fields swapped_fields /\
   swapped_fields <> authorization_fields /\
   web3_keccak256 (encodeType (lit "TransferWithAuthorization") swapped_fields) <>
   published_transfer_typehash) /\
  (is_whitespace " "%char = true /\
   web3_keccak256 (insert_at 33 " "%char (lit transfer_type_string)) <>
   published_transfer_typehash).
Proof.
  destruct transfer_typehash_is_published_constant as (_ & _ & Hfields & Hspace).
  assert (HP : Permutation authorization_fields swapped_fields) by apply perm_swap.
  assert (Hne : swapped_fields <> authorization_fields) by discriminate.
  split.
  - split; [exact HP|]. split; [exact Hne|]. exact (Hfields _ HP Hne).
  - split; [reflexivity|]. exact (Hspace " "%char 33 eq_refl).
Defined.

Lemma helper_outcome_has_one_class_witness :
  (window_class (pending_authorization receiver_address) example_world <> EXECUTABLE /\
   threw (RunTransferExample.transferWithAuthorization example_sender
            (pending_authorization receiver_address) example_world []) /\
   submitted (snd (RunTransferExample.transferWithAuthorization example_sender
                     (pending_authorization receiver_address) example_world [])) = false) /\
  classify (RunTransferExample.transferWithAuthorization example_sender
              (example_authorization receiver_address) example_world []) =
  Some EXECUTABLE.
Proof.
  assert (Hne : window_class (pending_authorization receiver_address) example_world
                <> EXECUTABLE) by discriminate.
  split.
  - split; [exact Hne|].
    exact (proj2 (proj1 (helper_outcome_has_one_class
                           (pending_authorization receiver_address) example_world)
                        example_sender) Hne).
  - exact (proj1 (proj1 (helper_outcome_has_one_class
                           (example_authorization receiver_address) example_world)
                        example_sender)).
Defined.

(* ================================================================= *)
(** * Further properties of the examples *)

(** ** The two signature formatters *)

(** X1. On the text of 65 bytes r, s, v with v in either convention
    (0/1 or 27/28), both formatters return the text of r, s and a
    recovery byte that is 27 or 28. *)
Theorem formatters_normalize_recovery_byte (r s : bytes) (v : byte) :
  length r = 32 -> length s = 32 ->
  In v [x00; x01; x1b; x1c] ->
  formatSignatureForContract (hexlify (r ++ s ++ [v])) =
    Return (hexlify (r ++ s ++ [normalize_byte v])) /\
  formatSignatureForECRecover (hexlify (r ++ s ++ [v])) =
    Return (hexlify (r ++ s ++ [normalize_byte v])) /\
  (normalize_byte v = x1b \/ normalize_byte v = x1c) /\
  (Z_of_byte v < 27 -> Z_of_byte (normalize_byte v) = Z_of_byte v + 27)%Z /\
  length (r ++ s ++ [normalize_byte v]) = 65.
Proof.
  intros Hr Hs Hv.
  rewrite formatSignatureForContract_bytes, formatSignatureForECRecover_bytes
    by assumption.
  rewrite !length_app, Hr, Hs.
  cbn in Hv. destruct Hv as [<- | [<- | [<- | [<- | []]]]];
    cbn; repeat split; try tauto; try reflexivity; intros H; try reflexivity;
    vm_compute in H; discriminate H.
Qed.

Lemma formatters_normalize_recovery_byte_witness :
  (length (repeat x11 32) = 32 /\ length (repeat x22 32) = 32 /\
   In x01 [x00; x01; x1b; x1c]) /\
  formatSignatureForContract (hexlify (repeat x11 32 ++ repeat x22 32 ++ [x01])) =
    Return (hexlify (repeat x11 32 ++ repeat x22 32 ++ [x1c])).
Proof.
  assert (Hr : length (repeat x11 32) = 32) by reflexivity.
  assert (Hs : length (repeat x22 32) = 32) by reflexivity.
  assert (Hv : In x01 [x00; x01; x1b; x1c]) by (right; left; reflexivity).
  split; [repeat split; assumption|].
  exact (proj1 (@formatters_normalize_recovery_byte _ _ _ Hr Hs Hv)).
Defined.

Lemma text_split_130 (body : str) :
  length body = 130 ->
  exists r s vv, body = r ++ s ++ vv /\ length r = 64 /\ length s = 64 /\ length vv = 2.
Proof.
  intros Hl.
  exists (firstn 64 body), (firstn 64 (skipn 64 body)), (skipn 64 (skipn 64 body)).
  split; [now rewrite !firstn_skipn|].
  rewrite !length_firstn, !length_skipn. lia.
Qed.

Lemma prefixed_text (sig : str) :
  startsWith (lit "0x") sig = true -> sig = lit "0x" ++ skipn 2 sig.
Proof.
  intros Hp.
  destruct sig as [|a [|b body]];
    [discriminate Hp
    |cbn in Hp; rewrite andb_false_r in Hp; discriminate Hp
    |].
  change (lit "0x") with ["0"%char; "x"%char] in *. cbn [startsWith] in Hp.
  apply andb_true_iff in Hp as [Ha Hb].
  apply andb_true_iff in Hb as [Hb _].
  apply Ascii.eqb_eq in Ha, Hb. subst a b. reflexivity.
Qed.

Lemma is_hexdigit_not_x (c : ascii) :
  is_hexdigit c = true -> Ascii.eqb "x"%char c = false.
Proof.
  destruct c as [[] [] [] [] [] [] [] []]; cbn; intros H;
    try discriminate H; reflexivity.
Qed.

Lemma hex_text_has_no_prefix (s : str) :
  forallb is_hexdigit s = true -> startsWith (lit "0x") s = false.
Proof.
  intros H. change (lit "0x") with ["0"%char; "x"%char].
  destruct s as [|a [|b s]]; cbn [startsWith]; [reflexivity|apply andb_false_r|].
  cbn in H. apply andb_true_iff in H as [_ H]. apply andb_true_iff in H as [Hb _].
  rewrite (is_hexdigit_not_x b Hb). cbn. apply andb_false_r.
Qed.

Lemma remove_first_hex_text (s : str) :
  forallb is_hexdigit s = true -> remove_first (lit "0x") s = s.
Proof.
  induction s as [|c s IH]; intros H; [reflexivity|].
  cbn [remove_first]. rewrite (hex_text_has_no_prefix (c :: s) H).
  cbn in H. apply andb_true_iff in H as [_ H]. now rewrite (IH H).
Qed.

(** X2. Whatever [formatSignatureForContract] accepts,
    [formatSignatureForECRecover] accepts with the same result; the
    converse fails: 130 hexadecimal digits without the prefix are
    normalized by the latter (to the same text as with the prefix) and
    rejected by the former. *)
Theorem contract_formatter_is_the_stricter_one :
  (forall sig out : str,
      formatSignatureForContract sig = Return out ->
      formatSignatureForECRecover sig = Return out) /\
  (forall body : str,
      length body = 130 -> forallb is_hexdigit body = true ->
      formatSignatureForContract body = Throw (lit "Invalid ethers signature format") /\
      formatSignatureForECRecover body =
        formatSignatureForECRecover (lit "0x" ++ body) /\
      exists out, formatSignatureForECRecover body = Return out).
Proof.
  split.
  - intros sig out H.
    unfold formatSignatureForContract in H.
    destruct (startsWith (lit "0x") sig) eqn:Hp; [|discriminate H].
    destruct (length sig =? 132) eqn:Hl; [|discriminate H].
    apply Nat.eqb_eq in Hl.
    pose proof (prefixed_text sig Hp) as Hsig.
    assert (Hbody : length (skipn 2 sig) = 130) by (rewrite length_skipn; lia).
    destruct (text_split_130 (skipn 2 sig) Hbody) as (r & s & vv & Hb & Hr & Hs & Hv).
    assert (Hfull : sig = lit "0x" ++ r ++ s ++ vv) by (rewrite <- Hb; exact Hsig).
    assert (Hc : formatSignatureForContract sig = Return out).
    { unfold formatSignatureForContract. rewrite Hp, Hl. exact H. }
    rewrite Hfull in Hc |- *.
    rewrite formatSignatureForContract_text in Hc by assumption.
    rewrite formatSignatureForECRecover_text by assumption. exact Hc.
  - intros body Hl Hh.
    destruct (text_split_130 body Hl) as (r & s & vv & Hb & Hr & Hs & Hv).
    split; [|split].
    + unfold formatSignatureForContract. rewrite Hl. cbn [Nat.eqb negb].
      now rewrite orb_true_r.
    + unfold formatSignatureForECRecover at 1.
      rewrite (remove_first_hex_text body Hh).
      unfold formatSignatureForECRecover.
      change (remove_first (lit "0x") (lit "0x" ++ body)) with body.
      reflexivity.
    + exists (lit "0x" ++ r ++ s ++ normalized_v_text vv).
      assert (E : formatSignatureForECRecover body =
                  formatSignatureForECRecover (lit "0x" ++ body)).
      { unfold formatSignatureForECRecover.
        rewrite (remove_first_hex_text body Hh).
        change (remove_first (lit "0x") (lit "0x" ++ body)) with body.
        reflexivity. }
      rewrite E, Hb. now apply formatSignatureForECRecover_text.
Qed.

Lemma normalized_v_text_NaN (vv : str) :
  parseInt16 vv = None -> normalized_v_text vv = lit "NaN".
Proof. intros H. unfold normalized_v_text. now rewrite H. Qed.



(** ** Creation of typed-data authorizations *)

Lemma typed_data_digest
    (wallet : Wallet) (d : Domain) (name : str) (ds fb tb nb : bytes)
    (from to : str) (value validAfter validBefore : Z) :
  hashDomain d = Some ds ->
  hexToBytes from = Some fb -> length fb = 20 ->
  hexToBytes to = Some tb -> length tb = 20 ->
  length nb = 32 ->
  Spec.uint256_range value -> Spec.uint256_range validAfter ->
  Spec.uint256_range validBefore ->
  signTypedData wallet d name authorization_fields
    (message_values from to value validAfter validBefore nb) =
  Return (serialized
            (wallet_key wallet
               (Spec.digest ds (typed_typeHash name) fb tb value validAfter
                  validBefore nb))).
Proof.
  intros Hd Hf Hfl Ht Htl Hnl Hv Hva Hvb.
  unfold signTypedData, typedDataHash.
  rewrite Hd.
  rewrite (@hashStruct_authorization name fb tb nb from to value validAfter
             validBefore Hf Hfl Ht Htl Hnl Hv Hva Hvb).
  reflexivity.
Qed.

Lemma typed_typeHash_transfer :
  typed_typeHash (lit "TransferWithAuthorization") = Spec.transfer_typeHash.
Proof. unfold typed_typeHash. now rewrite encodeType_transfer. Qed.

Lemma typed_typeHash_receive :
  typed_typeHash (lit "ReceiveWithAuthorization") = Spec.receive_typeHash.
Proof. unfold typed_typeHash. now rewrite encodeType_receive. Qed.

Lemma uint256_range_zero : Spec.uint256_range 0.
Proof. unfold Spec.uint256_range. lia. Qed.

Ltac run_monad :=
  unfold bind, ask, request, lift, ret, throw; cbn [fst snd].


Lemma example_creation_ready :
  creation_ready example_world payer_address receiver_address usdc_address
    example_domain_separator payer_bytes receiver_bytes.
Proof. split; vm_compute; reflexivity. Qed.

Lemma example_now_in_range :
  Spec.uint256_range (Date_now_seconds example_world + 24 * 60 * 60).
Proof. unfold Spec.uint256_range. cbn. lia. Qed.

Lemma example_value_in_range : Spec.uint256_range 50000000.
Proof. unfold Spec.uint256_range. lia. Qed.


(** ** Creation followed by execution *)

Lemma transfer_too_early (this : RunTransferExample.FiatTokenSender)
    (a : Authorization) (w : World) (tr : Trace) :
  (Date_now_seconds w < auth_validAfter a)%Z ->
  RunTransferExample.transferWithAuthorization this a w tr =
  (Throw not_yet_valid, tr ++ [EvDateNow]).
Proof.
  intros H. rewrite transfer_run.
  destruct (Z.ltb_spec (Date_now_seconds w) (auth_validAfter a)); [reflexivity|lia].
Qed.

Lemma transfer_too_late (this : RunTransferExample.FiatTokenSender)
    (a : Authorization) (w : World) (tr : Trace) :
  (auth_validAfter a <= Date_now_seconds w)%Z ->
  (Date_now_seconds w > auth_validBefore a)%Z ->
  RunTransferExample.transferWithAuthorization this a w tr =
  (Throw has_expired, tr ++ [EvDateNow]).
Proof.
  intros H1 H2. rewrite transfer_run.
  destruct (Z.ltb_spec (Date_now_seconds w) (auth_validAfter a)); [lia|].
  destruct (Z.gtb_spec (Date_now_seconds w) (auth_validBefore a)); [reflexivity|lia].
Qed.

Lemma transfer_in_window (this : RunTransferExample.FiatTokenSender)
    (a : Authorization) (w : World) (tr : Trace) :
  (auth_validAfter a <= Date_now_seconds w <= auth_validBefore a)%Z ->
  authorizationState w (auth_from a) (auth_nonce a) = false ->
  RunTransferExample.transferWithAuthorization this a w tr =
  send_and_wait (call_of transferWithAuthorization_method a None) w
    ((tr ++ [EvDateNow]) ++ [EvAuthorizationState (auth_from a) (auth_nonce a)]).
Proof.
  intros H Hu. rewrite transfer_run, Hu.
  destruct (Z.ltb_spec (Date_now_seconds w) (auth_validAfter a)); [lia|].
  destruct (Z.gtb_spec (Date_now_seconds w) (auth_validBefore a)); [lia|].
  reflexivity.
Qed.

Lemma createTransferAuthorization_returns
    (holderSigner : Wallet) (recipientAddress amount contractAddress : str)
    (w : World) (tr tr1 : Trace) (a : Authorization) :
  RunTransferExample.createTransferAuthorization holderSigner recipientAddress
    amount contractAddress w tr = (Return a, tr1) ->
  exists value signature,
    a = mkAuthorization (wallet_address holderSigner) recipientAddress value 0
          (Date_now_seconds w + 24 * 60 * 60) (randomBytes32 w) signature /\
    tr1 = tr ++ creation_requests.
Proof.
  unfold RunTransferExample.createTransferAuthorization. run_monad.
  destruct (parseUnits amount 6) as [v|m]; [|discriminate].
  destruct (signTypedData _ _ _ _ _) as [sg|m]; [|discriminate].
  intros H. injection H as <- <-. exists v, sg.
  unfold creation_requests. now rewrite <- !app_assoc.
Qed.

(** X5. An authorization returned by [createTransferAuthorization] is
    valid from time 0 until 24 hours after the clock reading, carries
    the nonce drawn from the random source, and was created without
    submitting anything; executed by [transferWithAuthorization] at any
    clock value from 0 to that end, with its nonce unused, it passes the
    checks and its contract call is submitted with exactly its fields. *)
Theorem created_transfer_is_executable_for_a_day
    (holderSigner : Wallet) (recipientAddress amount contractAddress : str)
    (w : World) (tr tr1 : Trace) (a : Authorization) :
  RunTransferExample.createTransferAuthorization holderSigner recipientAddress
    amount contractAddress w tr = (Return a, tr1) ->
  auth_from a = wallet_address holderSigner /\
  auth_to a = recipientAddress /\
  auth_validAfter a = 0%Z /\
  auth_validBefore a = (Date_now_seconds w + 86400)%Z /\
  auth_nonce a = randomBytes32 w /\
  tr1 = tr ++ creation_requests /\
  forall (this : RunTransferExample.FiatTokenSender) (w2 : World) (tr2 : Trace),
    (0 <= Date_now_seconds w2 <= Date_now_seconds w + 86400)%Z ->
    authorizationState w2 (auth_from a) (auth_nonce a) = false ->
    RunTransferExample.transferWithAuthorization this a w2 tr2 =
      send_and_wait (call_of transferWithAuthorization_method a None) w2
        ((tr2 ++ [EvDateNow]) ++ [EvAuthorizationState (auth_from a) (auth_nonce a)]) /\
    submitted (snd (RunTransferExample.transferWithAuthorization this a w2 tr2)) = true.
Proof.
  intros H.
  destruct (createTransferAuthorization_returns _ _ _ _ _ _ H)
    as (value & signature & -> & ->).
  cbn [auth_from auth_to auth_validAfter auth_validBefore auth_nonce].
  repeat (split; [reflexivity|]).
  intros this w2 tr2 Hnow Hunused.
  assert (Hrun : RunTransferExample.transferWithAuthorization this
            (mkAuthorization (wallet_address holderSigner) recipientAddress value 0
               (Date_now_seconds w + 24 * 60 * 60) (randomBytes32 w) signature) w2 tr2 =
          send_and_wait
            (call_of transferWithAuthorization_method
               (mkAuthorization (wallet_address holderSigner) recipientAddress value 0
                  (Date_now_seconds w + 24 * 60 * 60) (randomBytes32 w) signature) None)
            w2 ((tr2 ++ [EvDateNow]) ++
                [EvAuthorizationState (wallet_address holderSigner) (randomBytes32 w)])).
  { apply transfer_in_window; [cbn; lia|exact Hunused]. }
  split; [exact Hrun|]. rewrite Hrun. apply send_and_wait_submits.
Qed.

(** Under the creation preconditions the runnable creator returns, with
    the serialized signature of the EIP-712 digest. *)
Lemma createTransferAuthorization_ready
    (holderSigner : Wallet) (recipientAddress amount contractAddress : str)
    (w : World) (tr : Trace) (value : Z) (ds fb tb : bytes) :
  creation_ready w (wallet_address holderSigner) recipientAddress contractAddress
    ds fb tb ->
  parseUnits amount 6 = Return value -> Spec.uint256_range value ->
  Spec.uint256_range (Date_now_seconds w + 24 * 60 * 60) ->
  RunTransferExample.createTransferAuthorization holderSigner recipientAddress
    amount contractAddress w tr =
  (Return (mkAuthorization (wallet_address holderSigner) recipientAddress value 0
             (Date_now_seconds w + 24 * 60 * 60) (randomBytes32 w)
             (serialized
                (wallet_key holderSigner
                   (Spec.digest ds Spec.transfer_typeHash fb tb value 0
                      (Date_now_seconds w + 24 * 60 * 60) (randomBytes32 w))))),
   tr ++ creation_requests).
Proof.
  intros [Hd Hf Hfl Ht Htl Hnl] Hp Hv Hvb.
  unfold RunTransferExample.createTransferAuthorization. run_monad.
  rewrite Hp.
  rewrite (@typed_data_digest holderSigner _ (lit "TransferWithAuthorization")
             ds fb tb (randomBytes32 w) (wallet_address holderSigner)
             recipientAddress value 0 (Date_now_seconds w + 24 * 60 * 60)
             Hd Hf Hfl Ht Htl Hnl Hv uint256_range_zero Hvb).
  rewrite typed_typeHash_transfer.
  unfold creation_requests. now rewrite <- !app_assoc.
Qed.

Lemma created_transfer_is_executable_for_a_day_witness :
  exists a tr1,
    RunTransferExample.createTransferAuthorization payer_wallet receiver_address
      (lit "50") usdc_address example_world [] = (Return a, tr1) /\
    (0 <= Date_now_seconds example_world <= Date_now_seconds example_world + 86400)%Z /\
    authorizationState example_world (auth_from a) (auth_nonce a) = false /\
    submitted (snd (RunTransferExample.transferWithAuthorization example_sender a
                      example_world tr1)) = true.
Proof.
  pose proof (@createTransferAuthorization_ready payer_wallet receiver_address
                (lit "50") usdc_address example_world [] 50000000
                example_domain_separator payer_bytes receiver_bytes
                example_creation_ready eq_refl example_value_in_range
                example_now_in_range) as E.
  eexists _, _. split; [exact E|].
  assert (Hnow : (0 <= Date_now_seconds example_world
                    <= Date_now_seconds example_world + 86400)%Z) by (cbn; lia).
  split; [exact Hnow|]. split; [reflexivity|].
  destruct (created_transfer_is_executable_for_a_day _ _ _ _ _ _ E)
    as (_ & _ & _ & _ & _ & _ & Hexec).
  exact (proj2 (Hexec example_sender example_world _ Hnow eq_refl)).
Defined.

Lemma createScheduledTransferAuthorization_returns
    (holderSigner : Wallet) (recipientAddress amount contractAddress : str)
    (executeAfter : Z) (w : World) (tr tr1 : Trace) (a : Authorization) :
  createScheduledTransferAuthorization holderSigner recipientAddress amount
    contractAddress executeAfter w tr = (Return a, tr1) ->
  exists value signature,
    a = mkAuthorization (wallet_address holderSigner) recipientAddress value
          executeAfter (executeAfter + 24 * 60 * 60) (randomBytes32 w) signature /\
    tr1 = tr ++ [EvName; EvGetNetwork; EvRandomBytes].
Proof.
  unfold createScheduledTransferAuthorization. run_monad.
  destruct (parseUnits amount 6) as [v|m]; [|discriminate].
  destruct (signTypedData _ _ _ _ _) as [sg|m]; [|discriminate].
  intros H. injection H as <- <-. exists v, sg.
  now rewrite <- !app_assoc.
Qed.

(** X6. An authorization returned by
    [createScheduledTransferAuthorization] for the time [executeAfter]
    is created without reading the clock; [transferWithAuthorization]
    throws "not yet valid" at every clock value before [executeAfter],
    submits the call at every clock value of the following 24 hours when
    the nonce is unused, and throws "expired" afterwards. *)
Theorem scheduled_transfer_window
    (holderSigner : Wallet) (recipientAddress amount contractAddress : str)
    (executeAfter : Z) (w : World) (tr tr1 : Trace) (a : Authorization) :
  createScheduledTransferAuthorization holderSigner recipientAddress amount
    contractAddress executeAfter w tr = (Return a, tr1) ->
  tr1 = tr ++ [EvName; EvGetNetwork; EvRandomBytes] /\
  forall (this : RunTransferExample.FiatTokenSender) (w2 : World) (tr2 : Trace),
    let run := RunTransferExample.transferWithAuthorization this a w2 tr2 in
    ((Date_now_seconds w2 < executeAfter)%Z ->
       run = (Throw not_yet_valid, tr2 ++ [EvDateNow])) /\
    ((executeAfter <= Date_now_seconds w2 <= executeAfter + 86400)%Z ->
       authorizationState w2 (auth_from a) (auth_nonce a) = false ->
       submitted (snd run) = true) /\
    ((Date_now_seconds w2 > executeAfter + 86400)%Z ->
       run = (Throw has_expired, tr2 ++ [EvDateNow])).
Proof.
  intros H.
  destruct (createScheduledTransferAuthorization_returns _ _ _ _ _ _ _ H)
    as (value & signature & -> & ->).
  split; [reflexivity|].
  intros this w2 tr2. cbv zeta. split; [|split].
  - intros Hearly. apply transfer_too_early. cbn. exact Hearly.
  - intros Hwin Hunused.
    rewrite transfer_in_window; [apply send_and_wait_submits|cbn; lia|exact Hunused].
  - intros Hlate. apply transfer_too_late; cbn; lia.
Qed.

Lemma createScheduledTransferAuthorization_ready
    (holderSigner : Wallet) (recipientAddress amount contractAddress : str)
    (executeAfter : Z) (w : World) (tr : Trace) (value : Z) (ds fb tb : bytes) :
  creation_ready w (wallet_address holderSigner) recipientAddress contractAddress
    ds fb tb ->
  parseUnits amount 6 = Return value -> Spec.uint256_range value ->
  Spec.uint256_range executeAfter ->
  Spec.uint256_range (executeAfter + 24 * 60 * 60) ->
  createScheduledTransferAuthorization holderSigner recipientAddress amount
    contractAddress executeAfter w tr =
  (Return (mkAuthorization (wallet_address holderSigner) recipientAddress value
             executeAfter (executeAfter + 24 * 60 * 60) (randomBytes32 w)
             (serialized
                (wallet_key holderSigner
                   (Spec.digest ds Spec.transfer_typeHash fb tb value executeAfter
                      (executeAfter + 24 * 60 * 60) (randomBytes32 w))))),
   tr ++ [EvName; EvGetNetwork; EvRandomBytes]).
Proof.
  intros [Hd Hf Hfl Ht Htl Hnl] Hp Hv Hva Hvb.
  unfold createScheduledTransferAuthorization. run_monad.
  rewrite Hp.
  rewrite (@typed_data_digest holderSigner _ (lit "TransferWithAuthorization")
             ds fb tb (randomBytes32 w) (wallet_address holderSigner)
             recipientAddress value executeAfter (executeAfter + 24 * 60 * 60)
             Hd Hf Hfl Ht Htl Hnl Hv Hva Hvb).
  rewrite typed_typeHash_transfer.
  now rewrite <- !app_assoc.
Qed.

Lemma example_schedule_in_range :
  Spec.uint256_range 1515 /\ Spec.uint256_range (1515 + 24 * 60 * 60) /\
  Spec.uint256_range 25000000.
Proof. unfold Spec.uint256_range. lia. Qed.

Lemma scheduled_transfer_window_witness :
  exists a tr1,
    createScheduledTransferAuthorization payer_wallet receiver_address (lit "25")
      usdc_address 1515 example_world [] = (Return a, tr1) /\
    (Date_now_seconds example_world < 1515)%Z /\
    RunTransferExample.transferWithAuthorization example_sender a example_world tr1 =
      (Throw not_yet_valid, tr1 ++ [EvDateNow]).
Proof.
  destruct example_schedule_in_range as (H1 & H2 & H3).
  pose proof (@createScheduledTransferAuthorization_ready payer_wallet
                receiver_address (lit "25") usdc_address 1515 example_world []
                25000000 example_domain_separator payer_bytes receiver_bytes
                example_creation_ready eq_refl H3 H1 H2) as E.
  eexists _, _. split; [exact E|].
  assert (Hearly : (Date_now_seconds example_world < 1515)%Z) by (cbn; lia).
  split; [exact Hearly|].
  destruct (scheduled_transfer_window _ _ _ _ _ _ _ E) as [_ Hexec].
  exact (proj1 (Hexec example_sender example_world _) Hearly).
Defined.

(** ** The block-time helper [executeTransferWithAuth] *)

Lemma execute_after_preflight
    (this : WorkingTransferExample.WorkingFiatTokenSender)
    (a : Authorization) (w : World) (tr : Trace) :
  preflight_passes a w ->
  WorkingTransferExample.executeTransferWithAuth this a w tr =
  try_catch
    (let c := call_of transferWithAuthorization_method a None in
     bind (request (EvEstimateGas c) (fun w => estimateGas w c))
       (fun gasEstimate =>
          send_and_wait
            (call_of transferWithAuthorization_method a
               (Some (Z.quot (gasEstimate * 120) 100)))))
    (fun error =>
       bind (if includes (lit "invalid signature") error
             then bind (ask EvDomainSeparator DOMAIN_SEPARATOR) (fun _ => ret tt)
             else ret tt)
            (fun _ => throw error))
    w (tr ++ preflight_requests a).
Proof.
  intros (Htime & Hunused & Hbal).
  destruct a as [from to value validAfter validBefore nonce signature].
  cbn [auth_validAfter auth_validBefore auth_from auth_nonce auth_value] in *.
  unfold WorkingTransferExample.executeTransferWithAuth,
    WorkingTransferExample.getCurrentBlockTimestamp, preflight_requests.
  unfold bind at 1 2 3. unfold ask, request. cbn [auth_from auth_nonce].
  destruct (Z.ltb_spec (latest_block_timestamp w) (validAfter - 60)); [lia|].
  destruct (Z.gtb_spec (latest_block_timestamp w) validBefore); [lia|].
  unfold bind at 1. rewrite Hunused.
  unfold bind at 1.
  destruct (Z.ltb_spec (balanceOf w from) value); [lia|].
  rewrite <- !app_assoc. reflexivity.
Qed.

(** X7. When the pre-flight conditions hold (in particular already 60
    seconds before [validAfter]) and estimate, submission and
    confirmation succeed, [executeTransferWithAuth] returns the receipt
    of the submitted transaction after exactly six requests, and the
    call is submitted with a gas limit of 120 percent of the estimate,
    rounded down. *)
Theorem execute_success_uses_estimate_plus_fifth
    (this : WorkingTransferExample.WorkingFiatTokenSender)
    (a : Authorization) (w : World) (tr : Trace)
    (gasEstimate : Z) (tx : str) (receipt : Receipt) :
  preflight_passes a w ->
  estimateGas w (call_of transferWithAuthorization_method a None) = Return gasEstimate ->
  let c := call_of transferWithAuthorization_method a
             (Some (Z.quot (gasEstimate * 120) 100)) in
  sendTransaction w c = Return tx ->
  waitForReceipt w tx = Return receipt ->
  WorkingTransferExample.executeTransferWithAuth this a w tr =
  (Return receipt,
   tr ++ preflight_requests a ++
     [EvEstimateGas (call_of transferWithAuthorization_method a None);
      EvSend c; EvWait tx]).
Proof.
  intros Hpre Hest c Hsend Hwait.
  rewrite (@execute_after_preflight this a w tr Hpre).
  unfold try_catch, send_and_wait, bind, request, ret. cbv zeta.
  rewrite Hest. fold c. rewrite Hsend, Hwait.
  now rewrite <- !app_assoc.
Qed.

Lemma execute_success_uses_estimate_plus_fifth_witness :
  preflight_passes (example_authorization receiver_address) example_world /\
  WorkingTransferExample.executeTransferWithAuth example_executor
    (example_authorization receiver_address) example_world [] =
  (Return example_receipt,
   [] ++ preflight_requests (example_authorization receiver_address) ++
     [EvEstimateGas (call_of transferWithAuthorization_method
                       (example_authorization receiver_address) None);
      EvSend (call_of transferWithAuthorization_method
                (example_authorization receiver_address) (Some 60000%Z));
      EvWait (hexlify (repeat x55 32))]).
Proof.
  assert (Hpre : preflight_passes (example_authorization receiver_address) example_world).
  { unfold preflight_passes. cbn. repeat split; try reflexivity; lia. }
  split; [exact Hpre|].
  exact (@execute_success_uses_estimate_plus_fifth example_executor
           (example_authorization receiver_address) example_world [] 50000
           (hexlify (repeat x55 32)) example_receipt Hpre eq_refl eq_refl eq_refl).
Defined.

(** X8. A balance below the value makes [executeTransferWithAuth] throw
    "Insufficient balance" after the three pre-flight requests: no gas
    estimate is asked for and nothing is submitted. *)
Theorem execute_insufficient_balance
    (this : WorkingTransferExample.WorkingFiatTokenSender)
    (a : Authorization) (w : World) (tr : Trace) :
  (auth_validAfter a - 60 <= latest_block_timestamp w <= auth_validBefore a)%Z ->
  authorizationState w (auth_from a) (auth_nonce a) = false ->
  (balanceOf w (auth_from a) < auth_value a)%Z ->
  WorkingTransferExample.executeTransferWithAuth this a w tr =
  (Throw (WorkingTransferExample.insufficient_balance
            (balanceOf w (auth_from a)) (auth_value a)),
   tr ++ preflight_requests a).
Proof.
  intros Htime Hunused Hbal.
  destruct a as [from to value validAfter validBefore nonce signature].
  cbn [auth_validAfter auth_validBefore auth_from auth_nonce auth_value] in *.
  unfold WorkingTransferExample.executeTransferWithAuth,
    WorkingTransferExample.getCurrentBlockTimestamp, preflight_requests.
  unfold bind at 1 2 3. unfold ask, request, throw. cbn [auth_from auth_nonce].
  destruct (Z.ltb_spec (latest_block_timestamp w) (validAfter - 60)); [lia|].
  destruct (Z.gtb_spec (latest_block_timestamp w) validBefore); [lia|].
  unfold bind at 1. rewrite Hunused.
  unfold bind at 1.
  destruct (Z.ltb_spec (balanceOf w from) value); [|lia].
  now rewrite <- !app_assoc.
Qed.

Lemma execute_insufficient_balance_witness :
  ((auth_validAfter (example_authorization receiver_address) - 60
      <= latest_block_timestamp poor_world
      <= auth_validBefore (example_authorization receiver_address))%Z /\
   authorizationState poor_world (auth_from (example_authorization receiver_address))
     (auth_nonce (example_authorization receiver_address)) = false /\
   (balanceOf poor_world (auth_from (example_authorization receiver_address))
      < auth_value (example_authorization receiver_address))%Z) /\
  WorkingTransferExample.executeTransferWithAuth example_executor
    (example_authorization receiver_address) poor_world [] =
  (Throw (lit "Insufficient balance. Has: 1.0 USDC, Needs: 50.0 USDC"),
   preflight_requests (example_authorization receiver_address)).
Proof.
  assert (H1 : (auth_validAfter (example_authorization receiver_address) - 60
      <= latest_block_timestamp poor_world
      <= auth_validBefore (example_authorization receiver_address))%Z) by (cbn; lia).
  assert (H3 : (balanceOf poor_world (auth_from (example_authorization receiver_address))
      < auth_value (example_authorization receiver_address))%Z) by (cbn; lia).
  split; [repeat split; try reflexivity; apply H1 || exact H3|].
  exact (@execute_insufficient_balance example_executor
           (example_authorization receiver_address) poor_world [] H1 eq_refl H3).
Defined.

(** X9. After a passed pre-flight, an error of the gas estimate or of
    the submission is thrown on by [executeTransferWithAuth] with its
    message unchanged; the domain separator is read for diagnosis
    exactly when the message contains "invalid signature"; when the
    estimate fails, nothing is submitted. *)
Theorem execute_rethrows_contract_errors
    (this : WorkingTransferExample.WorkingFiatTokenSender)
    (a : Authorization) (w : World) (tr : Trace) :
  preflight_passes a w ->
  let c0 := call_of transferWithAuthorization_method a None in
  (forall m, estimateGas w c0 = Throw m ->
     WorkingTransferExample.executeTransferWithAuth this a w tr =
     (Throw m,
      tr ++ preflight_requests a ++ [EvEstimateGas c0] ++ diagnosis_requests m)) /\
  (forall g m,
     estimateGas w c0 = Return g ->
     let c := call_of transferWithAuthorization_method a
                (Some (Z.quot (g * 120) 100)) in
     sendTransaction w c = Throw m ->
     WorkingTransferExample.executeTransferWithAuth this a w tr =
     (Throw m,
      tr ++ preflight_requests a ++ [EvEstimateGas c0; EvSend c] ++
        diagnosis_requests m)).
Proof.
  intros Hpre c0. split.
  - intros m Hest.
    rewrite (@execute_after_preflight this a w tr Hpre).
    unfold try_catch, bind, request, ask, ret, throw, diagnosis_requests. cbv zeta.
    fold c0. rewrite Hest.
    destruct (includes (lit "invalid signature") m);
      cbn; rewrite <- !app_assoc; reflexivity.
  - intros g m Hest c Hsend.
    rewrite (@execute_after_preflight this a w tr Hpre).
    unfold try_catch, send_and_wait, bind, request, ask, ret, throw,
      diagnosis_requests. cbv zeta.
    fold c0. rewrite Hest. fold c. rewrite Hsend.
    destruct (includes (lit "invalid signature") m);
      cbn; rewrite <- !app_assoc; reflexivity.
Qed.

Lemma execute_rethrows_contract_errors_witness :
  preflight_passes (example_authorization receiver_address)
    (failing_estimate_world (lit "FiatTokenV2: invalid signature")) /\
  WorkingTransferExample.executeTransferWithAuth example_executor
    (example_authorization receiver_address)
    (failing_estimate_world (lit "FiatTokenV2: invalid signature")) [] =
  (Throw (lit "FiatTokenV2: invalid signature"),
   [] ++ preflight_requests (example_authorization receiver_address) ++
     [EvEstimateGas (call_of transferWithAuthorization_method
                       (example_authorization receiver_address) None)] ++
     [EvDomainSeparator]).
Proof.
  assert (Hpre : preflight_passes (example_authorization receiver_address)
                   (failing_estimate_world (lit "FiatTokenV2: invalid signature"))).
  { unfold preflight_passes. cbn. repeat split; try reflexivity; lia. }
  split; [exact Hpre|].
  exact (proj1 (@execute_rethrows_contract_errors example_executor
                  (example_authorization receiver_address)
                  (failing_estimate_world (lit "FiatTokenV2: invalid signature"))
                  [] Hpre)
               (lit "FiatTokenV2: invalid signature") eq_refl).
Defined.

(** ** The clock-based helpers: order and propagation *)

(** X11. In [transferWithAuthorization] and, after the recipient check,
    in [receiveWithAuthorization], a clock value outside the window ends
    the run after the clock reading alone: the nonce state is not asked
    for, so an expired authorization whose nonce is used is reported as
    expired, not as used. *)
Theorem window_failure_asks_no_nonce
    (a : Authorization) (w : World) (tr : Trace) :
  authorizationState w (auth_from a) (auth_nonce a) = true ->
  (forall this : RunTransferExample.FiatTokenSender,
     ((Date_now_seconds w < auth_validAfter a)%Z ->
        RunTransferExample.transferWithAuthorization this a w tr =
        (Throw not_yet_valid, tr ++ [EvDateNow])) /\
     ((auth_validAfter a <= Date_now_seconds w)%Z ->
      (Date_now_seconds w > auth_validBefore a)%Z ->
        RunTransferExample.transferWithAuthorization this a w tr =
        (Throw has_expired, tr ++ [EvDateNow])) /\
     ((auth_validAfter a <= Date_now_seconds w <= auth_validBefore a)%Z ->
        RunTransferExample.transferWithAuthorization this a w tr =
        (Throw already_used,
         tr ++ [EvDateNow; EvAuthorizationState (auth_from a) (auth_nonce a)]))) /\
  (forall this : RunReceiveExample.FiatTokenReceiver,
     same_address (auth_to a) (wallet_address (RunReceiveExample.receiverSigner this)) ->
     ((Date_now_seconds w < auth_validAfter a)%Z ->
        RunReceiveExample.receiveWithAuthorization this a w tr =
        (Throw not_yet_valid, tr ++ [EvDateNow])) /\
     ((auth_validAfter a <= Date_now_seconds w)%Z ->
      (Date_now_seconds w > auth_validBefore a)%Z ->
        RunReceiveExample.receiveWithAuthorization this a w tr =
        (Throw has_expired, tr ++ [EvDateNow])) /\
     ((auth_validAfter a <= Date_now_seconds w <= auth_validBefore a)%Z ->
        RunReceiveExample.receiveWithAuthorization this a w tr =
        (Throw already_used,
         tr ++ [EvDateNow; EvAuthorizationState (auth_from a) (auth_nonce a)]))).
Proof.
  intros Hused. split.
  - intros this. rewrite transfer_run, Hused.
    destruct (Z.ltb_spec (Date_now_seconds w) (auth_validAfter a));
      destruct (Z.gtb_spec (Date_now_seconds w) (auth_validBefore a));
      repeat split; intros; try lia; try reflexivity;
      now rewrite <- app_assoc.
  - intros this Hsame. rewrite (receive_run this a w tr Hsame), Hused.
    destruct (Z.ltb_spec (Date_now_seconds w) (auth_validAfter a));
      destruct (Z.gtb_spec (Date_now_seconds w) (auth_validBefore a));
      repeat split; intros; try lia; try reflexivity;
      now rewrite <- app_assoc.
Qed.

Lemma window_failure_asks_no_nonce_witness :
  authorizationState used_world (auth_from (expired_authorization receiver_address))
    (auth_nonce (expired_authorization receiver_address)) = true /\
  (auth_validAfter (expired_authorization receiver_address)
     <= Date_now_seconds used_world)%Z /\
  (Date_now_seconds used_world
     > auth_validBefore (expired_authorization receiver_address))%Z /\
  RunTransferExample.transferWithAuthorization example_sender
    (expired_authorization receiver_address) used_world [] =
  (Throw has_expired, [] ++ [EvDateNow]).
Proof.
  assert (H1 : (auth_validAfter (expired_authorization receiver_address)
                  <= Date_now_seconds used_world)%Z) by (cbn; lia).
  assert (H2 : (Date_now_seconds used_world
                  > auth_validBefore (expired_authorization receiver_address))%Z)
    by (cbn; lia).
  split; [reflexivity|]. split; [exact H1|]. split; [exact H2|].
  exact (proj1 (proj2 (proj1 (@window_failure_asks_no_nonce
                                (expired_authorization receiver_address)
                                used_world [] eq_refl) example_sender)) H1 H2).
Defined.

(** X12. Inside the window and with an unused nonce,
    [transferWithAuthorization] submits one call that carries the seven
    fields of the authorization and no gas limit; a revert of the
    submission is thrown on unchanged and nothing is awaited; otherwise
    the helper returns (or throws) exactly what the confirmation of that
    transaction gives. *)
Theorem transfer_outcome_is_the_contracts
    (this : RunTransferExample.FiatTokenSender)
    (a : Authorization) (w : World) (tr : Trace) :
  (auth_validAfter a <= Date_now_seconds w <= auth_validBefore a)%Z ->
  authorizationState w (auth_from a) (auth_nonce a) = false ->
  let c := mkCall transferWithAuthorization_method (auth_from a) (auth_to a)
             (auth_value a) (auth_validAfter a) (auth_validBefore a)
             (auth_nonce a) (auth_signature a) None in
  let run := RunTransferExample.transferWithAuthorization this a w tr in
  (forall m, sendTransaction w c = Throw m ->
     run = (Throw m, tr ++ check_requests a ++ [EvSend c])) /\
  (forall tx, sendTransaction w c = Return tx ->
     run = (waitForReceipt w tx, tr ++ check_requests a ++ [EvSend c; EvWait tx])).
Proof.
  intros Hwin Hunused c run. subst run.
  rewrite (@transfer_in_window this a w tr Hwin Hunused).
  change (call_of transferWithAuthorization_method a None) with c.
  unfold send_and_wait, bind, request, ret, check_requests.
  split.
  - intros m Hsend. rewrite Hsend. now rewrite <- !app_assoc.
  - intros tx Hsend. rewrite Hsend.
    destruct (waitForReceipt w tx); now rewrite <- !app_assoc.
Qed.

Lemma transfer_outcome_is_the_contracts_witness :
  ((auth_validAfter (example_authorization receiver_address)
      <= Date_now_seconds (reverting_world (lit "FiatTokenV2: invalid signature"))
      <= auth_validBefore (example_authorization receiver_address))%Z /\
   authorizationState (reverting_world (lit "FiatTokenV2: invalid signature"))
     (auth_from (example_authorization receiver_address))
     (auth_nonce (example_authorization receiver_address)) = false) /\
  RunTransferExample.transferWithAuthorization example_sender
    (example_authorization receiver_address)
    (reverting_world (lit "FiatTokenV2: invalid signature")) [] =
  (Throw (lit "FiatTokenV2: invalid signature"),
   [] ++ check_requests (example_authorization receiver_address) ++
     [EvSend (call_of transferWithAuthorization_method
                (example_authorization receiver_address) None)]).
Proof.
  assert (Hwin : (auth_validAfter (example_authorization receiver_address)
      <= Date_now_seconds (reverting_world (lit "FiatTokenV2: invalid signature"))
      <= auth_validBefore (example_authorization receiver_address))%Z) by (cbn; lia).
  split; [split; [exact Hwin|reflexivity]|].
  exact (proj1 (@transfer_outcome_is_the_contracts example_sender
                  (example_authorization receiver_address)
                  (reverting_world (lit "FiatTokenV2: invalid signature")) []
                  Hwin eq_refl)
               (lit "FiatTokenV2: invalid signature") eq_refl).
Defined.

(** ** Creation and execution with the block-time helper *)

Lemma createTransferAuthSignature_returns
    (this : WorkingTransferExample.WorkingFiatTokenSender) (holderSigner : Wallet)
    (recipientAddress amount : str) (validAfterSeconds validForHours : Z)
    (w : World) (tr tr1 : Trace) (a : Authorization) :
  WorkingTransferExample.createTransferAuthSignature this holderSigner
    recipientAddress amount validAfterSeconds validForHours w tr = (Return a, tr1) ->
  exists value signature,
    a = mkAuthorization (wallet_address holderSigner) recipientAddress value
          (Z.max 0 (latest_block_timestamp w - 60 + validAfterSeconds))
          (Z.max 0 (latest_block_timestamp w - 60 + validAfterSeconds)
           + validForHours * 3600)
          (randomBytes32 w) signature /\
    tr1 = tr ++ [EvName; EvVersion; EvGetNetwork; EvGetBlock; EvRandomBytes].
Proof.
  unfold WorkingTransferExample.createTransferAuthSignature,
    WorkingTransferExample.getCurrentBlockTimestamp. run_monad.
  destruct (parseUnits amount 6) as [v|m]; [|discriminate].
  destruct (signTypedData _ _ _ _ _) as [sg|m]; [|discriminate].
  intros H. injection H as <- <-. exists v, sg.
  now rewrite <- !app_assoc.
Qed.


Lemma createTransferAuthSignature_ready
    (this : WorkingTransferExample.WorkingFiatTokenSender) (holderSigner : Wallet)
    (recipientAddress amount : str) (validAfterSeconds validForHours : Z)
    (w : World) (tr : Trace) (value : Z) (ds fb tb : bytes) :
  hashDomain (mkDomain (contract_name w) (contract_version w) (network_chainId w)
                (WorkingTransferExample.contractAddress this)) = Some ds ->
  hexToBytes (wallet_address holderSigner) = Some fb -> length fb = 20 ->
  hexToBytes recipientAddress = Some tb -> length tb = 20 ->
  length (randomBytes32 w) = 32 ->
  parseUnits amount 6 = Return value -> Spec.uint256_range value ->
  let validAfter := Z.max 0 (latest_block_timestamp w - 60 + validAfterSeconds) in
  Spec.uint256_range validAfter ->
  Spec.uint256_range (validAfter + validForHours * 3600) ->
  WorkingTransferExample.createTransferAuthSignature this holderSigner
    recipientAddress amount validAfterSeconds validForHours w tr =
  (Return (mkAuthorization (wallet_address holderSigner) recipientAddress value
             validAfter (validAfter + validForHours * 3600) (randomBytes32 w)
             (serialized
                (wallet_key holderSigner
                   (Spec.digest ds Spec.transfer_typeHash fb tb value validAfter
                      (validAfter + validForHours * 3600) (randomBytes32 w))))),
   tr ++ [EvName; EvVersion; EvGetNetwork; EvGetBlock; EvRandomBytes]).
Proof.
  intros Hd Hf Hfl Ht Htl Hnl Hp Hv validAfter Hva Hvb.
  unfold WorkingTransferExample.createTransferAuthSignature,
    WorkingTransferExample.getCurrentBlockTimestamp. run_monad.
  rewrite Hp. fold validAfter.
  rewrite (@typed_data_digest holderSigner _ (lit "TransferWithAuthorization")
             ds fb tb (randomBytes32 w) (wallet_address holderSigner)
             recipientAddress value validAfter (validAfter + validForHours * 3600)
             Hd Hf Hfl Ht Htl Hnl Hv Hva Hvb).
  rewrite typed_typeHash_transfer.
  now rewrite <- !app_assoc.
Qed.

Lemma example_block_ranges :
  Spec.uint256_range 1000000 /\
  Spec.uint256_range (Z.max 0 (latest_block_timestamp example_world - 60 + 0)) /\
  Spec.uint256_range
    (Z.max 0 (latest_block_timestamp example_world - 60 + 0) + 24 * 3600).
Proof. unfold Spec.uint256_range. cbn. lia. Qed.


(** ** The digest-based examples: creation, signing, execution *)

Lemma web3_keccak256_is_hash_text (s : str) :
  exists d, web3_keccak256 s = hexlify d /\ length d = 32.
Proof.
  unfold web3_keccak256.
  destruct (hexToBytes s) as [bs|]; eexists; split;
    try reflexivity; apply keccak256_length.
Qed.

Lemma createDigestAuthorization_returns
    (typehash from to amount : str) (validAfter : Z) (validBefore : option Z)
    (w : World) (tr tr1 : Trace) (a : DigestAuthorization) :
  createDigestAuthorization typehash from to amount validAfter validBefore w tr =
    (Return a, tr1) ->
  let defaulted :=
    match validBefore with
    | Some vb => (vb =? 0)%Z
    | None => true
    end in
  exists value sh d,
    a = mkDigestAuthorization from to value validAfter
          (if defaulted then Date_now_seconds w + 3600
           else match validBefore with Some vb => vb | None => 0 end)%Z
          (randomBytes32 w) (hexlify d) (DOMAIN_SEPARATOR w) (hexlify sh) None /\
    length d = 32 /\ length sh = 32 /\
    parseUnits amount 6 = Return value /\
    tr1 = tr ++ (if defaulted then [EvDateNow] else []) ++
                [EvRandomBytes; EvDomainSeparator].
Proof.
  unfold createDigestAuthorization. cbv zeta.
  destruct validBefore as [vb|]; [destruct (vb =? 0)%Z|]; run_monad;
    (destruct (parseUnits amount 6) as [v|m]; [|discriminate]);
    (destruct (encodeParameters _ _) as [encoded|]; [|discriminate]);
    intros H; injection H as <- <-;
    destruct (web3_keccak256_is_hash_text encoded) as (sh & Hsh & Hshl);
    match goal with
    | |- context [mkDigestAuthorization _ _ _ _ _ _ (web3_keccak256 ?t) _ _ _] =>
        destruct (web3_keccak256_is_hash_text t) as (d & Hd & Hdl)
    end;
    exists v, sh, d; rewrite Hd, Hsh;
    (split; [reflexivity|]); (split; [exact Hdl|]); (split; [exact Hshl|]);
    (split; [reflexivity|]); cbn [app]; rewrite <- ?app_assoc; reflexivity.
Qed.

(** X13. [createReceiveAuthorization] and its transfer twin end the
    window one hour after the clock reading when [validBefore] is left
    out, and also when it is given as 0; any other value is kept as it
    is and the clock is not read.  The authorization comes back unsigned,
    with the random nonce, and its digest and struct hash are always the
    texts of 32 bytes. *)
Theorem digest_authorization_window
    (from to amount : str) (validAfter : Z) (validBefore : option Z)
    (w : World) (tr tr1 : Trace) (a : DigestAuthorization) :
  WorkingReceiveExample.createReceiveAuthorization from to amount validAfter
    validBefore w tr = (Return a, tr1) \/
  CorrectTransferSender.createTransferAuthorization from to amount validAfter
    validBefore w tr = (Return a, tr1) ->
  (validBefore = None \/ validBefore = Some 0%Z ->
     da_validBefore a = (Date_now_seconds w + 3600)%Z /\
     tr1 = tr ++ [EvDateNow; EvRandomBytes; EvDomainSeparator]) /\
  (forall vb, validBefore = Some vb -> vb <> 0%Z ->
     da_validBefore a = vb /\ tr1 = tr ++ [EvRandomBytes; EvDomainSeparator]) /\
  da_validAfter a = validAfter /\ da_nonce a = randomBytes32 w /\
  da_signature a = None /\
  (exists d sh, da_digest a = hexlify d /\ length d = 32 /\
                da_structHash a = hexlify sh /\ length sh = 32).
Proof.
  intros H.
  assert (Hc : exists typehash,
             createDigestAuthorization typehash from to amount validAfter
               validBefore w tr = (Return a, tr1)).
  { destruct H as [H|H];
      [exists RECEIVE_WITH_AUTHORIZATION_TYPEHASH
      |exists TRANSFER_WITH_AUTHORIZATION_TYPEHASH]; exact H. }
  destruct Hc as (typehash & Hc).
  destruct (createDigestAuthorization_returns _ _ _ _ _ _ _ _ Hc)
    as (value & sh & d & -> & Hdl & Hshl & _ & ->).
  cbn [da_validBefore da_validAfter da_nonce da_signature da_digest da_structHash].
  split; [|split].
  - intros [-> | ->]; split; reflexivity.
  - intros vb -> Hne. apply Z.eqb_neq in Hne. rewrite Hne. split; reflexivity.
  - repeat (split; [reflexivity|]). exists d, sh. repeat split; assumption.
Qed.

(** With well-formed addresses, amounts in range and a contract that
    answers with a 32-byte domain separator, the creation returns, for
    a given and for a defaulted end of the window alike. *)
Lemma createDigestAuthorization_ready
    (th ds fb tb : bytes) (from to amount : str)
    (value validAfter : Z) (validBefore : option Z) (w : World) (tr : Trace) :
  length th = 32 ->
  hexToBytes from = Some fb -> length fb = 20 ->
  hexToBytes to = Some tb -> length tb = 20 ->
  length (randomBytes32 w) = 32 ->
  parseUnits amount 6 = Return value ->
  Spec.uint256_range value -> Spec.uint256_range validAfter ->
  DOMAIN_SEPARATOR w = hexlify ds ->
  let defaulted :=
    match validBefore with
    | Some vb => (vb =? 0)%Z
    | None => true
    end in
  let vb :=
    (if defaulted then Date_now_seconds w + 3600
     else match validBefore with Some vb => vb | None => 0 end)%Z in
  Spec.uint256_range vb ->
  createDigestAuthorization (hexlify th) from to amount validAfter validBefore w tr =
  (Return (mkDigestAuthorization from to value validAfter vb (randomBytes32 w)
             (hexlify (Spec.digest ds th fb tb value validAfter vb (randomBytes32 w)))
             (hexlify ds)
             (hexlify (Spec.structHash th fb tb value validAfter vb (randomBytes32 w)))
             None),
   tr ++ (if defaulted then [EvDateNow] else []) ++ [EvRandomBytes; EvDomainSeparator]).
Proof.
  intros Hth Hf Hfl Ht Htl Hnl Hp Hv Hva Hds defaulted vb Hvb.
  assert (Hwords : encodeParameters
            [T_bytes32; T_address; T_address; T_uint256; T_uint256; T_uint256; T_bytes32]
            [JStr (hexlify th); JStr from; JStr to; JNum value; JNum validAfter;
             JNum vb; JBytes (randomBytes32 w)] =
          Some (hexlify (th ++ Spec.abi_address fb ++ Spec.abi_address tb ++
                         Spec.abi_uint256 value ++ Spec.abi_uint256 validAfter ++
                         Spec.abi_uint256 vb ++ randomBytes32 w))).
  { unfold encodeParameters.
    rewrite (@encode_authorization_words th fb tb (randomBytes32 w) from to
               (JBytes (randomBytes32 w)) value validAfter vb);
      try assumption; reflexivity. }
  unfold createDigestAuthorization.
  subst vb defaulted.
  destruct validBefore as [b|]; [destruct (b =? 0)%Z|]; run_monad;
    rewrite Hp, Hds, Hwords;
    rewrite web3_keccak256_hexlify, !remove_first_hexlify, prefixed_hex,
      web3_keccak256_hexlify;
    cbn [app]; rewrite <- ?app_assoc; reflexivity.
Qed.

Lemma example_receive_creation :
  WorkingReceiveExample.createReceiveAuthorization payer_address receiver_address
    (lit "3") 0 None example_world [] =
  (Return (mkDigestAuthorization payer_address receiver_address 3000000 0 5100
             (repeat x44 32)
             (hexlify (Spec.digest (repeat x33 32) Spec.receive_typeHash payer_bytes
                         receiver_bytes 3000000 0 5100 (repeat x44 32)))
             (hexlify (repeat x33 32))
             (hexlify (Spec.structHash Spec.receive_typeHash payer_bytes
                         receiver_bytes 3000000 0 5100 (repeat x44 32)))
             None),
   [EvDateNow; EvRandomBytes; EvDomainSeparator]).
Proof.
  destruct example_creation_ready as [_ Hf Hfl Ht Htl Hnl].
  unfold WorkingReceiveExample.createReceiveAuthorization.
  rewrite receive_typehash_text.
  apply (@createDigestAuthorization_ready Spec.receive_typeHash (repeat x33 32)
           payer_bytes receiver_bytes payer_address receiver_address (lit "3")
           3000000 0 None example_world []);
    try assumption; try reflexivity;
    try (apply keccak256_length); unfold Spec.uint256_range; cbn; lia.
Qed.

Lemma digest_authorization_window_witness :
  exists a tr1,
    (WorkingReceiveExample.createReceiveAuthorization payer_address receiver_address
       (lit "3") 0 None example_world [] = (Return a, tr1) \/
     CorrectTransferSender.createTransferAuthorization payer_address receiver_address
       (lit "3") 0 None example_world [] = (Return a, tr1)) /\
    da_validBefore a = 5100%Z /\
    tr1 = [EvDateNow; EvRandomBytes; EvDomainSeparator].
Proof.
  eexists _, _. split; [left; exact example_receive_creation|].
  destruct (@digest_authorization_window payer_address receiver_address (lit "3")
              0 None example_world [] _ _ (or_introl example_receive_creation))
    as (Hdefault & _).
  exact (Hdefault (or_introl eq_refl)).
Defined.

Lemma normalize_byte_at_least_27 (b : byte) :
  (27 <= Z_of_byte (normalize_byte b))%Z.
Proof. apply Z.leb_le. destruct b; reflexivity. Qed.

(** X14. An authorization returned by [createReceiveAuthorization] (or by
    its transfer twin) can always be signed: its digest is the text of
    32 bytes, [signAuthorization] hands the personal-message hash of
    these bytes to the key and, for a key that answers with 32-byte [r]
    and [s], attaches the 65-byte text of [r], [s] and a recovery byte
    of at least 27, leaving every other field as created. *)
Theorem created_digest_authorization_is_signable
    (from to amount : str) (validAfter : Z) (validBefore : option Z)
    (w : World) (tr tr1 : Trace) (a : DigestAuthorization) (wallet : Wallet) :
  WorkingReceiveExample.createReceiveAuthorization from to amount validAfter
    validBefore w tr = (Return a, tr1) \/
  CorrectTransferSender.createTransferAuthorization from to amount validAfter
    validBefore w tr = (Return a, tr1) ->
  exists d : bytes,
    da_digest a = hexlify d /\ length d = 32 /\
    let sg := wallet_key wallet (hashMessage d) in
    let v := normalize_byte (byte_of_Z (sig_v sg)) in
    (length (sig_r sg) = 32 -> length (sig_s sg) = 32 ->
     (27 <= Z_of_byte v)%Z /\
     length (sig_r sg ++ sig_s sg ++ [v]) = 65 /\
     WorkingReceiveExample.signAuthorization a wallet =
       Return (mkDigestAuthorization from to (da_value a) validAfter
                 (da_validBefore a) (randomBytes32 w) (hexlify d)
                 (DOMAIN_SEPARATOR w) (da_structHash a)
                 (Some (hexlify (sig_r sg ++ sig_s sg ++ [v])))) /\
     CorrectTransferSender.signAuthorization a wallet =
       WorkingReceiveExample.signAuthorization a wallet).
Proof.
  intros H.
  assert (Hc : exists typehash,
             createDigestAuthorization typehash from to amount validAfter
               validBefore w tr = (Return a, tr1)).
  { destruct H as [H|H];
      [exists RECEIVE_WITH_AUTHORIZATION_TYPEHASH
      |exists TRANSFER_WITH_AUTHORIZATION_TYPEHASH]; exact H. }
  destruct Hc as (typehash & Hc).
  destruct (createDigestAuthorization_returns _ _ _ _ _ _ _ _ Hc)
    as (value & sh & d & -> & Hdl & Hshl & _ & _).
  exists d. cbn [da_digest da_value da_validBefore da_structHash].
  split; [reflexivity|]. split; [exact Hdl|].
  cbv zeta. intros Hr Hs. split; [|split; [|split]].
  - apply normalize_byte_at_least_27.
  - rewrite !length_app, Hr, Hs. reflexivity.
  - unfold WorkingReceiveExample.signAuthorization.
    erewrite signAuthorization_signs_hashMessage;
      [reflexivity|apply hexToBytes_hexlify|exact Hr|exact Hs].
  - reflexivity.
Qed.

Lemma created_digest_authorization_is_signable_witness :
  exists a tr1 d signed,
    (WorkingReceiveExample.createReceiveAuthorization payer_address receiver_address
       (lit "3") 0 None example_world [] = (Return a, tr1) \/
     CorrectTransferSender.createTransferAuthorization payer_address receiver_address
       (lit "3") 0 None example_world [] = (Return a, tr1)) /\
    da_digest a = hexlify d /\
    WorkingReceiveExample.signAuthorization a payer_wallet = Return signed /\
    da_signature signed = Some (hexlify (hashMessage d ++ repeat x22 32 ++ [x1b])).
Proof.
  destruct (@created_digest_authorization_is_signable payer_address
              receiver_address (lit "3") 0 None example_world [] _ _ payer_wallet
              (or_introl example_receive_creation))
    as (d & Hd & Hdl & Hsign).
  destruct (Hsign (keccak256_length _) eq_refl) as (_ & _ & Hs & _).
  eexists _, _, d, _. split; [left; exact example_receive_creation|].
  split; [exact Hd|]. split; [exact Hs|]. reflexivity.
Defined.

(** The run of [executeReceive] and [executeTransfer]: the call goes
    out at once, and the handler throws again what it caught. *)
Lemma executeDigestAuthorization_run
    (m : Method) (a : DigestAuthorization) (w : World) (tr : Trace) :
  executeDigestAuthorization m a w tr =
  match da_signature a with
  | Some signature =>
      let c := mkCall m (da_from a) (da_to a) (da_value a) (da_validAfter a)
                 (da_validBefore a) (da_nonce a) signature (Some 100000%Z) in
      match sendTransaction w c with
      | Return tx => (waitForReceipt w tx, tr ++ [EvSend c; EvWait tx])
      | Throw message => (Throw message, tr ++ [EvSend c])
      end
  | None => (Throw (lit "invalid BytesLike value"), tr)
  end.
Proof.
  unfold executeDigestAuthorization, try_catch.
  destruct (da_signature a) as [signature|]; [|reflexivity].
  cbv zeta. run_monad.
  destruct (sendTransaction w _) as [tx|message]; [|reflexivity].
  destruct (waitForReceipt w tx) as [receipt|message];
    cbn; rewrite <- !app_assoc; reflexivity.
Qed.

Lemma signDigestAuthorization_returns
    (a signed : DigestAuthorization) (wallet : Wallet) :
  signDigestAuthorization a wallet = Return signed ->
  exists signature, signed = with_signature a signature.
Proof.
  unfold signDigestAuthorization.
  destruct (getBytes (da_digest a)) as [message|]; [|discriminate].
  destruct (formatSignatureForECRecover _) as [signature|]; [|discriminate].
  intros H. injection H as <-. now exists signature.
Qed.

Lemma digest_pipeline
    (typehash : str) (m : Method) (from to amount : str) (validAfter : Z)
    (validBefore : option Z) (w : World) (tr tr1 : Trace)
    (a signed : DigestAuthorization) (wallet : Wallet) :
  createDigestAuthorization typehash from to amount validAfter validBefore w tr =
    (Return a, tr1) ->
  signDigestAuthorization a wallet = Return signed ->
  (forall (w2 : World) (tr2 : Trace),
     executeDigestAuthorization m a w2 tr2 =
       (Throw (lit "invalid BytesLike value"), tr2)) /\
  exists signature,
    da_signature signed = Some signature /\
    forall (w2 : World) (tr2 : Trace),
      let c := mkCall m from to (da_value a) validAfter (da_validBefore a)
                 (randomBytes32 w) signature (Some 100000%Z) in
      executeDigestAuthorization m signed w2 tr2 =
      match sendTransaction w2 c with
      | Return tx => (waitForReceipt w2 tx, tr2 ++ [EvSend c; EvWait tx])
      | Throw message => (Throw message, tr2 ++ [EvSend c])
      end.
Proof.
  intros Hc Hs.
  destruct (createDigestAuthorization_returns _ _ _ _ _ _ _ _ Hc)
    as (value & sh & d & -> & _ & _ & _ & _).
  destruct (signDigestAuthorization_returns _ _ Hs) as (signature & ->).
  split.
  - intros w2 tr2. now rewrite executeDigestAuthorization_run.
  - exists signature. split; [reflexivity|].
    intros w2 tr2. now rewrite executeDigestAuthorization_run.
Qed.


Lemma example_receive_signing :
  exists signed,
    WorkingReceiveExample.signAuthorization
      (mkDigestAuthorization payer_address receiver_address 3000000 0 5100
         (repeat x44 32)
         (hexlify (Spec.digest (repeat x33 32) Spec.receive_typeHash payer_bytes
                     receiver_bytes 3000000 0 5100 (repeat x44 32)))
         (hexlify (repeat x33 32))
         (hexlify (Spec.structHash Spec.receive_typeHash payer_bytes
                     receiver_bytes 3000000 0 5100 (repeat x44 32)))
         None) payer_wallet = Return signed.
Proof.
  eexists. unfold WorkingReceiveExample.signAuthorization.
  erewrite signAuthorization_signs_hashMessage;
    [reflexivity|apply hexToBytes_hexlify|apply keccak256_length|reflexivity].
Qed.


(** ** Pull payments: [createPaymentAuthorization] and the receive helper *)

Lemma createPaymentAuthorization_returns
    (payerSigner : Wallet) (receiverAddress amount contractAddress : str)
    (w : World) (tr tr1 : Trace) (a : Authorization) :
  createPaymentAuthorization payerSigner receiverAddress amount contractAddress
    w tr = (Return a, tr1) ->
  exists value signature,
    a = mkAuthorization (wallet_address payerSigner) receiverAddress value 0
          (Date_now_seconds w + 24 * 60 * 60) (randomBytes32 w) signature /\
    tr1 = tr ++ creation_requests.
Proof.
  unfold createPaymentAuthorization. run_monad.
  destruct (parseUnits amount 6) as [v|m]; [|discriminate].
  destruct (signTypedData _ _ _ _ _) as [sg|m]; [|discriminate].
  intros H. injection H as <- <-. exists v, sg.
  unfold creation_requests. now rewrite <- !app_assoc.
Qed.

Lemma createPaymentAuthorization_ready
    (payerSigner : Wallet) (receiverAddress amount contractAddress : str)
    (w : World) (tr : Trace) (value : Z) (ds fb tb : bytes) :
  creation_ready w (wallet_address payerSigner) receiverAddress contractAddress
    ds fb tb ->
  parseUnits amount 6 = Return value -> Spec.uint256_range value ->
  Spec.uint256_range (Date_now_seconds w + 24 * 60 * 60) ->
  createPaymentAuthorization payerSigner receiverAddress amount contractAddress
    w tr =
  (Return (mkAuthorization (wallet_address payerSigner) receiverAddress value 0
             (Date_now_seconds w + 24 * 60 * 60) (randomBytes32 w)
             (serialized
                (wallet_key payerSigner
                   (Spec.digest ds Spec.receive_typeHash fb tb value 0
                      (Date_now_seconds w + 24 * 60 * 60) (randomBytes32 w))))),
   tr ++ creation_requests).
Proof.
  intros [Hd Hf Hfl Ht Htl Hnl] Hp Hv Hvb.
  unfold createPaymentAuthorization. run_monad.
  rewrite Hp.
  rewrite (@typed_data_digest payerSigner _ (lit "ReceiveWithAuthorization")
             ds fb tb (randomBytes32 w) (wallet_address payerSigner)
             receiverAddress value 0 (Date_now_seconds w + 24 * 60 * 60)
             Hd Hf Hfl Ht Htl Hnl Hv uint256_range_zero Hvb).
  rewrite typed_typeHash_receive.
  unfold creation_requests. now rewrite <- !app_assoc.
Qed.

(** X16. A payment authorization returned by
    [createPaymentAuthorization] is signed over the EIP-712 digest of
    the ReceiveWithAuthorization type.  [receiveWithAuthorization]
    rejects it for a receiver with another address before anything is
    requested; for the named receiver, at a clock value from 0 up to 24
    hours after the creation clock and with the nonce unused, it submits
    the receive call with the payer as [from], the receiver as [to], the
    window from 0 to that end, the nonce drawn at creation, the created
    signature and no gas limit. *)
Theorem created_payment_is_collectable_by_its_receiver
    (payerSigner : Wallet) (receiverAddress amount contractAddress : str)
    (w : World) (tr tr1 : Trace) (a : Authorization) :
  createPaymentAuthorization payerSigner receiverAddress amount contractAddress
    w tr = (Return a, tr1) ->
  tr1 = tr ++ creation_requests /\
  (forall (value : Z) (ds fb tb : bytes),
     creation_ready w (wallet_address payerSigner) receiverAddress contractAddress
       ds fb tb ->
     parseUnits amount 6 = Return value -> Spec.uint256_range value ->
     Spec.uint256_range (Date_now_seconds w + 24 * 60 * 60) ->
     auth_signature a =
       serialized
         (wallet_key payerSigner
            (Spec.digest ds Spec.receive_typeHash fb tb value 0
               (Date_now_seconds w + 86400) (randomBytes32 w)))) /\
  forall (this : RunReceiveExample.FiatTokenReceiver) (w2 : World) (tr2 : Trace),
    let receiver := wallet_address (RunReceiveExample.receiverSigner this) in
    let run := RunReceiveExample.receiveWithAuthorization this a w2 tr2 in
    (~ same_address receiverAddress receiver ->
       run = (Throw (RunReceiveExample.to_mismatch receiverAddress receiver), tr2)) /\
    (same_address receiverAddress receiver ->
       (0 <= Date_now_seconds w2 <= Date_now_seconds w + 86400)%Z ->
       authorizationState w2 (wallet_address payerSigner) (randomBytes32 w) = false ->
       run =
         send_and_wait
           (mkCall receiveWithAuthorization_method (wallet_address payerSigner)
              receiverAddress (auth_value a) 0 (Date_now_seconds w + 86400)
              (randomBytes32 w) (auth_signature a) None)
           w2
           ((tr2 ++ [EvDateNow]) ++
            [EvAuthorizationState (wallet_address payerSigner) (randomBytes32 w)])).
Proof.
  intros H.
  destruct (createPaymentAuthorization_returns _ _ _ _ _ _ H)
    as (value & signature & Ha & Htr).
  split; [exact Htr|]. split.
  - intros value' ds fb tb Hready Hp Hv Hvb.
    rewrite (@createPaymentAuthorization_ready payerSigner receiverAddress amount
               contractAddress w tr value' ds fb tb Hready Hp Hv Hvb) in H.
    injection H as <- _. reflexivity.
  - assert (Hto : auth_to a = receiverAddress) by (now rewrite Ha).
    intros this w2 tr2. cbv zeta. split.
    + intros Hne. rewrite <- Hto in Hne.
      destruct (@receive_mismatch_throws this a w2 tr2 Hne) as [Hrun _].
      now rewrite Hto in Hrun.
    + intros Hsame Hnow Hunused. rewrite <- Hto in Hsame.
      rewrite (@receive_run this a w2 tr2 Hsame). rewrite Ha.
      unfold call_of.
      cbn [auth_validAfter auth_validBefore auth_from auth_nonce auth_value
           auth_signature].
      rewrite Hunused.
      destruct (Z.ltb_spec (Date_now_seconds w2) 0); [lia|].
      destruct (Z.gtb_spec (Date_now_seconds w2) (Date_now_seconds w + 24 * 60 * 60));
        [lia|].
      reflexivity.
Qed.

Lemma example_payment_creation :
  createPaymentAuthorization payer_wallet receiver_address (lit "50") usdc_address
    example_world [] =
  (Return (mkAuthorization payer_address receiver_address 50000000 0
             (Date_now_seconds example_world + 24 * 60 * 60) (repeat x44 32)
             (serialized
                (echo_key
                   (Spec.digest example_domain_separator Spec.receive_typeHash
                      payer_bytes receiver_bytes 50000000 0
                      (Date_now_seconds example_world + 24 * 60 * 60)
                      (repeat x44 32))))),
   creation_requests).
Proof.
  exact (@createPaymentAuthorization_ready payer_wallet receiver_address
           (lit "50") usdc_address example_world [] 50000000
           example_domain_separator payer_bytes receiver_bytes
           example_creation_ready eq_refl example_value_in_range
           example_now_in_range).
Qed.

Lemma created_payment_is_collectable_by_its_receiver_witness :
  exists a tr1,
    createPaymentAuthorization payer_wallet receiver_address (lit "50") usdc_address
      example_world [] = (Return a, tr1) /\
    submitted (snd (RunReceiveExample.receiveWithAuthorization example_receiver a
                      example_world tr1)) = true /\
    RunReceiveExample.receiveWithAuthorization
      (RunReceiveExample.mkReceiver usdc_address gas_station_wallet) a
      example_world tr1 =
    (Throw (RunReceiveExample.to_mismatch receiver_address gas_station_address), tr1).
Proof.
  eexists _, _. split; [exact example_payment_creation|].
  destruct (created_payment_is_collectable_by_its_receiver _ _ _ _ _ _
              example_payment_creation) as (_ & _ & Hexec).
  split.
  - destruct (Hexec example_receiver example_world creation_requests) as (_ & Hrun).
    rewrite Hrun; [apply send_and_wait_submits|reflexivity|cbn; lia|reflexivity].
  - destruct (Hexec (RunReceiveExample.mkReceiver usdc_address gas_station_wallet)
                example_world creation_requests) as (Hrun & _).
    apply Hrun. unfold same_address. intros E. discriminate E.
Defined.

(** ** The authorization sender: windows that start at the clock reading *)

Lemma createAuthorization_returns
    (type primaryType : str) (this : AuthorizationSender.Sender)
    (recipientAddress amount : str) (validHours : Z)
    (w : World) (tr tr1 : Trace) (t : AuthorizationSender.TransportAuthorization) :
  AuthorizationSender.createAuthorization type primaryType this recipientAddress
    amount validHours w tr = (Return t, tr1) ->
  exists value signature,
    t = AuthorizationSender.mkTransport type
          (AuthorizationSender.contractAddress this)
          (AuthorizationSender.config_NETWORK this)
          (decimal (network_chainId w))
          (mkAuthorization (wallet_address (AuthorizationSender.signerWallet this))
             recipientAddress value (Date_now_seconds w)
             (Date_now_seconds w + validHours * 60 * 60) (randomBytes32 w) signature)
          (Date_now_seconds w * 1000)
          ((Date_now_seconds w + validHours * 60 * 60) * 1000) /\
    tr1 = tr ++ creation_requests.
Proof.
  unfold AuthorizationSender.createAuthorization. run_monad.
  destruct (parseUnits amount 6) as [v|m]; [|discriminate].
  destruct (signTypedData _ _ _ _ _) as [sg|m]; [|discriminate].
  intros H. injection H as <- <-. exists v, sg.
  unfold creation_requests. now rewrite <- !app_assoc.
Qed.

Lemma createAuthorization_ready
    (type primaryType : str) (this : AuthorizationSender.Sender)
    (recipientAddress amount : str) (validHours : Z)
    (w : World) (tr : Trace) (value : Z) (ds fb tb : bytes) :
  creation_ready w (wallet_address (AuthorizationSender.signerWallet this))
    recipientAddress (AuthorizationSender.contractAddress this) ds fb tb ->
  parseUnits amount 6 = Return value -> Spec.uint256_range value ->
  Spec.uint256_range (Date_now_seconds w) ->
  Spec.uint256_range (Date_now_seconds w + validHours * 60 * 60) ->
  exists t,
    AuthorizationSender.createAuthorization type primaryType this recipientAddress
      amount validHours w tr = (Return t, tr ++ creation_requests) /\
    auth_signature (AuthorizationSender.t_message t) =
      serialized
        (wallet_key (AuthorizationSender.signerWallet this)
           (Spec.digest ds (typed_typeHash primaryType) fb tb value
              (Date_now_seconds w) (Date_now_seconds w + validHours * 60 * 60)
              (randomBytes32 w))).
Proof.
  intros [Hd Hf Hfl Ht Htl Hnl] Hp Hv Hva Hvb.
  unfold AuthorizationSender.createAuthorization. run_monad.
  rewrite Hp.
  rewrite (@typed_data_digest (AuthorizationSender.signerWallet this) _ primaryType
             ds fb tb (randomBytes32 w)
             (wallet_address (AuthorizationSender.signerWallet this))
             recipientAddress value (Date_now_seconds w)
             (Date_now_seconds w + validHours * 60 * 60)
             Hd Hf Hfl Ht Htl Hnl Hv Hva Hvb).
  unfold creation_requests.
  eexists. split; [rewrite <- !app_assoc; reflexivity|reflexivity].
Qed.

(** X17. An authorization made by the authorization sender is valid
    from the clock reading of its creation, not from 0, until
    [validHours] hours later; the two dates of the transport record are
    these bounds in milliseconds.  [transferWithAuthorization] therefore
    throws "not yet valid" for an executor whose clock is behind the
    creation clock, submits the call from the creation clock up to the
    end of the window when the nonce is unused, and throws "expired"
    afterwards; with a negative [validHours] it throws at every clock
    value and submits nothing. *)
Theorem sender_window_starts_at_creation
    (this : AuthorizationSender.Sender) (recipientAddress amount : str)
    (validHours : Z) (w : World) (tr tr1 : Trace)
    (t : AuthorizationSender.TransportAuthorization) :
  AuthorizationSender.createTransferAuthorization this recipientAddress amount
    validHours w tr = (Return t, tr1) \/
  AuthorizationSender.createReceiveAuthorization this recipientAddress amount
    validHours w tr = (Return t, tr1) ->
  let a := AuthorizationSender.t_message t in
  let first := Date_now_seconds w in
  let last := (Date_now_seconds w + validHours * 3600)%Z in
  auth_validAfter a = first /\ auth_validBefore a = last /\
  AuthorizationSender.t_validAfterDate t = (first * 1000)%Z /\
  AuthorizationSender.t_validBeforeDate t = (last * 1000)%Z /\
  forall (sender : RunTransferExample.FiatTokenSender) (w2 : World) (tr2 : Trace),
    let run := RunTransferExample.transferWithAuthorization sender a w2 tr2 in
    ((Date_now_seconds w2 < first)%Z ->
       run = (Throw not_yet_valid, tr2 ++ [EvDateNow])) /\
    ((first <= Date_now_seconds w2 <= last)%Z ->
       authorizationState w2 (auth_from a) (auth_nonce a) = false ->
       run = send_and_wait (call_of transferWithAuthorization_method a None) w2
               ((tr2 ++ [EvDateNow]) ++
                [EvAuthorizationState (auth_from a) (auth_nonce a)])) /\
    ((first <= Date_now_seconds w2)%Z -> (last < Date_now_seconds w2)%Z ->
       run = (Throw has_expired, tr2 ++ [EvDateNow])) /\
    ((validHours < 0)%Z ->
       (run = (Throw not_yet_valid, tr2 ++ [EvDateNow]) \/
        run = (Throw has_expired, tr2 ++ [EvDateNow])) /\
       submitted (snd run) = submitted tr2).
Proof.
  intros H.
  assert (Hc : exists type primaryType,
             AuthorizationSender.createAuthorization type primaryType this
               recipientAddress amount validHours w tr = (Return t, tr1)).
  { destruct H as [H|H]; eexists _, _; exact H. }
  destruct Hc as (type & primaryType & Hc).
  destruct (createAuthorization_returns _ _ _ _ _ _ _ _ Hc)
    as (value & signature & -> & _).
  cbv zeta.
  cbn [AuthorizationSender.t_message AuthorizationSender.t_validAfterDate
       AuthorizationSender.t_validBeforeDate auth_validAfter auth_validBefore].
  split; [reflexivity|]. split; [lia|]. split; [reflexivity|]. split; [lia|].
  intros sender w2 tr2.
  set (a := mkAuthorization _ _ _ _ _ _ _).
  assert (Hearly : (Date_now_seconds w2 < Date_now_seconds w)%Z ->
            RunTransferExample.transferWithAuthorization sender a w2 tr2 =
            (Throw not_yet_valid, tr2 ++ [EvDateNow])).
  { intros Hlt. apply transfer_too_early. exact Hlt. }
  assert (Hlate : (Date_now_seconds w <= Date_now_seconds w2)%Z ->
            (Date_now_seconds w + validHours * 3600 < Date_now_seconds w2)%Z ->
            RunTransferExample.transferWithAuthorization sender a w2 tr2 =
            (Throw has_expired, tr2 ++ [EvDateNow])).
  { intros Hle Hgt. apply transfer_too_late; subst a; cbn; lia. }
  split; [exact Hearly|]. split; [|split; [exact Hlate|]].
  - intros Hwin Hunused. apply transfer_in_window; [subst a; cbn; lia|exact Hunused].
  - intros Hneg.
    destruct (Z_lt_le_dec (Date_now_seconds w2) (Date_now_seconds w)) as [Hlt|Hle].
    + rewrite (Hearly Hlt). split; [now left|]. cbn [snd].
      rewrite submitted_app. cbn. now rewrite orb_false_r.
    + rewrite (Hlate Hle ltac:(lia)). split; [now right|]. cbn [snd].
      rewrite submitted_app. cbn. now rewrite orb_false_r.
Qed.

Lemma sender_window_starts_at_creation_witness :
  exists t tr1,
    (AuthorizationSender.createTransferAuthorization example_authorization_sender
       receiver_address (lit "25") 24 example_world [] = (Return t, tr1) \/
     AuthorizationSender.createReceiveAuthorization example_authorization_sender
       receiver_address (lit "25") 24 example_world [] = (Return t, tr1)) /\
    auth_validAfter (AuthorizationSender.t_message t) = 1500%Z /\
    submitted (snd (RunTransferExample.transferWithAuthorization example_sender
                      (AuthorizationSender.t_message t) example_world tr1)) = true.
Proof.
  assert (Hv : Spec.uint256_range 25000000) by (unfold Spec.uint256_range; lia).
  assert (Hva : Spec.uint256_range (Date_now_seconds example_world))
    by (unfold Spec.uint256_range; cbn; lia).
  assert (Hvb : Spec.uint256_range (Date_now_seconds example_world + 24 * 60 * 60))
    by (unfold Spec.uint256_range; cbn; lia).
  destruct (@createAuthorization_ready (lit "transferWithAuthorization")
              (lit "TransferWithAuthorization") example_authorization_sender
              receiver_address (lit "25") 24 example_world [] 25000000
              example_domain_separator payer_bytes receiver_bytes
              example_creation_ready eq_refl Hv Hva Hvb) as (t & E & _).
  exists t, ([] ++ creation_requests). split; [left; exact E|].
  destruct (@sender_window_starts_at_creation example_authorization_sender
              receiver_address (lit "25") 24 example_world [] _ t (or_introl E))
    as (Hafter & _ & _ & _ & Hexec).
  split; [exact Hafter|].
  destruct (Hexec example_sender example_world ([] ++ creation_requests))
    as (_ & Hwin & _).
  rewrite Hwin; [apply send_and_wait_submits|cbn; lia|reflexivity].
Defined.

(** ** Amounts that are not converted *)

Lemma span_digits_spec (s : str) :
  s = fst (span_digits s) ++ snd (span_digits s) /\
  all_digits (fst (span_digits s)) = true.
Proof.
  induction s as [|c s [IH1 IH2]]; [split; reflexivity|].
  cbn [span_digits]. destruct (is_digit c) eqn:Hc; [|split; reflexivity].
  destruct (span_digits s) as [d rest]. cbn [fst snd] in *.
  split; [now rewrite IH1 at 1|].
  unfold all_digits in *. cbn [forallb]. now rewrite Hc, IH2.
Qed.

Lemma digits_are_amount_chars (s : str) :
  all_digits s = true -> forallb amount_char s = true.
Proof.
  unfold all_digits. induction s as [|c s IH]; [reflexivity|].
  cbn [forallb]. intros H. apply andb_true_iff in H as [Hc Hs].
  unfold amount_char at 1. now rewrite Hc, (IH Hs).
Qed.

(** What [match_fixed] accepts consists of digits, points and minus
    signs only. *)
Lemma match_fixed_chars (s : str) (r : bool * str * str) :
  match_fixed s = Some r -> forallb amount_char s = true.
Proof.
  unfold match_fixed.
  assert (Hbody : forall s1 : str,
             (let (whole, s2) := span_digits s1 in
              let s3 :=
                match s2 with
                | c :: s' => if Ascii.eqb c "."%char then s' else s2
                | [] => s2
                end in
              let (dec, s4) := span_digits s3 in
              match s4 with
              | [] => true
              | _ :: _ => false
              end) = true ->
             forallb amount_char s1 = true).
  { intros s1.
    destruct (span_digits_spec s1) as [H1 H2].
    destruct (span_digits s1) as [whole s2]. cbn [fst snd] in *.
    intros H. rewrite H1, forallb_app, (digits_are_amount_chars _ H2).
    cbn [andb].
    destruct s2 as [|c s2]; [reflexivity|].
    destruct (Ascii.eqb c "."%char) eqn:Hc.
    - destruct (span_digits_spec s2) as [H3 H4].
      destruct (span_digits s2) as [dec s4]. cbn [fst snd] in *.
      destruct s4; [|discriminate H].
      rewrite app_nil_r in H3. subst s2.
      cbn [forallb]. unfold amount_char at 1.
      now rewrite Hc, orb_true_r, (digits_are_amount_chars _ H4).
    - cbv zeta in H.
      destruct (span_digits_spec (c :: s2)) as [H3 H4].
      destruct (span_digits (c :: s2)) as [dec s4]. cbn [fst snd] in *.
      destruct s4; [|discriminate H].
      rewrite app_nil_r in H3. rewrite H3.
      now apply digits_are_amount_chars. }
  destruct s as [|c s]. 
  - reflexivity.
  - destruct (Ascii.eqb c "-"%char) eqn:Hc.
    + intros H. cbn [forallb]. unfold amount_char at 1.
      rewrite Hc, orb_true_r. cbn [andb]. apply Hbody.
      revert H. cbv beta iota zeta.
      destruct (span_digits s) as [whole s2].
      destruct (span_digits _) as [dec s4].
      now destruct s4.
    + intros H. apply Hbody.
      revert H. cbv beta iota zeta.
      destruct (span_digits (c :: s)) as [whole s2].
      destruct (span_digits _) as [dec s4].
      now destruct s4.
Qed.

Lemma foreign_character_is_rejected (amount : str) (c : ascii) :
  In c amount -> amount_char c = false ->
  parseUnits amount 6 = Throw invalid_amount.
Proof.
  intros Hin Hc. unfold parseUnits.
  destruct (match_fixed amount) as [r|] eqn:E; [|reflexivity].
  apply match_fixed_chars in E.
  rewrite forallb_forall in E. rewrite (E c Hin) in Hc. discriminate Hc.
Qed.

Lemma pad_zeros_long (frac : str) :
  6 <= length frac -> pad_zeros 6 6 frac = frac.
Proof.
  intros H. cbn [pad_zeros].
  destruct (Nat.ltb_spec (length frac) 6); [lia|reflexivity].
Qed.

Lemma excess_decimals_are_rejected (whole frac : str) :
  all_digits whole = true -> all_digits frac = true -> whole <> [] ->
  all_zero (skipn 6 frac) = false ->
  parseUnits (whole ++ "."%char :: frac) 6 = Throw too_many_decimals.
Proof.
  intros Hw Hf Hne Hz. unfold parseUnits.
  rewrite (@match_fixed_decimal whole frac Hw Hf Hne).
  destruct whole as [|c whole]; [contradiction|].
  cbn [length Nat.add Nat.eqb].
  assert (Hlen : 6 <= length frac).
  { destruct (Nat.le_gt_cases 6 (length frac)) as [H|H]; [exact H|].
    rewrite skipn_all2 in Hz by lia. discriminate Hz. }
  rewrite (pad_zeros_long _ Hlen), Hz. reflexivity.
Qed.

(** An error of the conversion leaves each creator before anything is
    signed. *)
Lemma createTransferAuthorization_amount_error
    (holderSigner : Wallet) (recipientAddress amount contractAddress : str)
    (w : World) (tr : Trace) (message : str) :
  parseUnits amount 6 = Throw message ->
  RunTransferExample.createTransferAuthorization holderSigner recipientAddress
    amount contractAddress w tr = (Throw message, tr ++ creation_requests).
Proof.
  intros H. unfold RunTransferExample.createTransferAuthorization. run_monad.
  rewrite H. unfold creation_requests. now rewrite <- !app_assoc.
Qed.

Lemma createDigestAuthorization_amount_error
    (typehash from to amount : str) (validAfter : Z) (validBefore : option Z)
    (w : World) (tr : Trace) (message : str) :
  parseUnits amount 6 = Throw message ->
  exists tr1,
    createDigestAuthorization typehash from to amount validAfter validBefore w tr =
      (Throw message, tr1) /\
    existsb is_send tr1 = existsb is_send tr /\
    In EvRandomBytes tr1 /\ (In EvDomainSeparator tr1 -> In EvDomainSeparator tr).
Proof.
  intros H. unfold createDigestAuthorization.
  destruct validBefore as [b|]; [destruct (b =? 0)%Z|]; run_monad; rewrite H;
    eexists; (split; [reflexivity|]);
    rewrite !existsb_app; cbn [existsb is_send]; rewrite ?orb_false_r;
    (split; [reflexivity|]);
    (split; [apply in_or_app; right; now left|]);
    intros Hin; repeat (apply in_app_or in Hin as [Hin|Hin]);
    try assumption; destruct Hin as [Hin|[]]; discriminate Hin.
Qed.

(** X18. An amount text that holds a character other than a digit, a
    point or a minus sign (an exponent, a comma, a blank) is not
    converted: [parseUnits] throws "invalid FixedNumber string value";
    decimals beyond the sixth that are not all zero give "too many
    decimals for format" instead of a rounded value.  Either way the
    creators throw the same error before anything is signed:
    [createTransferAuthorization] after its four requests,
    [createReceiveAuthorization] without reading the domain separator
    and without a submission. *)
Theorem unconvertible_amount_stops_creation (amount message : str) :
  (message = invalid_amount /\
   exists c, In c amount /\ amount_char c = false) \/
  (message = too_many_decimals /\
   exists whole frac,
     amount = whole ++ "."%char :: frac /\
     all_digits whole = true /\ all_digits frac = true /\ whole <> [] /\
     all_zero (skipn 6 frac) = false) ->
  parseUnits amount 6 = Throw message /\
  (forall (holderSigner : Wallet) (recipientAddress contractAddress : str)
          (w : World) (tr : Trace),
     RunTransferExample.createTransferAuthorization holderSigner recipientAddress
       amount contractAddress w tr = (Throw message, tr ++ creation_requests)) /\
  (forall (from to : str) (validAfter : Z) (validBefore : option Z)
          (w : World) (tr : Trace),
     exists tr1,
       WorkingReceiveExample.createReceiveAuthorization from to amount validAfter
         validBefore w tr = (Throw message, tr1) /\
       submitted tr1 = submitted tr /\
       (In EvDomainSeparator tr1 -> In EvDomainSeparator tr)).
Proof.
  intros H.
  assert (Hp : parseUnits amount 6 = Throw message).
  { destruct H as [[-> (c & Hin & Hc)]|[-> (whole & frac & -> & Hw & Hf & Hne & Hz)]].
    - exact (@foreign_character_is_rejected amount c Hin Hc).
    - exact (@excess_decimals_are_rejected whole frac Hw Hf Hne Hz). }
  split; [exact Hp|]. split.
  - intros holderSigner recipientAddress contractAddress w tr.
    now apply createTransferAuthorization_amount_error.
  - intros from to validAfter validBefore w tr.
    destruct (@createDigestAuthorization_amount_error
                RECEIVE_WITH_AUTHORIZATION_TYPEHASH from to amount validAfter
                validBefore w tr message Hp) as (tr1 & Hrun & Hsub & _ & Hds).
    exists tr1. split; [exact Hrun|]. split; [exact Hsub|exact Hds].
Qed.

Lemma unconvertible_amount_stops_creation_witness :
  ((invalid_amount = invalid_amount /\
    exists c, In c (lit "1e-7") /\ amount_char c = false) \/
   (invalid_amount = too_many_decimals /\
    exists whole frac,
      lit "1e-7" = whole ++ "."%char :: frac /\
      all_digits whole = true /\ all_digits frac = true /\ whole <> [] /\
      all_zero (skipn 6 frac) = false)) /\
  parseUnits (lit "1e-7") 6 = Throw invalid_amount /\
  parseUnits (lit "0.0000001") 6 = Throw too_many_decimals.
Proof.
  assert (H1 : (invalid_amount = invalid_amount /\
                exists c, In c (lit "1e-7") /\ amount_char c = false) \/
               (invalid_amount = too_many_decimals /\
                exists whole frac,
                  lit "1e-7" = whole ++ "."%char :: frac /\
                  all_digits whole = true /\ all_digits frac = true /\
                  whole <> [] /\ all_zero (skipn 6 frac) = false)).
  { left. split; [reflexivity|]. exists "e"%char. split; [|reflexivity].
    right. left. reflexivity. }
  assert (H2 : (too_many_decimals = invalid_amount /\
                exists c, In c (lit "0.0000001") /\ amount_char c = false) \/
               (too_many_decimals = too_many_decimals /\
                exists whole frac,
                  lit "0.0000001" = whole ++ "."%char :: frac /\
                  all_digits whole = true /\ all_digits frac = true /\
                  whole <> [] /\ all_zero (skipn 6 frac) = false)).
  { right. split; [reflexivity|]. exists (lit "0"), (lit "0000001").
    split; [reflexivity|]. split; [reflexivity|]. split; [reflexivity|].
    split; [discriminate|reflexivity]. }
  split; [exact H1|]. split.
  - exact (proj1 (@unconvertible_amount_stops_creation (lit "1e-7") invalid_amount H1)).
  - exact (proj1 (@unconvertible_amount_stops_creation (lit "0.0000001")
                    too_many_decimals H2)).
Defined.

(** ** What a returned authorization guarantees *)

Lemma encode_uint256_inv (n : Z) (b : bytes) :
  encode_word T_uint256 (JNum n) = Some b -> Spec.uint256_range n.
Proof.
  unfold encode_word, Spec.uint256_range.
  destruct (Z.leb_spec 0 n); [|discriminate].
  destruct (Z.ltb_spec n (2 ^ 256)); [|discriminate].
  intros _. split; assumption.
Qed.

Lemma encode_address_inv (s : str) (b : bytes) :
  encode_word T_address (JStr s) = Some b ->
  exists a, hexToBytes s = Some a /\ length a = 20.
Proof.
  unfold encode_word, js_bytes.
  destruct (hexToBytes s) as [a|]; [|discriminate].
  destruct (Nat.eqb_spec (length a) 20); [|discriminate].
  intros _. now exists a.
Qed.


Lemma signTypedData_returns
    (wallet : Wallet) (d : Domain) (name : str) (from to : str)
    (value validAfter validBefore : Z) (nonce : bytes) (signature : str) :
  signTypedData wallet d name authorization_fields
    (message_values from to value validAfter validBefore nonce) = Return signature ->
  Spec.uint256_range value /\ Spec.uint256_range validAfter /\
  Spec.uint256_range validBefore /\
  (exists fb, hexToBytes from = Some fb /\ length fb = 20) /\
  (exists tb, hexToBytes to = Some tb /\ length tb = 20) /\
  exists h, signature = serialized (wallet_key wallet h) /\ length h = 32.
Proof.
  unfold signTypedData, typedDataHash.
  destruct (hashDomain d) as [ds|]; [|discriminate].
  destruct (hashStruct _ _ _) as [sh|] eqn:E; [|discriminate].
  intros H. injection H as <-.
  unfold hashStruct, message_values in E.
  cbn [map authorization_fields field_type encode_words] in E.
  destruct (encode_word T_address (JStr from)) as [w1|] eqn:E1; [|discriminate].
  destruct (encode_word T_address (JStr to)) as [w2|] eqn:E2; [|discriminate].
  destruct (encode_word T_uint256 (JNum value)) as [w3|] eqn:E3; [|discriminate].
  destruct (encode_word T_uint256 (JNum validAfter)) as [w4|] eqn:E4; [|discriminate].
  destruct (encode_word T_uint256 (JNum validBefore)) as [w5|] eqn:E5; [|discriminate].
  split; [exact (@encode_uint256_inv value w3 E3)|].
  split; [exact (@encode_uint256_inv validAfter w4 E4)|].
  split; [exact (@encode_uint256_inv validBefore w5 E5)|].
  split; [exact (@encode_address_inv from w1 E1)|].
  split; [exact (@encode_address_inv to w2 E2)|].
  eexists. split; [reflexivity|apply keccak256_length].
Qed.



(** ** examples/working-transfer-test.js: creation with the contract's
       own domain separator *)



(** ** examples/fixed-transfer-example.js: a window counted from the
       latest block *)

Lemma createFixedTransferAuthorization_returns
    (holderSigner : Wallet) (recipientAddress amount contractAddress : str)
    (w : World) (tr tr1 : Trace) (a : Authorization) :
  createFixedTransferAuthorization holderSigner recipientAddress amount
    contractAddress w tr = (Return a, tr1) ->
  exists value signature,
    a = mkAuthorization (wallet_address holderSigner) recipientAddress value 0
          (latest_block_timestamp w + 24 * 60 * 60) (randomBytes32 w) signature /\
    tr1 = tr ++ [EvName; EvGetNetwork; EvGetBlock; EvRandomBytes].
Proof.
  unfold createFixedTransferAuthorization. run_monad.
  destruct (parseUnits amount 6) as [v|m]; [|discriminate].
  destruct (signTypedData _ _ _ _ _) as [sg|m]; [|discriminate].
  intros H. injection H as <- <-. exists v, sg.
  now rewrite <- !app_assoc.
Qed.

Lemma createFixedTransferAuthorization_ready
    (holderSigner : Wallet) (recipientAddress amount contractAddress : str)
    (w : World) (tr : Trace) (value : Z) (ds fb tb : bytes) :
  creation_ready w (wallet_address holderSigner) recipientAddress contractAddress
    ds fb tb ->
  parseUnits amount 6 = Return value -> Spec.uint256_range value ->
  Spec.uint256_range (latest_block_timestamp w + 24 * 60 * 60) ->
  createFixedTransferAuthorization holderSigner recipientAddress amount
    contractAddress w tr =
  (Return (mkAuthorization (wallet_address holderSigner) recipientAddress value 0
             (latest_block_timestamp w + 24 * 60 * 60) (randomBytes32 w)
             (serialized
                (wallet_key holderSigner
                   (Spec.digest ds Spec.transfer_typeHash fb tb value 0
                      (latest_block_timestamp w + 24 * 60 * 60) (randomBytes32 w))))),
   tr ++ [EvName; EvGetNetwork; EvGetBlock; EvRandomBytes]).
Proof.
  intros [Hd Hf Hfl Ht Htl Hnl] Hp Hv Hvb.
  unfold createFixedTransferAuthorization. run_monad.
  rewrite Hp.
  rewrite (@typed_data_digest holderSigner _ (lit "TransferWithAuthorization")
             ds fb tb (randomBytes32 w) (wallet_address holderSigner)
             recipientAddress value 0 (latest_block_timestamp w + 24 * 60 * 60)
             Hd Hf Hfl Ht Htl Hnl Hv uint256_range_zero Hvb).
  rewrite typed_typeHash_transfer.
  now rewrite <- !app_assoc.
Qed.

(** X21. [createFixedTransferAuthorization] ends the window 24 hours
    after the time of the latest block and never reads the local clock,
    while [transferWithAuthorization] tests the window against the local
    clock: the call is submitted when the executor's clock is at most 24
    hours ahead of that block (nonce unused), and a clock that is
    further ahead makes it throw "Authorization has expired" without a
    submission, even for an authorization just created. *)
Theorem fixed_transfer_window_follows_block_time
    (holderSigner : Wallet) (recipientAddress amount contractAddress : str)
    (w : World) (tr tr1 : Trace) (a : Authorization) :
  createFixedTransferAuthorization holderSigner recipientAddress amount
    contractAddress w tr = (Return a, tr1) ->
  auth_validAfter a = 0%Z /\
  auth_validBefore a = (latest_block_timestamp w + 86400)%Z /\
  tr1 = tr ++ [EvName; EvGetNetwork; EvGetBlock; EvRandomBytes] /\
  forall (this : RunTransferExample.FiatTokenSender) (w2 : World) (tr2 : Trace),
    let run := RunTransferExample.transferWithAuthorization this a w2 tr2 in
    ((0 <= Date_now_seconds w2 <= latest_block_timestamp w + 86400)%Z ->
       authorizationState w2 (auth_from a) (auth_nonce a) = false ->
       run = send_and_wait (call_of transferWithAuthorization_method a None) w2
               ((tr2 ++ [EvDateNow]) ++
                [EvAuthorizationState (auth_from a) (auth_nonce a)])) /\
    ((0 <= Date_now_seconds w2)%Z ->
     (latest_block_timestamp w + 86400 < Date_now_seconds w2)%Z ->
       run = (Throw has_expired, tr2 ++ [EvDateNow])).
Proof.
  intros H.
  destruct (createFixedTransferAuthorization_returns _ _ _ _ _ _ H)
    as (value & signature & -> & ->).
  cbn [auth_validAfter auth_validBefore].
  split; [reflexivity|]. split; [lia|]. split; [reflexivity|].
  intros this w2 tr2. cbv zeta. split.
  - intros Hwin Hunused. apply transfer_in_window; [cbn; lia|exact Hunused].
  - intros Hpos Hlate. apply transfer_too_late; cbn; lia.
Qed.

Lemma fixed_transfer_window_follows_block_time_witness :
  exists a tr1,
    createFixedTransferAuthorization payer_wallet receiver_address (lit "50")
      usdc_address example_world [] = (Return a, tr1) /\
    auth_validBefore a = 87900%Z /\
    submitted (snd (RunTransferExample.transferWithAuthorization example_sender a
                      example_world tr1)) = true.
Proof.
  assert (Hvb : Spec.uint256_range (latest_block_timestamp example_world + 24 * 60 * 60))
    by (unfold Spec.uint256_range; cbn; lia).
  pose proof (@createFixedTransferAuthorization_ready payer_wallet receiver_address
                (lit "50") usdc_address example_world [] 50000000
                example_domain_separator payer_bytes receiver_bytes
                example_creation_ready eq_refl example_value_in_range Hvb) as E.
  eexists _, _. split; [exact E|].
  destruct (fixed_transfer_window_follows_block_time _ _ _ _ _ _ E)
    as (_ & Hend & _ & Hexec).
  split; [exact Hend|].
  destruct (Hexec example_sender example_world
              ([] ++ [EvName; EvGetNetwork; EvGetBlock; EvRandomBytes]))
    as (Hwin & _).
  rewrite Hwin; [apply send_and_wait_submits|cbn; lia|reflexivity].
Defined.

(** ** Balances as text: [getBalance] *)

Lemma digits_value_cons (c : ascii) (s : str) :
  digits_value (c :: s) =
  ((Z.of_nat (nat_of_ascii c) - 48) * 10 ^ Z.of_nat (length s) + digits_value s)%Z.
Proof.
  change (c :: s) with ([c] ++ s). rewrite digits_value_app.
  change (digits_value [c]) with (10 * 0 + (Z.of_nat (nat_of_ascii c) - 48))%Z.
  ring.
Qed.

Lemma uint_text_length (d : Decimal.uint) :
  length (list_ascii_of_string (NilEmpty.string_of_uint d)) = Decimal.nb_digits d.
Proof. induction d; cbn; congruence. Qed.

Lemma uint_text_digits (d : Decimal.uint) :
  all_digits (list_ascii_of_string (NilEmpty.string_of_uint d)) = true.
Proof. induction d; cbn; assumption || reflexivity. Qed.

Lemma uint_value_acc (d : Decimal.uint) (acc : positive) :
  Z.pos (Pos.of_uint_acc d acc) =
  (Z.pos acc * 10 ^ Z.of_nat (Decimal.nb_digits d) +
   digits_value (list_ascii_of_string (NilEmpty.string_of_uint d)))%Z.
Proof.
  revert acc. induction d; intros acc;
    cbn [Pos.of_uint_acc NilEmpty.string_of_uint list_ascii_of_string
         Decimal.nb_digits];
    [cbn; lia|..];
    rewrite IHd, digits_value_cons, uint_text_length, Nat2Z.inj_succ,
      Z.pow_succ_r by lia;
    match goal with
    | |- context [nat_of_ascii ?c] =>
        let n := eval vm_compute in (nat_of_ascii c) in
        change (nat_of_ascii c) with n
    end;
    lia.
Qed.

Lemma uint_value (d : Decimal.uint) :
  Z.of_N (Pos.of_uint d) =
  digits_value (list_ascii_of_string (NilEmpty.string_of_uint d)).
Proof.
  induction d;
    cbn [Pos.of_uint NilEmpty.string_of_uint list_ascii_of_string];
    [reflexivity|..];
    rewrite digits_value_cons;
    match goal with
    | |- context [nat_of_ascii ?c] =>
        let n := eval vm_compute in (nat_of_ascii c) in
        change (nat_of_ascii c) with n
    end;
    [rewrite IHd; lia|..];
    cbn [Z.of_N]; rewrite uint_value_acc, uint_text_length; lia.
Qed.

(** The decimal text of a positive number: its digits, from a first
    digit that is not zero. *)
Lemma decimal_pos (p : positive) :
  decimal (Z.pos p) = list_ascii_of_string (NilEmpty.string_of_uint (Pos.to_uint p)).
Proof.
  unfold decimal. cbn [Z.to_int NilZero.string_of_int].
  pose proof (DecimalPos.Unsigned.to_uint_nonnil p) as Hnil.
  destruct (Pos.to_uint p); [contradiction|reflexivity..].
Qed.

Lemma decimal_spec (n : Z) :
  (0 <= n)%Z ->
  all_digits (decimal n) = true /\ decimal n <> [] /\ digits_value (decimal n) = n.
Proof.
  intros Hn. destruct n as [|p|p]; [repeat split; discriminate| |lia].
  rewrite decimal_pos. split; [apply uint_text_digits|]. split.
  - intros H. apply (f_equal (@length ascii)) in H.
    rewrite uint_text_length in H. cbn in H.
    pose proof (DecimalPos.Unsigned.to_uint_nonnil p) as Hnil.
    destruct (Pos.to_uint p); [contradiction|discriminate..].
  - rewrite <- uint_value, DecimalPos.Unsigned.of_to. reflexivity.
Qed.

Lemma normal_uint_value (d : Decimal.uint) :
  Decimal.unorm d = d -> d <> Decimal.D0 Decimal.Nil ->
  (10 ^ Z.of_nat (Decimal.nb_digits d) <= 10 * Z.of_N (Pos.of_uint d))%Z.
Proof.
  intros Hnorm Hnz.
  assert (Hpow : forall (l : Decimal.uint) (k : positive),
             (10 ^ Z.of_nat (S (Decimal.nb_digits l)) <=
              10 * Z.pos (Pos.of_uint_acc l k))%Z).
  { intros l k. rewrite uint_value_acc, Nat2Z.inj_succ, Z.pow_succ_r by lia.
    pose proof (digits_value_nonneg _ (uint_text_digits l)).
    assert (0 < 10 ^ Z.of_nat (Decimal.nb_digits l))%Z by (apply Z.pow_pos_nonneg; lia).
    nia. }
  destruct d; cbn [Pos.of_uint Decimal.nb_digits Z.of_N]; try apply Hpow.
  - discriminate Hnorm.
  - destruct d; [contradiction|..];
      (exfalso;
       match type of Hnorm with
       | Decimal.unorm (Decimal.D0 ?l) = _ =>
           assert (Hl : l <> Decimal.Nil) by discriminate;
           pose proof (DecimalFacts.nb_digits_unorm l Hl) as Hle;
           change (Decimal.unorm (Decimal.D0 l)) with (Decimal.unorm l) in Hnorm;
           rewrite Hnorm in Hle; cbn [Decimal.nb_digits] in Hle; lia
       end).
Qed.

Lemma decimal_length (n : Z) (k : nat) :
  (0 <= n < 10 ^ Z.of_nat k)%Z -> 1 <= k -> length (decimal n) <= k.
Proof.
  intros [Hn Hlt] Hk. destruct n as [|p|p]; [exact Hk| |lia].
  rewrite decimal_pos, uint_text_length.
  assert (Hnorm : Decimal.unorm (Pos.to_uint p) = Pos.to_uint p).
  { rewrite <- DecimalPos.Unsigned.to_of, DecimalPos.Unsigned.of_to. reflexivity. }
  pose proof (@normal_uint_value (Pos.to_uint p) Hnorm
                (DecimalPos.Unsigned.to_uint_nonzero p)) as Hv.
  rewrite DecimalPos.Unsigned.of_to in Hv. cbn [Z.of_N] in Hv.
  destruct (Nat.le_gt_cases (Decimal.nb_digits (Pos.to_uint p)) k) as [H|H];
    [exact H|exfalso].
  assert (10 ^ Z.of_nat (S k) <= 10 ^ Z.of_nat (Decimal.nb_digits (Pos.to_uint p)))%Z
    by (apply Z.pow_le_mono_r; lia).
  rewrite Nat2Z.inj_succ, Z.pow_succ_r in * by lia. lia.
Qed.

Lemma trim_trailing_zeros_spec (fuel : nat) (l : str) :
  exists k, l = repeat "0"%char k ++ trim_trailing_zeros fuel l /\
            (l <> [] -> trim_trailing_zeros fuel l <> []).
Proof.
  revert l. induction fuel as [|fuel IH]; intros l.
  - exists 0. split; [reflexivity|]. destruct l; intros H; exact H.
  - destruct l as [|c [|c2 rest]];
      [exists 0; split; [reflexivity|intros H; exact H]
      |exists 0; split; [reflexivity|intros H; exact H]|].
    cbn [trim_trailing_zeros].
    destruct (Ascii.eqb_spec c "0"%char) as [->|Hc].
    + destruct (IH (c2 :: rest)) as (k & Hk & Hne).
      exists (S k). split; [cbn [repeat app]; now rewrite <- Hk|].
      intros _. apply Hne. discriminate.
    + exists 0. split; [reflexivity|]. intros H; exact H.
Qed.

Lemma all_digits_app (a b : str) :
  all_digits (a ++ b) = all_digits a && all_digits b.
Proof. unfold all_digits. apply forallb_app. Qed.

Lemma rev_zeros (k : nat) : rev (repeat "0"%char k) = repeat "0"%char k.
Proof.
  induction k as [|k IH]; [reflexivity|].
  cbn [repeat rev]. rewrite IH. symmetry. apply repeat_cons.
Qed.

(** The text that [formatUnits] prints at six decimals: a whole part
    without sign, a point, and between one and six decimals that are the
    six padded decimals of the value without their trailing zeros. *)
Lemma formatUnits_text (v : Z) :
  (0 <= v)%Z ->
  exists whole frac : str,
    formatUnits v 6 = whole ++ "."%char :: frac /\
    whole = decimal (v / 10 ^ 6) /\
    all_digits whole = true /\ whole <> [] /\
    digits_value whole = (v / 10 ^ 6)%Z /\
    all_digits frac = true /\ 1 <= length frac <= 6 /\
    (digits_value frac * 10 ^ (6 - Z.of_nat (length frac)) = v mod 10 ^ 6)%Z.
Proof.
  intros Hv. unfold formatUnits.
  rewrite (Z.abs_eq v Hv).
  destruct (Z.ltb_spec v 0) as [Hneg|_]; [lia|].
  change (10 ^ Z.of_nat 6)%Z with (10 ^ 6)%Z.
  assert (Hq : (0 <= v / 10 ^ 6)%Z) by (apply Z.div_pos; lia).
  assert (Hr : (0 <= v mod 10 ^ 6 < 10 ^ Z.of_nat 6)%Z)
    by (change (10 ^ Z.of_nat 6)%Z with (10 ^ 6)%Z; apply Z.mod_pos_bound; lia).
  destruct (decimal_spec Hq) as (Hwd & Hwn & Hwv).
  destruct (decimal_spec (proj1 Hr)) as (Hfd & Hfn & Hfv).
  pose proof (@decimal_length (v mod 10 ^ 6) 6 Hr (le_S _ _ (le_S _ _ (le_S _ _
                (le_S _ _ (le_S _ _ (le_n 1))))))) as Hfl.
  set (whole := decimal (v / 10 ^ 6)) in *.
  set (frac0 := decimal (v mod 10 ^ 6)) in *.
  set (frac := repeat "0"%char (6 - length frac0) ++ frac0).
  assert (Hlen : length frac = 6).
  { subst frac. rewrite length_app, repeat_length. lia. }
  assert (Hdigits : all_digits frac = true).
  { subst frac. rewrite all_digits_app, Hfd, andb_true_r.
    unfold all_digits. apply forallb_forall. intros c Hc.
    apply repeat_spec in Hc. now subst c. }
  assert (Hvalue : digits_value frac = (v mod 10 ^ 6)%Z).
  { subst frac. rewrite digits_value_app, digits_value_zeros. lia. }
  destruct (trim_trailing_zeros_spec 6 (rev frac)) as (k & Hk & Hne).
  set (t := trim_trailing_zeros 6 (rev frac)) in *.
  assert (Hfrac : frac = rev t ++ repeat "0"%char k).
  { rewrite <- (rev_involutive frac), Hk, rev_app_distr, rev_zeros. reflexivity. }
  exists whole, (rev t).
  assert (Htl : length (rev t) + k = 6).
  { rewrite <- Hlen, Hfrac at 1. rewrite length_app, repeat_length. reflexivity. }
  split; [reflexivity|]. split; [reflexivity|].
  split; [exact Hwd|]. split; [exact Hwn|].
  split; [exact Hwv|]. split; [|split].
  - rewrite Hfrac, all_digits_app in Hdigits.
    now apply andb_true_iff in Hdigits as [H _].
  - assert (Ht : t <> []).
    { apply Hne. intros H. apply (f_equal (@length ascii)) in H.
      rewrite length_rev, Hlen in H. discriminate H. }
    rewrite length_rev in *. destruct t; [contradiction|]. cbn [length] in *. lia.
  - rewrite <- Hvalue, Hfrac, digits_value_app, digits_value_zeros, repeat_length.
    replace (6 - Z.of_nat (length (rev t)))%Z with (Z.of_nat k) by lia. ring.
Qed.

(** X22. [getBalance] reads the balance once and returns it as text at
    six decimals; for a balance in the unsigned 256-bit range the text
    is a whole part, a point and from one to six decimals, and
    [parseUnits] converts it back to exactly the balance that was
    read, so that nothing is lost in the printing. *)
Theorem balance_text_round_trip (address : str) (w : World) (tr : Trace) :
  (0 <= balanceOf w address < 2 ^ 256)%Z ->
  exists text whole frac : str,
    getBalance address w tr = (Return text, tr ++ [EvBalanceOf address]) /\
    text = whole ++ "."%char :: frac /\
    all_digits whole = true /\ whole <> [] /\
    all_digits frac = true /\ 1 <= length frac <= 6 /\
    parseUnits text 6 = Return (balanceOf w address).
Proof.
  intros [Hlow Hhigh].
  destruct (formatUnits_text Hlow)
    as (whole & frac & Htext & Hwhole & Hwd & Hwn & Hwv & Hfd & Hfl & Hfv).
  exists (formatUnits (balanceOf w address) 6), whole, frac.
  split; [reflexivity|]. split; [exact Htext|].
  split; [exact Hwd|]. split; [exact Hwn|]. split; [exact Hfd|].
  split; [exact Hfl|].
  rewrite Htext.
  assert (Hwl : length whole <= 100).
  { rewrite Hwhole. apply decimal_length; [|lia].
    change (Z.of_nat 100) with 100%Z. split; [apply Z.div_pos; lia|].
    apply Z.div_lt_upper_bound; lia. }
  rewrite (@parseUnits_exact whole frac Hwd Hfd Hwn (proj2 Hfl) Hwl).
  unfold base_units. rewrite Hwv, Hfv.
  f_equal. symmetry. rewrite Z.mul_comm. apply Z.div_mod. lia.
Qed.

Lemma balance_text_round_trip_witness :
  (0 <= balanceOf example_world payer_address < 2 ^ 256)%Z /\
  exists text : str,
    getBalance payer_address example_world [] =
      (Return text, [EvBalanceOf payer_address]) /\
    parseUnits text 6 = Return 1000000000%Z.
Proof.
  assert (H : (0 <= balanceOf example_world payer_address < 2 ^ 256)%Z)
    by (cbn; lia).
  split; [exact H|].
  destruct (@balance_text_round_trip payer_address example_world [] H)
    as (text & whole & frac & Hrun & _ & _ & _ & _ & _ & Hparse).
  exists text. split; [exact Hrun|exact Hparse].
Defined.
